(** * vmmap for Darling: the procfs reader, the classifier and the summaries

    A shallow embedding of [Map], [LinuxToVmmap], [ParseSize] and
    [MakeTagSet] (the Linux back end), of [ParseArgs] and of [Print],
    [PrintCore], [PrintSummary] and [PrintMalloc] (print.cpp), with the
    properties of the specification stated over them.

    Conventions.
    - [std::size_t] and [std::intptr_t] are 64 bits wide.  A [size_t] is a
      [Z] kept in [0, 2^64) by [wrap64]; an [intptr_t] is a [Z] kept in
      [-2^63, 2^63) by [to_intptr].
    - A C++ exception is a value of [exn]; a function that may throw
      returns [result A], [inl] for the exception and [inr] for the value.
    - [std::unordered_map] and [std::unordered_set] keyed by strings are
      [gmap string _] and [gset string]. *)

From Stdlib Require Import ZArith Ascii String DecimalString Permutation.
From stdpp Require Import base option list strings gmap.

Local Open Scope string_scope.
Local Open Scope list_scope.
Local Open Scope Z_scope.

(** ** Exceptions *)

Inductive exn : Type :=
| invalid_argument (what : string)
| out_of_range (what : string).

Definition result (A : Type) : Type := (exn + A)%type.

Definition ret {A : Type} (a : A) : result A := inr a.
Definition throw {A : Type} (e : exn) : result A := inl e.

Definition bind {A B : Type} (m : result A) (k : A -> result B) : result B :=
  match m with
  | inl e => inl e
  | inr a => k a
  end.

Notation "'do' x <- m ; k" := (bind m (fun x => k))
  (at level 10, x name, m at level 100, k at level 200,
   format "'[v' 'do'  x  <-  m ; '/' k ']'").

(** ** Machine integers *)

Definition wrap64 (z : Z) : Z := z mod 2 ^ 64.

Definition SIZE_MAX : Z := 2 ^ 64 - 1.

(** Conversion of an [unsigned long long] to [intptr_t]. *)
Definition to_intptr (z : Z) : Z :=
  let u := wrap64 z in
  if u <? 2 ^ 63 then u else u - 2 ^ 64.

Definition INT_MIN : Z := - 2 ^ 31.
Definition INT_MAX : Z := 2 ^ 31 - 1.

(** ** Characters and strings *)

(** [isspace] in the "C" locale: space, \t, \n, \v, \f, \r. *)
Definition isspace (c : ascii) : bool :=
  let n := nat_of_ascii c in
  (n =? 32)%nat || ((9 <=? n)%nat && (n <=? 13)%nat).

Definition isdigit (c : ascii) : bool :=
  let n := nat_of_ascii c in
  (48 <=? n)%nat && (n <=? 57)%nat.

Definition isxdigit (c : ascii) : bool :=
  let n := nat_of_ascii c in
  isdigit c
  || ((97 <=? n)%nat && (n <=? 102)%nat)
  || ((65 <=? n)%nat && (n <=? 70)%nat).

Definition digit_value (c : ascii) : Z := Z.of_nat (nat_of_ascii c) - 48.

Definition xdigit_value (c : ascii) : Z :=
  let n := Z.of_nat (nat_of_ascii c) in
  if isdigit c then n - 48
  else if (97 <=? n) then n - 87
  else n - 55.

(** The longest prefix of [s] whose characters satisfy [p], and the rest. *)
Fixpoint span (p : ascii -> bool) (s : string) : string * string :=
  match s with
  | EmptyString => (EmptyString, EmptyString)
  | String c s' =>
      if p c then let '(a, b) := span p s' in (String c a, b)
      else (EmptyString, s)
  end.

(** The value of a digit string in base [base], most significant first. *)
Fixpoint digits_value (base : Z) (val : ascii -> Z) (acc : Z) (s : string) : Z :=
  match s with
  | EmptyString => acc
  | String c s' => digits_value base val (acc * base + val c) s'
  end.

(** [s.find_first_of(c, pos)] style searches: the index of the first
    character at position [pos] or later that satisfies [p]; [None] is
    [std::string::npos]. *)
Fixpoint find_from (p : ascii -> bool) (pos : nat) (s : string) : option nat :=
  match s with
  | EmptyString => None
  | String c s' =>
      match pos with
      | O => if p c then Some O else S <$> find_from p O s'
      | S pos' => S <$> find_from p pos' s'
      end
  end.

Definition find_first_of (c : ascii) (pos : nat) (s : string) : option nat :=
  find_from (Ascii.eqb c) pos s.

Definition find_first_not_of (c : ascii) (pos : nat) (s : string) : option nat :=
  find_from (fun a => negb (Ascii.eqb c a)) pos s.

Fixpoint take_str (n : nat) (s : string) : string :=
  match n, s with
  | S n', String c s' => String c (take_str n' s')
  | _, _ => EmptyString
  end.

Fixpoint drop_str (n : nat) (s : string) : string :=
  match n, s with
  | S n', String _ s' => drop_str n' s'
  | _, _ => s
  end.

(** [s.substr(pos)] and [s.substr(pos, n)]: [std::out_of_range] when
    [pos > s.size()], where [None] stands for [npos]. *)
Definition substr (s : string) (pos : option nat) (n : option nat) : result string :=
  match pos with
  | Some p =>
      if (p <=? String.length s)%nat then
        ret (match n with
             | Some k => take_str k (drop_str p s)
             | None => drop_str p s
             end)
      else throw (out_of_range "basic_string::substr")
  | None => throw (out_of_range "basic_string::substr")
  end.

(** [s[i]]: the character at [i], and the terminating NUL at
    [i = s.size()].  Beyond that the language gives no value; the model
    reads NUL there as well. *)
Definition string_at (s : string) (i : nat) : ascii :=
  match String.get i s with
  | Some c => c
  | None => "000"%char
  end.

(** [std::to_string] of an [int]. *)
Definition to_string (z : Z) : string := NilZero.string_of_int (Z.to_int z).

(** ** String streams

    What [std::stringstream] keeps between two extractions: the unread
    characters and the two state bits the code depends on. *)

Record sstream : Type := mkStream {
  buf : string;
  eofbit : bool;
  failbit : bool
}.

Definition stringstream (s : string) : sstream := mkStream s false false.

Definition good (ss : sstream) : bool := negb (eofbit ss) && negb (failbit ss).

Definition is_empty (s : string) : bool :=
  match s with EmptyString => true | _ => false end.

(** The optional sign in front of a number: whether it is a minus, and
    the text after it. *)
Definition read_sign (s : string) : bool * string :=
  match s with
  | String c r =>
      if Ascii.eqb c "-" then (true, r)
      else if Ascii.eqb c "+" then (false, r)
      else (false, s)
  | EmptyString => (false, s)
  end.

(** [ss >> word] for a [std::string]: skip white space, then read up to
    the next white space.  The target keeps its old value [old] when the
    extraction fails. *)
Definition extract_word (old : string) (ss : sstream) : string * sstream :=
  if good ss then
    let '(_, s1) := span isspace (buf ss) in
    if is_empty s1 then (old, mkStream s1 true true)
    else
      let '(w, s2) := span (fun c => negb (isspace c)) s1 in
      (w, mkStream s2 (is_empty s2) false)
  else (old, mkStream (buf ss) (eofbit ss) true).

(** [ss >> num] for a [size_t]: skip white space, an optional sign, then
    decimal digits, converted as [strtoull] does (a minus sign negates
    modulo 2^64).  No digit stores 0 and fails; a value beyond [SIZE_MAX]
    stores [SIZE_MAX] and fails. *)
Definition extract_size_t (old : Z) (ss : sstream) : Z * sstream :=
  if good ss then
    let '(_, s1) := span isspace (buf ss) in
    let '(neg, s2) := read_sign s1 in
    let '(ds, s3) := span isdigit s2 in
    if is_empty ds then (0, mkStream s3 (is_empty s3) true)
    else
      let v := digits_value 10 digit_value 0 ds in
      if v <=? SIZE_MAX
      then (if neg then wrap64 (- v) else v, mkStream s3 (is_empty s3) false)
      else (SIZE_MAX, mkStream s3 (is_empty s3) true)
  else (old, mkStream (buf ss) (eofbit ss) true).

(** ** ParseSize *)

Definition mul64 (a b : Z) : Z := wrap64 (a * b).
Definition add64 (a b : Z) : Z := wrap64 (a + b).

Definition ParseSize (size : string) : result Z :=
  let ss := stringstream size in
  let '(num, ss) := extract_size_t 0 ss in
  let '(unit, ss) := extract_word "" ss in
  if String.eqb unit "kB" then ret (mul64 num 1024)
  else if String.eqb unit "MB" then ret (mul64 (mul64 num 1024) 1024)
  else if String.eqb unit "GB" then ret (mul64 (mul64 (mul64 num 1024) 1024) 1024)
  else throw (invalid_argument ("vmmap: Failed to parse size: " +:+ size)).

(** ** MakeTagSet

    [while (!ss.eof()) { ss >> tag; tags.insert(tag); }].  Every round
    either consumes a character or sets [eofbit], so
    [S (String.length str)] rounds always reach the end of the loop. *)

Fixpoint MakeTagSet_loop (fuel : nat) (ss : sstream) (tags : gset string) : gset string :=
  match fuel with
  | O => tags
  | S fuel' =>
      if eofbit ss then tags
      else
        let '(tag, ss') := extract_word "" ss in
        MakeTagSet_loop fuel' ss' ({[ tag ]} ∪ tags)
  end.

Definition MakeTagSet (str : string) : gset string :=
  MakeTagSet_loop (S (String.length str)) (stringstream str) ∅.

(** ** Numeric conversions of <string> *)

(** [std::stoull(s, nullptr, 16)].  Every argument the parser passes is a
    capture of [[0-9a-fA-F]*], so the white space, sign and prefix that
    [strtoull] would skip never occur; what remains is the digit run. *)
Definition stoull16 (s : string) : result Z :=
  let '(ds, _) := span isxdigit s in
  if is_empty ds then throw (invalid_argument "stoull")
  else
    let v := digits_value 16 xdigit_value 0 ds in
    if v <=? SIZE_MAX then ret v else throw (out_of_range "stoull").

(** [std::stoi(s)]: leading white space, an optional sign, decimal digits. *)
Definition stoi (s : string) : result Z :=
  let '(_, s1) := span isspace s in
  let '(neg, s2) := read_sign s1 in
  let '(ds, _) := span isdigit s2 in
  if is_empty ds then throw (invalid_argument "stoi")
  else
    let v := digits_value 10 digit_value 0 ds in
    let r := if neg then - v else v in
    if (INT_MIN <=? r) && (r <=? INT_MAX) then ret r
    else throw (out_of_range "stoi").

(** ** The header pattern

    The regular expression of [Map] is a sequence of greedy starred
    character classes and literal characters.  [regex_run] is the
    backtracking matcher of ECMAScript restricted to that shape: a star
    first takes as many characters as it can and gives them back one at a
    time until the rest of the pattern matches the rest of the line.  It
    returns the text taken by each star, in order. *)

Inductive regex_item : Type :=
| Lit (c : ascii)
| Star (cls : ascii -> bool).

Fixpoint regex_run (p : list regex_item) : string -> option (list string) :=
  match p with
  | [] => fun s => if is_empty s then Some [] else None
  | Lit c :: p' =>
      fun s =>
        match s with
        | String a s' => if Ascii.eqb a c then regex_run p' s' else None
        | EmptyString => None
        end
  | Star cls :: p' =>
      fix star (s : string) : option (list string) :=
        let stop := cons EmptyString <$> regex_run p' s in
        match s with
        | String a s' =>
            if cls a then
              match star s' with
              | Some (g :: gs) => Some (String a g :: gs)
              | _ => stop
              end
            else stop
        | EmptyString => stop
        end
  end.

Definition cls_perm (c : ascii) : bool :=
  Ascii.eqb c "r" || Ascii.eqb c "w" || Ascii.eqb c "x"
  || Ascii.eqb c "s" || Ascii.eqb c "p" || Ascii.eqb c "-".

Definition cls_any (c : ascii) : bool := true.

(** The pattern as [Map] writes it, and its items. *)
Definition regex_text : string :=
  "([0-9a-fA-F]*)-([0-9a-fA-F]*)\s*([rwxsp-]*)\s*([0-9a-fA-F]*)\s*([0-9a-fA-F]*):([0-9a-fA-F]*)\s*([0-9a-fA-F]*)\s*([\S\s]*)".

Definition regex : list regex_item :=
  [ Star isxdigit; Lit "-"; Star isxdigit; Star isspace; Star cls_perm;
    Star isspace; Star isxdigit; Star isspace; Star isxdigit; Lit ":";
    Star isxdigit; Star isspace; Star isxdigit; Star isspace; Star cls_any ].

(** The eight sub-matches [results[1]] .. [results[8]]. *)
Record smatch : Type := mkMatch {
  m1 : string; m2 : string; m3 : string; m4 : string;
  m5 : string; m6 : string; m7 : string; m8 : string
}.

Definition regex_match (line : string) : option smatch :=
  match regex_run regex line with
  | Some [g1; g2; _; g3; _; g4; _; g5; g6; _; g7; _; g8] =>
      Some (mkMatch g1 g2 g3 g4 g5 g6 g7 g8)
  | _ => None
  end.

(** ** The records of map.h and of the Linux back end *)

Module LinuxEntry.
Record t : Type := mk {
  start : Z;
  end_ : Z;
  permissions : string;
  offset : Z;
  dev : string;
  inode : string;
  description : string;
  tags : gmap string string
}.
End LinuxEntry.
Abbreviation LinuxEntry := LinuxEntry.t.

Module VmmapEntry.
Record t : Type := mk {
  regionType : string;
  startAddress : Z;
  endAddress : Z;
  vsize : Z;
  rss : Z;
  dirty : Z;
  swap : Z;
  pageSize : Z;
  prt : string;
  max : string;
  shrmod : string;
  purge : string;
  regionDetail : string
}.

Definition with_regionType (v : string) (e : t) : t :=
  mk v (startAddress e) (endAddress e) (vsize e) (rss e) (dirty e) (swap e)
     (pageSize e) (prt e) (max e) (shrmod e) (purge e) (regionDetail e).

Definition with_regionDetail (v : string) (e : t) : t :=
  mk (regionType e) (startAddress e) (endAddress e) (vsize e) (rss e) (dirty e)
     (swap e) (pageSize e) (prt e) (max e) (shrmod e) (purge e) v.

(** [strncmp(regionType.c_str(), "MALLOC", 6) == 0]. *)
Definition IsMalloc (e : t) : bool := String.eqb (take_str 6 (regionType e)) "MALLOC".
End VmmapEntry.
Abbreviation VmmapEntry := VmmapEntry.t.

Module VmmapSummaryEntry.
Record t : Type := mk {
  regionType : string;
  vsize : Z;
  rss : Z;
  dirty : Z;
  swap : Z;
  vol : Z;
  nonvol : Z;
  empty : Z;
  regionCount : Z
}.

(** The default member initialisers. *)
Definition init : t := mk "" 0 0 0 0 0 0 0 0.

Definition IsMalloc (e : t) : bool := String.eqb (take_str 6 (regionType e)) "MALLOC".
End VmmapSummaryEntry.
Abbreviation VmmapSummaryEntry := VmmapSummaryEntry.t.

Definition READ_INDEX : nat := 0.
Definition WRITE_INDEX : nat := 1.
Definition EXECUTE_INDEX : nat := 2.

Definition SystemPrefix : string := "/Volumes/SystemRoot".

(** ** LinuxToVmmap *)

(** [tags.count(key) ? ParseSize(tags.at(key)) : fallback]. *)
Definition size_tag (tags : gmap string string) (key : string) (fallback : Z) : result Z :=
  match tags !! key with
  | Some v => ParseSize v
  | None => ret fallback
  end.

Definition has_flag (flags : gset string) (name : string) (c : ascii) : ascii :=
  if bool_decide (name ∈ flags) then c else "-"%char.

Definition contains_char (c : ascii) (s : string) : bool :=
  match find_first_of c 0 s with
  | Some _ => true
  | None => false
  end.

Section Classifier.

(** [sysconf(_SC_PAGESIZE)] of the host. *)
Variable sc_pagesize : Z.

Definition LinuxToVmmap (entry : LinuxEntry) : result VmmapEntry :=
  let startAddress := LinuxEntry.start entry in
  let endAddress := LinuxEntry.end_ entry in
  let tags := LinuxEntry.tags entry in
  let description := LinuxEntry.description entry in
  do pageSize <- size_tag tags "KernelPageSize" (wrap64 sc_pagesize);
  do vsize <- size_tag tags "Size" (wrap64 (endAddress - startAddress));
  do rss <- size_tag tags "Rss" vsize;
  do dirty <- size_tag tags "Shared_Dirty" 0;
  do dirty <- match tags !! "Private_Dirty" with
              | Some v => do d <- ParseSize v; ret (add64 dirty d)
              | None => ret dirty
              end;
  do swap <- size_tag tags "Swap" 0;
  let prt :=
    if String.eqb (LinuxEntry.permissions entry) "" then "???"
    else take_str 3 (LinuxEntry.permissions entry) in
  let max :=
    match tags !! "VmFlags" with
    | Some v =>
        let flags := MakeTagSet v in
        String (has_flag flags "mr" "r")
          (String (has_flag flags "mw" "w")
             (String (has_flag flags "me" "x") EmptyString))
    | None => "???"
    end in
  let shrmod := "NUL" in
  let purge := "" in
  let mkEntry regionType regionDetail :=
    VmmapEntry.mk regionType startAddress endAddress vsize rss dirty swap
      pageSize prt max shrmod purge regionDetail in
  if contains_char "/" description then ret (mkEntry "mapped file" description)
  else if String.eqb description "HEAP" then ret (mkEntry "MALLOC" description)
  else if String.eqb description "[stack]" then ret (mkEntry "Stack" description)
  else if String.eqb (take_str 7 description) "[stack:" then
    do id <- stoi (drop_str 7 description);
    ret (mkEntry "Stack" ("thread " +:+ to_string id))
  else ret (mkEntry "VM_ALLOCATE" description).

(** ** The reading loop of Map *)

Record loop_state : Type := mkLoop {
  firstLine : bool;
  currentLinuxEntry : LinuxEntry;
  entries : list VmmapEntry
}.

(** Before the loop.  The three integers of [currentLinuxEntry] are not
    initialised by the code; they are written before they are first read,
    so any value stands for them here. *)
Definition loop_init : loop_state :=
  mkLoop true (LinuxEntry.mk 0 0 "" 0 "" "" "" ∅) [].

Definition set_tag (name value : string) (e : LinuxEntry) : LinuxEntry :=
  LinuxEntry.mk (LinuxEntry.start e) (LinuxEntry.end_ e) (LinuxEntry.permissions e)
    (LinuxEntry.offset e) (LinuxEntry.dev e) (LinuxEntry.inode e)
    (LinuxEntry.description e) (<[ name := value ]> (LinuxEntry.tags e)).

(** One round of the [while] loop, on the line [std::getline] delivered. *)
Definition Map_line (st : loop_state) (line : string) : result loop_state :=
  match regex_match line with
  | Some results =>
      do entries' <- (if firstLine st then ret (entries st)
                      else do e <- LinuxToVmmap (currentLinuxEntry st);
                           ret (entries st ++ [e]));
      do start <- stoull16 (m1 results);
      do end_ <- stoull16 (m2 results);
      do offset <- stoull16 (m4 results);
      ret (mkLoop false
             (LinuxEntry.mk (to_intptr start) (to_intptr end_) (m3 results)
                (to_intptr offset) (m5 results +:+ ":" +:+ m6 results)
                (m7 results) (m8 results)
                (LinuxEntry.tags (currentLinuxEntry st)))
             entries')
  | None =>
      match find_first_of ":" 0 line with
      | Some splitIndex =>
          do name <- substr line (Some O) (Some splitIndex);
          do value <- substr line (find_first_not_of " " (S splitIndex) line) None;
          ret (mkLoop (firstLine st)
                 (set_tag name value (currentLinuxEntry st))
                 (entries st))
      | None => ret st
      end
  end.

Fixpoint Map_loop (st : loop_state) (lines : list string) : result loop_state :=
  match lines with
  | [] => ret st
  | line :: rest => do st' <- Map_line st line; Map_loop st' rest
  end.

(** The lines [std::getline] delivers until [eof()]: the text split at
    every newline.  A text that ends in a newline, and the empty text,
    give one last empty line. *)
Fixpoint getlines (text : string) : list string :=
  match text with
  | EmptyString => [EmptyString]
  | String c text' =>
      if Ascii.eqb c "010" then EmptyString :: getlines text'
      else match getlines text' with
           | l :: ls => String c l :: ls
           | [] => [String c EmptyString]
           end
  end.

(** ** The two passes over the entries *)

Definition is_executable (entry : VmmapEntry) : bool :=
  Ascii.eqb (string_at (VmmapEntry.prt entry) EXECUTE_INDEX) "x".

Definition is_mapped_file (entry : VmmapEntry) : bool :=
  String.eqb (VmmapEntry.regionType entry) "mapped file".

(** First loop: prefix the path of every mapped file and collect the
    paths that are mapped executable. *)
Fixpoint prefix_pass (entries : list VmmapEntry) (executeableFiles : gset string)
  : list VmmapEntry * gset string :=
  match entries with
  | [] => ([], executeableFiles)
  | entry :: rest =>
      if is_mapped_file entry then
        let entry' :=
          VmmapEntry.with_regionDetail
            (SystemPrefix +:+ VmmapEntry.regionDetail entry) entry in
        let files :=
          if is_executable entry'
          then {[ VmmapEntry.regionDetail entry' ]} ∪ executeableFiles
          else executeableFiles in
        let '(rest', files') := prefix_pass rest files in
        (entry' :: rest', files')
      else
        let '(rest', files') := prefix_pass rest executeableFiles in
        (entry :: rest', files')
  end.

(** Second loop, on one entry. *)
Definition relabel (executeableFiles : gset string) (entry : VmmapEntry) : VmmapEntry :=
  if is_mapped_file entry then
    if bool_decide (VmmapEntry.regionDetail entry ∈ executeableFiles) then
      if is_executable entry then VmmapEntry.with_regionType "__TEXT" entry
      else VmmapEntry.with_regionType "__DATA" entry
    else entry
  else entry.

Definition classify_files (entries : list VmmapEntry) : list VmmapEntry :=
  let '(entries', executeableFiles) := prefix_pass entries ∅ in
  relabel executeableFiles <$> entries'.

(** [Map] from the point where the stream is open, on the text it holds. *)
Definition Map_text (text : string) : result (list VmmapEntry) :=
  do st <- Map_loop loop_init (getlines text);
  ret (classify_files (entries st)).

End Classifier.

(** ** Map, with the host it asks *)

Inductive errno_t : Type := ENONE | ESRCH | EINVAL | EPERM | EOTHER.

(** What the host answers: [errno] as [Map] finds it after [getpgid], the
    text of /proc/<pid>/smaps and of /proc/<pid>/maps when they can be
    opened, and [sysconf(_SC_PAGESIZE)]. *)
Record Host : Type := mkHost {
  errno : errno_t;
  proc_smaps : option string;
  proc_maps : option string;
  host_pagesize : Z
}.

Record VmmapArgs : Type := mkArgs {
  pid : Z;
  wide : bool;
  pages : bool;
  interleaved : bool;
  submap : bool;
  allSplitLibs : bool;
  noCoalesce : bool;
  summary : bool;
  stacks : bool;
  fullStacks : bool;
  forkCorpse : bool
}.

Definition BadPerm {A : Type} (pid : Z) : result A :=
  throw (invalid_argument
    ("vmmap: vmmap cannot examine process " +:+ to_string pid
     +:+ " because it no longer appears to be running.")).

Definition BadPid {A : Type} (pid : Z) : result A :=
  throw (invalid_argument
    ("vmmap: vmmap cannot examine process " +:+ to_string pid
     +:+ " because you do not have appropriate privileges to examine it; try running with `sudo`.")).

Definition Map (host : Host) (args : VmmapArgs) : result (list VmmapEntry) :=
  do _ <- match errno host with
          | ESRCH | EINVAL => BadPid (pid args)
          | _ => ret tt
          end;
  do _ <- match errno host with
          | EPERM => BadPerm (pid args)
          | _ => ret tt
          end;
  do text <- match proc_smaps host with
             | Some text => ret text
             | None =>
                 match proc_maps host with
                 | Some text => ret text
                 | None => BadPid (pid args)
                 end
             end;
  Map_text (host_pagesize host) text.

Definition nl : string := String "010" EmptyString.

(** ** The summaries of print.cpp

    [PrintSummary] and [PrintMalloc] fill an [unordered_map] keyed by
    region type, respectively by malloc zone, and print one row for each
    of its entries.  The embedding keeps the values the rows are printed
    from and whether each printed operand has a value, not the text. *)

(** One round of the loop that fills [regions] in [PrintSummary]. *)
Definition add_region (regions : gmap string VmmapSummaryEntry) (entry : VmmapEntry)
  : gmap string VmmapSummaryEntry :=
  let currentRegion := default VmmapSummaryEntry.init (regions !! VmmapEntry.regionType entry) in
  let vsize := VmmapEntry.vsize entry in
  let purge := VmmapEntry.purge entry in
  <[ VmmapEntry.regionType entry :=
       VmmapSummaryEntry.mk
         (VmmapEntry.regionType entry)
         (add64 (VmmapSummaryEntry.vsize currentRegion) vsize)
         (add64 (VmmapSummaryEntry.rss currentRegion) (VmmapEntry.rss entry))
         (add64 (VmmapSummaryEntry.dirty currentRegion) (VmmapEntry.dirty entry))
         (add64 (VmmapSummaryEntry.swap currentRegion) (VmmapEntry.swap entry))
         (if String.eqb purge "V"
          then add64 (VmmapSummaryEntry.vol currentRegion) vsize
          else VmmapSummaryEntry.vol currentRegion)
         (if String.eqb purge "N"
          then add64 (VmmapSummaryEntry.nonvol currentRegion) vsize
          else VmmapSummaryEntry.nonvol currentRegion)
         (if String.eqb purge "E"
          then add64 (VmmapSummaryEntry.empty currentRegion) vsize
          else VmmapSummaryEntry.empty currentRegion)
         (add64 (VmmapSummaryEntry.regionCount currentRegion) 1) ]> regions.

Definition summary_regions (entries : list VmmapEntry) : gmap string VmmapSummaryEntry :=
  fold_left add_region entries ∅.

(** One round of the loop that fills [mallocZones] in [PrintMalloc]. *)
Definition add_zone (mallocZones : gmap string VmmapSummaryEntry) (entry : VmmapEntry)
  : gmap string VmmapSummaryEntry :=
  if VmmapEntry.IsMalloc entry then
    let summaryEntry :=
      default VmmapSummaryEntry.init (mallocZones !! VmmapEntry.regionDetail entry) in
    <[ VmmapEntry.regionDetail entry :=
         VmmapSummaryEntry.mk
           (VmmapEntry.regionDetail entry)
           (add64 (VmmapSummaryEntry.vsize summaryEntry) (VmmapEntry.vsize entry))
           (add64 (VmmapSummaryEntry.rss summaryEntry) (VmmapEntry.rss entry))
           (add64 (VmmapSummaryEntry.dirty summaryEntry) (VmmapEntry.dirty entry))
           (add64 (VmmapSummaryEntry.swap summaryEntry) (VmmapEntry.swap entry))
           (VmmapSummaryEntry.vol summaryEntry)
           (VmmapSummaryEntry.nonvol summaryEntry)
           (VmmapSummaryEntry.empty summaryEntry)
           (add64 (VmmapSummaryEntry.regionCount summaryEntry) 1) ]> mallocZones
  else mallocZones.

Definition malloc_zones (entries : list VmmapEntry) : gmap string VmmapSummaryEntry :=
  fold_left add_zone entries ∅.

(** What a call does: return, throw an exception, throw a pointer to one
    ([throw new ...]), or run into an operation the language gives no
    meaning: [front()] or [*begin()] of an empty list, a division by zero,
    a signed overflow, a floating-point value converted to an [int] that
    cannot hold it. *)
Inductive outcome (A : Type) : Type :=
| Returns (a : A)
| Throws (e : exn)
| ThrowsPointer (e : exn)
| Undefined.
Arguments Returns {A} a.
Arguments Throws {A} e.
Arguments ThrowsPointer {A} e.
Arguments Undefined {A}.

Definition and_then {A B : Type} (m : outcome A) (k : A -> outcome B) : outcome B :=
  match m with
  | Returns a => k a
  | Throws e => Throws e
  | ThrowsPointer e => ThrowsPointer e
  | Undefined => Undefined
  end.

Notation "'run' x <- m ; k" := (and_then m (fun x => k))
  (at level 10, x name, m at level 100, k at level 200,
   format "'[v' 'run'  x  <-  m ; '/' k ']'").

(** [for (x : l) f(x);]. *)
Fixpoint for_each {A : Type} (f : A -> outcome unit) (l : list A) : outcome unit :=
  match l with
  | [] => Returns tt
  | x :: rest => run _ <- f x; for_each f rest
  end.

(** The operands of one output statement, each evaluated once. *)
Fixpoint operands (l : list (outcome string)) : outcome unit :=
  match l with
  | [] => Returns tt
  | m :: rest => run _ <- m; operands rest
  end.

(** [entries.front().pageSize] and [entries.begin()->pageSize]. *)
Definition front_pageSize {A : Type} (entries : list VmmapEntry) (k : Z -> outcome A)
  : outcome A :=
  match entries with
  | entry :: _ => k (VmmapEntry.pageSize entry)
  | [] => Undefined
  end.

(** ** The formatting helpers of print.cpp *)

(** [std::string(n, c)]. *)
Fixpoint fill (n : nat) (c : ascii) : string :=
  match n with
  | O => EmptyString
  | S n' => String c (fill n' c)
  end.

(** [maxLength] is a [size_t]. *)
Definition TruncateStringPrefix (str : string) (maxLength : Z) : string :=
  if maxLength <? 3 then fill (Z.to_nat maxLength) "."
  else if Z.of_nat (String.length str) <=? maxLength then str
  else
    let realLength := maxLength - 3 in
    "..." +:+ drop_str (String.length str - Z.to_nat realLength) str.

Definition TruncateStringSuffix (str : string) (maxLength : Z) : string :=
  if maxLength <? 3 then fill (Z.to_nat maxLength) "."
  else if Z.of_nat (String.length str) <=? maxLength then str
  else
    let realLength := maxLength - 3 in
    take_str (Z.to_nat realLength) str +:+ "...".

(** [bytes] is an [intptr_t]; the divisions truncate towards zero. *)
Definition FormatData (bytes : Z) (sep : string) : string :=
  if bytes <? 9999 * 1024 then to_string (bytes ÷ 1024) +:+ sep +:+ "K"
  else if bytes <? 1024 * 1024 * 1024
       then to_string (bytes ÷ (1024 * 1024)) +:+ sep +:+ "M"
  else to_string (bytes ÷ (1024 * 1024 * 1024)) +:+ sep +:+ "G".

(** [bytes] and [pageSize] are [size_t]; dividing by a page size of 0 has
    no defined result. *)
Definition PagesOrKilobytes (bytes pageSize : Z) (pages : bool) : outcome string :=
  if pages then
    if pageSize =? 0 then Undefined else Returns (to_string (bytes / pageSize))
  else Returns (FormatData (to_intptr bytes) " ").

(** The width [PrintCore] leaves for the detail column: [ws_col] is the
    width of the terminal when standard output is one. *)
Definition REGION_DETAIL_WIDTH (ws_col : option Z) (args : VmmapArgs) : Z :=
  let REGION_TYPE_WIDTH := 24 in
  let START_ADDRESS_WIDTH := 12 in
  let END_ADDRESS_WIDTH := 12 in
  let VSIZE_WIDTH := 6 in
  let RSDNT_WIDTH := 7 in
  let DIRTY_WIDTH := 7 in
  let SWAP_WIDTH := 7 in
  let PRTMAX_WIDTH := 7 in
  let SHRMOD_WIDTH := 6 in
  let PURGE_WIDTH := 8 in
  match ws_col with
  | Some width =>
      if negb (wide args) then
        Z.max 0 (width - REGION_TYPE_WIDTH - 1 - START_ADDRESS_WIDTH - 1
                 - END_ADDRESS_WIDTH - 1 - 1 - VSIZE_WIDTH - RSDNT_WIDTH - DIRTY_WIDTH
                 - SWAP_WIDTH - 1 - 1 - PRTMAX_WIDTH - 1 - SHRMOD_WIDTH - 1
                 - PURGE_WIDTH - 1)
      else -1
  | None => -1
  end.

(** The last column of a row of [PrintCore]. *)
Definition detail_column (ws_col : option Z) (args : VmmapArgs) (entry : VmmapEntry)
  : string :=
  TruncateStringPrefix (VmmapEntry.regionDetail entry)
    (wrap64 (REGION_DETAIL_WIDTH ws_col args)).

(** The size columns of a row of [PrintCore]. *)
Definition size_columns (args : VmmapArgs) (entry : VmmapEntry)
  : list (outcome string) :=
  [ PagesOrKilobytes (VmmapEntry.vsize entry) (VmmapEntry.pageSize entry) (pages args);
    PagesOrKilobytes (VmmapEntry.rss entry) (VmmapEntry.pageSize entry) (pages args);
    PagesOrKilobytes (VmmapEntry.dirty entry) (VmmapEntry.pageSize entry) (pages args);
    PagesOrKilobytes (VmmapEntry.swap entry) (VmmapEntry.pageSize entry) (pages args) ].

(** [PrintCore]: one row for each entry.  Of a row the embedding keeps
    the evaluation of its four size columns. *)
Definition PrintCore (entries : list VmmapEntry) (args : VmmapArgs) : outcome unit :=
  for_each (fun entry => operands (size_columns args entry)) entries.

(** The size columns of a row of the region table and of the zone table. *)
Definition region_columns (pageSize : Z) (args : VmmapArgs) (entry : VmmapSummaryEntry)
  : list (outcome string) :=
  [ PagesOrKilobytes (VmmapSummaryEntry.vsize entry) pageSize (pages args);
    PagesOrKilobytes (VmmapSummaryEntry.rss entry) pageSize (pages args);
    PagesOrKilobytes (VmmapSummaryEntry.dirty entry) pageSize (pages args);
    PagesOrKilobytes (VmmapSummaryEntry.swap entry) pageSize (pages args);
    PagesOrKilobytes (VmmapSummaryEntry.vol entry) pageSize (pages args);
    PagesOrKilobytes (VmmapSummaryEntry.nonvol entry) pageSize (pages args);
    PagesOrKilobytes (VmmapSummaryEntry.empty entry) pageSize (pages args) ].

Definition zone_columns (pageSize : Z) (args : VmmapArgs) (zone : VmmapSummaryEntry)
  : list (outcome string) :=
  [ PagesOrKilobytes (VmmapSummaryEntry.vsize zone) pageSize (pages args);
    PagesOrKilobytes (VmmapSummaryEntry.rss zone) pageSize (pages args);
    PagesOrKilobytes (VmmapSummaryEntry.dirty zone) pageSize (pages args);
    PagesOrKilobytes (VmmapSummaryEntry.swap zone) pageSize (pages args) ].

Record MallocTable : Type := mkMallocTable {
  mallocZones : gmap string VmmapSummaryEntry;
  zones_pageSize : Z
}.

(** The rows come in the order of the [unordered_map], which the
    language leaves open; no result of the embedding depends on it. *)
Definition PrintMalloc (entries : list VmmapEntry) (args : VmmapArgs) : outcome MallocTable :=
  let mallocZones := malloc_zones entries in
  front_pageSize entries (fun pageSize =>
  run _ <- for_each (fun kvp => operands (zone_columns pageSize args (snd kvp)))
             (map_to_list mallocZones);
  Returns (mkMallocTable mallocZones pageSize)).

Record SummaryTable : Type := mkSummaryTable {
  readOnlyTotal : Z;
  readOnlyRss : Z;
  writeTotal : Z;
  writeRss : Z;
  writeSwap : Z;
  regions : gmap string VmmapSummaryEntry;
  regions_pageSize : Z;
  malloc_table : MallocTable
}.

(** The first loop of [PrintSummary]: five [intptr_t] totals. *)
Definition add_totals (t : Z * Z * Z * Z * Z) (entry : VmmapEntry) : Z * Z * Z * Z * Z :=
  let '(roTotal, roRss, wTotal, wRss, wSwap) := t in
  if Ascii.eqb (string_at (VmmapEntry.prt entry) WRITE_INDEX) "w" then
    (roTotal, roRss,
     to_intptr (wTotal + VmmapEntry.vsize entry),
     to_intptr (wRss + VmmapEntry.rss entry),
     to_intptr (wSwap + VmmapEntry.swap entry))
  else if String.eqb (VmmapEntry.regionType entry) "__TEXT" then
    (to_intptr (roTotal + VmmapEntry.vsize entry),
     to_intptr (roRss + VmmapEntry.rss entry),
     wTotal, wRss, wSwap)
  else t.

Definition INTPTR_MIN : Z := - 2 ^ 63.
Definition INTPTR_MAX : Z := 2 ^ 63 - 1.

(** [a - b] on two [intptr_t]: a difference outside the type has no
    defined value. *)
Definition sub_intptr (a b : Z) : outcome Z :=
  if (INTPTR_MIN <=? a - b) && (a - b <=? INTPTR_MAX) then Returns (a - b)
  else Undefined.

Record Report : Type := mkReport {
  report_pageSize : option Z;
  core_tables : list (list VmmapEntry);
  summary_table : SummaryTable
}.

Section Reporting.

(** [(int)std::round((long double)t1 / t2 * 100)] for a divisor [t2] that
    is not zero: the [int], when the rounded quotient is one.  The
    floating-point computation itself is not embedded. *)
Variable round_percent : Z -> Z -> option Z.

(** The collaborators that ask the host about the process; each may throw
    a pointer to an exception. *)
Variable PrintOverview : list VmmapEntry -> VmmapArgs -> result unit.
Variable GetProcessName : Z -> result string.

(** With a divisor of zero the quotient is a NaN or an infinity, which no
    [int] holds. *)
Definition Percent (t1 t2 : Z) : outcome string :=
  if t2 =? 0 then Undefined
  else
    match round_percent t1 t2 with
    | Some n => Returns (to_string n +:+ "%")
    | None => Undefined
    end.

(** The two lines of totals of [PrintSummary]. *)
Definition print_totals (t : Z * Z * Z * Z * Z) : outcome unit :=
  let '(readOnlyTotal, readOnlyRss, writeTotal, writeRss, writeSwap) := t in
  run _ <- Percent readOnlyRss readOnlyTotal;
  run unallocated <- sub_intptr readOnlyTotal readOnlyRss;
  run _ <- Percent unallocated readOnlyTotal;
  run _ <- Percent writeSwap writeTotal;
  run _ <- Percent writeRss writeTotal;
  run notResident <- sub_intptr writeTotal writeRss;
  run unallocated <- sub_intptr notResident writeSwap;
  run _ <- Percent unallocated writeTotal;
  Returns tt.

Definition PrintSummary (entries : list VmmapEntry) (args : VmmapArgs) : outcome SummaryTable :=
  let totals := fold_left add_totals entries (0, 0, 0, 0, 0) in
  let '(roTotal, roRss, wTotal, wRss, wSwap) := totals in
  run _ <- print_totals totals;
  let regions := summary_regions entries in
  front_pageSize entries (fun pageSize =>
  run _ <- for_each (fun kvp => operands (region_columns pageSize args (snd kvp)))
             (map_to_list regions);
  run zones <- PrintMalloc entries args;
  Returns (mkSummaryTable roTotal roRss wTotal wRss wSwap regions pageSize zones)).

Definition is_writable (entry : VmmapEntry) : bool :=
  contains_char "w" (VmmapEntry.prt entry).

Definition Print (entries : list VmmapEntry) (args : VmmapArgs) : outcome Report :=
  if forkCorpse args
  then ThrowsPointer (invalid_argument "vmmap: -forkCorpse not implemented")
  else
    match PrintOverview entries args with
    | inl e => ThrowsPointer e
    | inr _ =>
        run shown <-
          (if negb (summary args) then
             match GetProcessName (pid args) with
             | inl e => ThrowsPointer e
             | inr _ =>
                 front_pageSize entries (fun pageSize =>
                 let tables :=
                   if negb (interleaved args)
                   then [ filter (fun e => is_writable e = false) entries;
                          filter (fun e => is_writable e = true) entries ]
                   else [ entries ] in
                 run _ <- for_each (fun table => PrintCore table args) tables;
                 Returns (Some pageSize, tables))
             end
           else Returns (None, []));
        run t <- PrintSummary entries args;
        Returns (mkReport (fst shown) (snd shown) t)
    end.

End Reporting.


(** ** The command line (args.cpp)

    [ParseArgs] throws a [std::runtime_error] besides the two exceptions of
    [exn]. *)

Inductive usage_exn : Type :=
| runtime_error (what : string)
| logic_error (e : exn).

Definition set_pid (v : Z) (a : VmmapArgs) : VmmapArgs :=
  mkArgs v (wide a) (pages a) (interleaved a) (submap a) (allSplitLibs a)
    (noCoalesce a) (summary a) (stacks a) (fullStacks a) (forkCorpse a).
Definition set_wide (a : VmmapArgs) : VmmapArgs :=
  mkArgs (pid a) true (pages a) (interleaved a) (submap a) (allSplitLibs a)
    (noCoalesce a) (summary a) (stacks a) (fullStacks a) (forkCorpse a).
Definition set_pages (a : VmmapArgs) : VmmapArgs :=
  mkArgs (pid a) (wide a) true (interleaved a) (submap a) (allSplitLibs a)
    (noCoalesce a) (summary a) (stacks a) (fullStacks a) (forkCorpse a).
Definition set_interleaved (a : VmmapArgs) : VmmapArgs :=
  mkArgs (pid a) (wide a) (pages a) true (submap a) (allSplitLibs a)
    (noCoalesce a) (summary a) (stacks a) (fullStacks a) (forkCorpse a).
Definition set_submap (a : VmmapArgs) : VmmapArgs :=
  mkArgs (pid a) (wide a) (pages a) (interleaved a) true (allSplitLibs a)
    (noCoalesce a) (summary a) (stacks a) (fullStacks a) (forkCorpse a).
Definition set_allSplitLibs (a : VmmapArgs) : VmmapArgs :=
  mkArgs (pid a) (wide a) (pages a) (interleaved a) (submap a) true
    (noCoalesce a) (summary a) (stacks a) (fullStacks a) (forkCorpse a).
Definition set_noCoalesce (a : VmmapArgs) : VmmapArgs :=
  mkArgs (pid a) (wide a) (pages a) (interleaved a) (submap a) (allSplitLibs a)
    true (summary a) (stacks a) (fullStacks a) (forkCorpse a).
Definition set_summary (a : VmmapArgs) : VmmapArgs :=
  mkArgs (pid a) (wide a) (pages a) (interleaved a) (submap a) (allSplitLibs a)
    (noCoalesce a) true (stacks a) (fullStacks a) (forkCorpse a).
Definition set_stacks (a : VmmapArgs) : VmmapArgs :=
  mkArgs (pid a) (wide a) (pages a) (interleaved a) (submap a) (allSplitLibs a)
    (noCoalesce a) (summary a) true (fullStacks a) (forkCorpse a).
Definition set_fullStacks (a : VmmapArgs) : VmmapArgs :=
  mkArgs (pid a) (wide a) (pages a) (interleaved a) (submap a) (allSplitLibs a)
    (noCoalesce a) (summary a) (stacks a) true (forkCorpse a).
Definition set_forkCorpse (a : VmmapArgs) : VmmapArgs :=
  mkArgs (pid a) (wide a) (pages a) (interleaved a) (submap a) (allSplitLibs a)
    (noCoalesce a) (summary a) (stacks a) (fullStacks a) true.

(** [for (char ch : arg) if (!isdigit(ch)) throw ...]; a character above
    127 is no digit. *)
Fixpoint check_digits (arg : string) : usage_exn + unit :=
  match arg with
  | EmptyString => inr tt
  | String ch rest =>
      if isdigit ch then check_digits rest
      else inl (runtime_error "[invalid usage]: Only PID is supported at the moment.")
  end.

(** The body of the [for] loop of [ParseArgs], on [arg = argv[i]].
    [arg[0]] of an empty [std::string] is the terminating zero. *)
Definition ParseArgs_arg (vmmapArgs : VmmapArgs) (arg : string) : usage_exn + VmmapArgs :=
  if String.eqb arg "-w" || String.eqb arg "-wide" then
    inr (set_wide vmmapArgs)
  else if String.eqb arg "-v" || String.eqb arg "-verbose" then
    inr (set_noCoalesce (set_allSplitLibs (set_submap (set_wide vmmapArgs))))
  else if String.eqb arg "-pages" then
    inr (set_pages vmmapArgs)
  else if String.eqb arg "-interleaved" then
    inr (set_interleaved vmmapArgs)
  else if String.eqb arg "-submap" then
    inr (set_submap vmmapArgs)
  else if String.eqb arg "allSplitLibs" then
    inr (set_allSplitLibs vmmapArgs)
  else if String.eqb arg "-summary" then
    inr (set_summary vmmapArgs)
  else if String.eqb arg "-stacks" then
    inr (set_noCoalesce (set_interleaved (set_stacks vmmapArgs)))
  else if String.eqb arg "-fullStacks" then
    inr (set_noCoalesce (set_interleaved (set_stacks (set_fullStacks vmmapArgs))))
  else if String.eqb arg "-forkCorpse" then
    inr (set_forkCorpse vmmapArgs)
  else if negb (Ascii.eqb (string_at arg 0) "-") then
    match check_digits arg with
    | inl e => inl e
    | inr _ =>
        match stoi arg with
        | inl e => inl (logic_error e)
        | inr v => inr (set_pid v vmmapArgs)
        end
    end
  else
    inl (logic_error (invalid_argument
           ("[invalid usage]: unrecognized option '" +:+ arg +:+ "'"))).

Fixpoint ParseArgs_loop (vmmapArgs : VmmapArgs) (rest : list string) : usage_exn + VmmapArgs :=
  match rest with
  | [] => inr vmmapArgs
  | arg :: rest' =>
      match ParseArgs_arg vmmapArgs arg with
      | inl e => inl e
      | inr vmmapArgs' => ParseArgs_loop vmmapArgs' rest'
      end
  end.

(** [ParseArgs(argc, argv)], with [argv] the [argc] strings of the command
    line; the loop starts at [argv[1]].  [init] is the default-constructed
    [VmmapArgs], whose member initialisers are in args.h. *)
Definition ParseArgs (init : VmmapArgs) (argv : list string) : usage_exn + VmmapArgs :=
  match ParseArgs_loop init (tail argv) with
  | inl e => inl e
  | inr vmmapArgs =>
      if pid vmmapArgs =? -1
      then inl (logic_error (invalid_argument "[invalid usage]: no process specified"))
      else inr vmmapArgs
  end.
(** ** Vocabulary of the specification *)

(** A header line is a line the pattern of [Map] matches. *)
Definition is_header (line : string) : bool :=
  match regex_match line with
  | Some _ => true
  | None => false
  end.

Fixpoint count_headers (lines : list string) : nat :=
  match lines with
  | [] => O
  | line :: rest => ((if is_header line then 1 else 0) + count_headers rest)%nat
  end.

Definition header_count (text : string) : nat := count_headers (getlines text).

(** The records the loop has opened and not yet emitted: none before the
    first header line, one afterwards. *)
Definition pending (st : loop_state) : nat := if firstLine st then 0%nat else 1%nat.

(** [s] is empty or starts with a character that does not satisfy [p]. *)
Definition stops (p : ascii -> bool) (s : string) : Prop :=
  match s with
  | EmptyString => True
  | String c _ => p c = false
  end.

(** The sum of the field [f] over [l]. *)
Definition total (f : VmmapEntry -> Z) (l : list VmmapEntry) : Z :=
  foldr (fun e acc => f e + acc) 0 l.

(** The entries a summary row stands for: those of region type [key]. *)
Definition with_type (key : string) (entries : list VmmapEntry) : list VmmapEntry :=
  List.filter (fun e => String.eqb (VmmapEntry.regionType e) key) entries.

(** The entries a zone row stands for: the MALLOC entries of detail [key]. *)
Definition in_zone (key : string) (entries : list VmmapEntry) : list VmmapEntry :=
  List.filter
    (fun e => VmmapEntry.IsMalloc e && String.eqb (VmmapEntry.regionDetail e) key)
    entries.

Definition purged (state : string) (entries : list VmmapEntry) : list VmmapEntry :=
  List.filter (fun e => String.eqb (VmmapEntry.purge e) state) entries.

(** The row the summaries hold for a non-empty selection [sel]. *)
Definition region_row (key : string) (sel : list VmmapEntry) : VmmapSummaryEntry :=
  VmmapSummaryEntry.mk key
    (wrap64 (total VmmapEntry.vsize sel))
    (wrap64 (total VmmapEntry.rss sel))
    (wrap64 (total VmmapEntry.dirty sel))
    (wrap64 (total VmmapEntry.swap sel))
    (wrap64 (total VmmapEntry.vsize (purged "V" sel)))
    (wrap64 (total VmmapEntry.vsize (purged "N" sel)))
    (wrap64 (total VmmapEntry.vsize (purged "E" sel)))
    (wrap64 (Z.of_nat (length sel))).

Definition zone_row (key : string) (sel : list VmmapEntry) : VmmapSummaryEntry :=
  VmmapSummaryEntry.mk key
    (wrap64 (total VmmapEntry.vsize sel))
    (wrap64 (total VmmapEntry.rss sel))
    (wrap64 (total VmmapEntry.dirty sel))
    (wrap64 (total VmmapEntry.swap sel))
    0 0 0
    (wrap64 (Z.of_nat (length sel))).

Definition row_of (row : string -> list VmmapEntry -> VmmapSummaryEntry)
    (key : string) (sel : list VmmapEntry) : option VmmapSummaryEntry :=
  match sel with
  | [] => None
  | _ :: _ => Some (row key sel)
  end.

(** A MALLOC entry of the zone "DefaultMallocZone" with the given sizes. *)
Definition zone_entry (vsize rss : Z) : VmmapEntry :=
  VmmapEntry.mk "MALLOC" 0 vsize vsize rss 0 0 4096 "rw-" "rwx" "NUL" "" "DefaultMallocZone".

(** What the first loop of the second stage does to one entry. *)
Definition prefixed (entry : VmmapEntry) : VmmapEntry :=
  if is_mapped_file entry
  then VmmapEntry.with_regionDetail (SystemPrefix +:+ VmmapEntry.regionDetail entry) entry
  else entry.

(** Some mapped-file entry of [entries] with backing path [path] has the
    execute bit set. *)
Definition mapped_executable (entries : list VmmapEntry) (path : string) : Prop :=
  exists e, e ∈ entries
            /\ VmmapEntry.regionType e = "mapped file"
            /\ VmmapEntry.regionDetail e = path
            /\ is_executable e = true.

(** A file mapping as the first stage leaves it. *)
Definition file_entry (prt path : string) : VmmapEntry :=
  VmmapEntry.mk "mapped file" 4194304 4198400 4096 4096 0 0 4096 prt "???" "NUL" "" path.

Definition sample_files : list VmmapEntry :=
  [ file_entry "r-x" "/lib/libc.so"; file_entry "rw-" "/lib/libc.so";
    file_entry "r--" "/etc/passwd" ].

(** Every character of [s] satisfies [p]. *)
Fixpoint str_forall (p : ascii -> bool) (s : string) : bool :=
  match s with
  | EmptyString => true
  | String c s' => p c && str_forall p s'
  end.

(** The number a string of decimal digits denotes. *)
Definition decimal (ds : string) : Z := digits_value 10 digit_value 0 ds.

Definition not_space (c : ascii) : bool := negb (isspace c).

Definition privileges_message (pid : Z) : string :=
  "vmmap: vmmap cannot examine process " +:+ to_string pid
  +:+ " because you do not have appropriate privileges to examine it; try running with `sudo`.".

Definition not_running_message (pid : Z) : string :=
  "vmmap: vmmap cannot examine process " +:+ to_string pid
  +:+ " because it no longer appears to be running.".


(** The attribute a detail line records: its label and its value. *)
Definition detail_of (line : string) : option (string * string) :=
  match regex_match line with
  | Some _ => None
  | None =>
      match find_first_of ":" 0 line with
      | Some i =>
          match find_first_not_of " " (S i) line with
          | Some j => Some (take_str i line, drop_str j line)
          | None => None
          end
      | None => None
      end
  end.







(** A small smaps text with well-formed records. *)
Definition plain_text : string :=
  "00400000-00401000 r-xp 00000000 08:01 12345 /bin/true" +:+ nl +:+
  "Size:                  4 kB" +:+ nl +:+
  "KernelPageSize:        4 kB" +:+ nl +:+
  "VmFlags: rd ex mr mw me" +:+ nl +:+
  "00600000-00602000 rw-p 00000000 08:01 12345 /bin/true" +:+ nl +:+
  "Size:                  8 kB" +:+ nl +:+
  "KernelPageSize:        4 kB" +:+ nl +:+
  "VmFlags: rd wr mr mw me" +:+ nl +:+
  "7ffc00000000-7ffc00021000 rw-p 00000000 00:00 0 [stack]" +:+ nl.

Definition plain_entries : list VmmapEntry :=
  [ VmmapEntry.mk "__TEXT" 4194304 4198400 4096 4096 0 0 4096 "r-x" "rwx" "NUL" ""
      "/Volumes/SystemRoot/bin/true";
    VmmapEntry.mk "__DATA" 6291456 6299648 8192 8192 0 0 4096 "rw-" "rwx" "NUL" ""
      "/Volumes/SystemRoot/bin/true" ].


(** Two headers, preceded or not by a detail line that belongs to no record. *)
Definition two_headers : string :=
  "00400000-00401000 r-xp 00000000 08:01 12345 /bin/true" +:+ nl +:+
  "00600000-00601000 rw-p 00000000 08:01 12345 /bin/true" +:+ nl.

Definition stray_text : string := "Size:                  8 kB" +:+ nl +:+ two_headers.



Definition page_ok (hps : Z) (line : string) : bool :=
  match detail_of line with
  | Some (name, v) =>
      if String.eqb name "KernelPageSize" then
        match ParseSize v with
        | inr z => z =? hps
        | inl _ => false
        end
      else true
  | None => true
  end.


(** The percentage of a non-negative total in exact arithmetic, rounded
    to the nearest number: what the floating-point computation of
    [Percent] gives where it is exact. *)
Definition exact_percent (t1 t2 : Z) : option Z :=
  let n := (200 * t1 + t2) / (2 * t2) in
  if (INT_MIN <=? n) && (n <=? INT_MAX) then Some n else None.

(** The options of a plain run: none set. *)
Definition plain_args : VmmapArgs :=
  mkArgs 4242 false false false false false false false false false false.

(** The same with -pages. *)
Definition pages_args : VmmapArgs :=
  mkArgs 4242 false true false false false false false false false false.

(** Past the first colon, at index [i], the line has nothing but spaces. *)
Definition blank_after (i : nat) (line : string) : Prop :=
  forall j c, (i < j)%nat -> String.get j line = Some c -> c = " "%char.

(** A stream on which a failed extraction has also met the end, as every
    stream that starts from [stringstream] is. *)
Definition stream_ok (ss : sstream) : Prop := failbit ss = true -> eofbit ss = true.

(** ** Vocabulary of the further properties *)

(** The labels the first stage can give, and those [Map] can return. *)
Definition first_stage_label (s : string) : Prop :=
  s = "VM_ALLOCATE" \/ s = "mapped file" \/ s = "MALLOC" \/ s = "Stack".

Definition final_label (s : string) : Prop :=
  first_stage_label s \/ s = "__TEXT" \/ s = "__DATA".

(** A line of the minimal form: a header line, or a line without a colon. *)
Definition minimal_line (line : string) : bool :=
  is_header line || negb (contains_char ":" line).

(** What an entry is when its record carried no attribute at all. *)
Definition bare_entry (hps : Z) (e : VmmapEntry) : Prop :=
  VmmapEntry.vsize e = wrap64 (VmmapEntry.endAddress e - VmmapEntry.startAddress e)
  /\ VmmapEntry.rss e = VmmapEntry.vsize e
  /\ VmmapEntry.dirty e = 0
  /\ VmmapEntry.swap e = 0
  /\ VmmapEntry.pageSize e = wrap64 hps
  /\ VmmapEntry.max e = "???".

(** A MALLOC entry carries the heap marker as its detail. *)
Definition heap_labelled (e : VmmapEntry) : Prop :=
  VmmapEntry.regionType e = "MALLOC" -> VmmapEntry.regionDetail e = "HEAP".

(** A text whose second record has no Size line of its own. *)
Definition inherit_text : string :=
  "00400000-00401000 r-xp 00000000 08:01 12345 /bin/true" +:+ nl +:+
  "Size:                 64 kB" +:+ nl +:+
  "00600000-00601000 rw-p 00000000 08:01 12345 /bin/true" +:+ nl +:+
  "Rss:                   4 kB" +:+ nl +:+
  "7ffc00000000-7ffc00021000 rw-p 00000000 00:00 0 [stack]" +:+ nl.

(** A text of the minimal form, with a heap and a thread stack. *)
Definition maps_text : string :=
  "00400000-00401000 r-xp 00000000 08:01 12345 /bin/true" +:+ nl +:+
  "01000000-01021000 rw-p 00000000 00:00 0 HEAP" +:+ nl +:+
  "7f0000000000-7f0000800000 rw-p 00000000 00:00 0 [stack:7]" +:+ nl +:+
  "7ffc00000000-7ffc00021000 rw-p 00000000 00:00 0 [stack]" +:+ nl.

Definition maps_entries : list VmmapEntry :=
  [ VmmapEntry.mk "__TEXT" 4194304 4198400 4096 4096 0 0 4096 "r-x" "???" "NUL" ""
      "/Volumes/SystemRoot/bin/true";
    VmmapEntry.mk "MALLOC" 16777216 16912384 135168 135168 0 0 4096 "rw-" "???" "NUL" ""
      "HEAP";
    VmmapEntry.mk "Stack" 139637976727552 139637985116160 8388608 8388608 0 0 4096
      "rw-" "???" "NUL" "" "thread 7" ].

(** The text a list of lines came from: the lines with a newline between
    each two. *)
Fixpoint join_lines (lines : list string) : string :=
  match lines with
  | [] => EmptyString
  | [line] => line
  | line :: rest => line +:+ nl +:+ join_lines rest
  end.

Definition not_newline (c : ascii) : bool := negb (Ascii.eqb c "010").

Fixpoint count_newlines (text : string) : nat :=
  match text with
  | EmptyString => O
  | String c text' => ((if Ascii.eqb c "010" then 1 else 0) + count_newlines text')%nat
  end.

(** The line a pattern matches when its stars take the texts [gs]: the
    literals and the texts in order, provided each text stays inside the
    class of its star. *)
Fixpoint regex_build (p : list regex_item) (gs : list string) : option string :=
  match p with
  | [] => match gs with [] => Some EmptyString | _ :: _ => None end
  | Lit c :: p' => String c <$> regex_build p' gs
  | Star cls :: p' =>
      match gs with
      | g :: gs' =>
          if str_forall cls g then String.append g <$> regex_build p' gs' else None
      | [] => None
      end
  end.

(** The write slot of the protection, as [PrintSummary] tests it. *)
Definition write_slot (e : VmmapEntry) : bool :=
  Ascii.eqb (string_at (VmmapEntry.prt e) WRITE_INDEX) "w".

(** The entries the two totals of [PrintSummary] are taken over. *)
Definition summary_writable (entries : list VmmapEntry) : list VmmapEntry :=
  List.filter write_slot entries.

Definition summary_readonly (entries : list VmmapEntry) : list VmmapEntry :=
  List.filter
    (fun e => negb (write_slot e) && String.eqb (VmmapEntry.regionType e) "__TEXT")
    entries.


(** Some argument after the program name is one of [names]. *)
Definition given (names : list string) (argv : list string) : bool :=
  existsb (fun arg => existsb (String.eqb arg) names) (tail argv).

(** The spellings [ParseArgs] takes for an option. *)
Definition option_names : list string :=
  ["-w"; "-wide"; "-v"; "-verbose"; "-pages"; "-interleaved"; "-submap";
   "allSplitLibs"; "-summary"; "-stacks"; "-fullStacks"; "-forkCorpse"].

Definition is_option (arg : string) : bool := existsb (String.eqb arg) option_names.

(** A process id on the command line: decimal digits, at least one, of an
    [int]. *)
Definition is_pid (arg : string) : bool :=
  negb (is_empty arg) && str_forall isdigit arg && (decimal arg <=? INT_MAX).

(** The last process id of the command line, if it has one. *)
Definition last_pid (argv : list string) : option Z :=
  decimal <$> last (filter (fun arg => is_pid arg = true) (tail argv)).

(** Arguments with no flag set and the process id -1 that [ParseArgs]
    takes for no process. *)
Definition no_args : VmmapArgs :=
  mkArgs (-1) false false false false false false false false false false.

(** Each flag of [a] is on when it was on in [init] or when [on] holds of
    one of the spellings that set it. *)
Definition flags_from (init : VmmapArgs) (on : list string -> bool) (a : VmmapArgs) : Prop :=
  wide a = wide init || on ["-w"; "-wide"; "-v"; "-verbose"]
  /\ pages a = pages init || on ["-pages"]
  /\ interleaved a = interleaved init || on ["-interleaved"; "-stacks"; "-fullStacks"]
  /\ submap a = submap init || on ["-submap"; "-v"; "-verbose"]
  /\ allSplitLibs a = allSplitLibs init || on ["allSplitLibs"; "-v"; "-verbose"]
  /\ noCoalesce a = noCoalesce init || on ["-v"; "-verbose"; "-stacks"; "-fullStacks"]
  /\ summary a = summary init || on ["-summary"]
  /\ stacks a = stacks init || on ["-stacks"; "-fullStacks"]
  /\ fullStacks a = fullStacks init || on ["-fullStacks"]
  /\ forkCorpse a = forkCorpse init || on ["-forkCorpse"].

(** What [ParseArgs] throws for an argument that is neither an option nor
    a process id. *)
Definition usage_error (arg : string) : usage_exn :=
  if Ascii.eqb (string_at arg 0) "-" then
    logic_error (invalid_argument ("[invalid usage]: unrecognized option '" +:+ arg +:+ "'"))
  else if negb (str_forall isdigit arg) then
    runtime_error "[invalid usage]: Only PID is supported at the moment."
  else if is_empty arg then logic_error (invalid_argument "stoi")
  else logic_error (out_of_range "stoi").

(** The words of a text, in order: its maximal runs of characters that are
    not white space.  [inword] says that the character before [s] belongs
    to a word already listed. *)
Fixpoint words_of (inword : bool) (s : string) : list string :=
  match s with
  | EmptyString => []
  | String c s' =>
      if isspace c then words_of false s'
      else if inword then words_of true s'
      else String c (fst (span not_space s')) :: words_of true s'
  end.

(** The text is empty or ends in white space. *)
Fixpoint ends_blank (s : string) : bool :=
  match s with
  | EmptyString => true
  | String c s' => if is_empty s' then isspace c else ends_blank s'
  end.

(** One letter of the maximal protection: [c] when the VmFlags text has
    the word [name]. *)
Definition may (name : string) (c : ascii) (flags : string) : ascii :=
  if bool_decide (name ∈ words_of false flags) then c else "-"%char.

(** The current protection of an emitted entry: the unknown marker, or up
    to three of the permission letters of a header line. *)
Definition prt_shape (p : string) : Prop :=
  p = "???"
  \/ ((0 < String.length p <= 3)%nat /\ str_forall cls_perm p = true).

(** The maximal protection of an emitted entry: the unknown marker, or
    the three letters read off some VmFlags text. *)
Definition max_shape (m : string) : Prop :=
  m = "???"
  \/ exists flags,
       m = String (may "mr" "r" flags)
             (String (may "mw" "w" flags) (String (may "me" "x" flags) EmptyString)).

(** A text whose two records carry VmFlags, the first with the white
    space that ends the line in smaps. *)
Definition flags_text : string :=
  "00400000-00401000 r-xp 00000000 08:01 12345 /bin/true" +:+ nl +:+
  "VmFlags: rd ex mr me " +:+ nl +:+
  "00600000-00601000 rw-p 00000000 08:01 12345 /bin/true" +:+ nl +:+
  "VmFlags: rd wr mr mw me ac" +:+ nl +:+
  "7ffc00000000-7ffc00021000 rw-p 00000000 00:00 0 [stack]" +:+ nl.
(** * Properties *)


Example ParseSize_4kB : ParseSize "4 kB" = inr 4096.
Proof. reflexivity. Qed.

Example ParseSize_1MB : ParseSize "1 MB" = inr 1048576.
Proof. reflexivity. Qed.

Example ParseSize_4xB :
  ParseSize "4 xB" = inl (invalid_argument "vmmap: Failed to parse size: 4 xB").
Proof. reflexivity. Qed.

Example regex_match_bin_true :
  regex_match "00400000-00401000 r-xp 00000000 08:01 12345 /bin/true"
  = Some (mkMatch "00400000" "00401000" "r-xp" "00000000" "08" "01" "12345" "/bin/true").
Proof. reflexivity. Qed.

Example regex_match_detail : regex_match "Size:                  4 kB" = None.
Proof. reflexivity. Qed.

Example Map_text_two_headers :
  Map_text 4096
    ("00400000-00401000 r-xp 00000000 08:01 12345 /bin/true" +:+ nl +:+
     "Size:                  8 kB" +:+ nl +:+
     "VmFlags: rd ex mr mw me" +:+ nl +:+
     "00600000-00601000 rw-p 00000000 08:01 12345 /bin/true" +:+ nl)
  = inr [ VmmapEntry.mk "__TEXT" 4194304 4198400 8192 8192 0 0 4096 "r-x" "rwx"
            "NUL" "" "/Volumes/SystemRoot/bin/true" ].
Proof. vm_compute. reflexivity. Qed.

(** ** The result monad *)

Lemma bind_inr {A B : Type} (m : result A) (k : A -> result B) (b : B) :
  bind m k = inr b -> exists a, m = inr a /\ k a = inr b.
Proof.
  destruct m as [e | a]; simpl; intros H.
  - discriminate.
  - exists a. split; [reflexivity | exact H].
Qed.

Lemma bind_inl {A B : Type} (m : result A) (k : A -> result B) (e : exn) :
  bind m k = inl e -> m = inl e \/ exists a, m = inr a /\ k a = inl e.
Proof.
  destruct m as [e' | a]; simpl; intros H.
  - left. injection H as ->. reflexivity.
  - right. exists a. split; [reflexivity | exact H].
Qed.

(** ** The reading loop: how many entries it emits *)

(** The header pattern is unfolded last when two terms are compared. *)
Strategy 100 [regex_match regex_run].
Arguments regex_match : simpl never.
Arguments ParseSize : simpl never.
Arguments LinuxToVmmap : simpl never.
Arguments Map_line : simpl never.
Arguments MakeTagSet : simpl never.

Lemma Map_loop_nil hps st : Map_loop hps st [] = inr st.
Proof. reflexivity. Qed.

Lemma Map_loop_cons hps st line rest :
  Map_loop hps st (line :: rest)
  = bind (Map_line hps st line) (fun st' => Map_loop hps st' rest).
Proof. reflexivity. Qed.

Lemma Map_loop_invariant hps (I : loop_state -> Prop) lines :
  (forall st line st', line ∈ lines -> I st -> Map_line hps st line = inr st' -> I st') ->
  forall st st', I st -> Map_loop hps st lines = inr st' -> I st'.
Proof.
  induction lines as [| line rest IH]; intros Hstep st st' HI H.
  - rewrite Map_loop_nil in H. injection H as <-. exact HI.
  - rewrite Map_loop_cons in H. apply bind_inr in H. destruct H as (st1 & H1 & H).
    apply (IH (fun s l s' Hl => Hstep s l s' (list_elem_of_further _ _ _ Hl)) st1 st').
    + apply (Hstep st line st1); [left | exact HI | exact H1].
    + exact H.
Qed.

(** The two ways a loop round can return. *)
Lemma Map_line_inr hps st line st' :
  Map_line hps st line = inr st' ->
  (exists results a b off,
      regex_match line = Some results
      /\ stoull16 (m1 results) = inr a /\ stoull16 (m2 results) = inr b
      /\ stoull16 (m4 results) = inr off
      /\ firstLine st' = false
      /\ currentLinuxEntry st'
         = LinuxEntry.mk (to_intptr a) (to_intptr b) (m3 results) (to_intptr off)
             (m5 results +:+ ":" +:+ m6 results) (m7 results) (m8 results)
             (LinuxEntry.tags (currentLinuxEntry st))
      /\ ((firstLine st = true /\ entries st' = entries st)
          \/ (firstLine st = false
              /\ exists e, LinuxToVmmap hps (currentLinuxEntry st) = inr e
                           /\ entries st' = entries st ++ [e])))
  \/ (regex_match line = None
      /\ firstLine st' = firstLine st /\ entries st' = entries st
      /\ ((find_first_of ":" 0 line = None /\ currentLinuxEntry st' = currentLinuxEntry st)
          \/ exists i j,
               find_first_of ":" 0 line = Some i
               /\ find_first_not_of " " (S i) line = Some j
               /\ currentLinuxEntry st'
                  = set_tag (take_str i line) (drop_str j line) (currentLinuxEntry st))).
Proof.
  unfold Map_line. destruct (regex_match line) as [results |].
  - intros H. left.
    apply bind_inr in H. destruct H as (es' & Hes & H).
    apply bind_inr in H. destruct H as (a & Ha & H).
    apply bind_inr in H. destruct H as (b & Hb & H).
    apply bind_inr in H. destruct H as (off & Hoff & H).
    injection H as <-. exists results, a, b, off. cbn [firstLine currentLinuxEntry entries].
    repeat (split; [reflexivity || assumption |]).
    destruct (firstLine st).
    + left. injection Hes as <-. split; reflexivity.
    + right. split; [reflexivity |].
      apply bind_inr in Hes. destruct Hes as (e & He & Hes). injection Hes as <-.
      exists e. split; [exact He | reflexivity].
  - intros H. right. split; [reflexivity |].
    destruct (find_first_of ":" 0 line) as [i |].
    + apply bind_inr in H. destruct H as (name & Hname & H).
      apply bind_inr in H. destruct H as (value & Hvalue & H).
      injection H as <-. cbn [firstLine currentLinuxEntry entries].
      split; [reflexivity |]. split; [reflexivity |]. right.
      unfold substr in Hname, Hvalue.
      destruct (find_first_not_of " " (S i) line) as [j |] eqn:Hj; [| discriminate].
      exists i, j.
      destruct (0 <=? String.length line)%nat; [| discriminate].
      destruct (j <=? String.length line)%nat; [| discriminate].
      injection Hname as <-. injection Hvalue as <-.
      repeat split. exact Hj.
    + injection H as <-. repeat split. left. split; reflexivity.
Qed.

Lemma Map_line_count hps st line st' :
  Map_line hps st line = inr st' ->
  (length (entries st') + pending st'
   = length (entries st) + pending st + (if is_header line then 1 else 0))%nat.
Proof.
  intros H. apply Map_line_inr in H. unfold is_header, pending.
  destruct H as [(results & a & b & off & -> & _ & _ & _ & -> & _ & Hes)
                | (-> & -> & -> & _)].
  - destruct Hes as [[-> ->] | (-> & e & _ & ->)].
    + lia.
    + rewrite length_app. cbn [length]. lia.
  - lia.
Qed.

Lemma Map_loop_count hps lines : forall st st',
  Map_loop hps st lines = inr st' ->
  (length (entries st') + pending st'
   = length (entries st) + pending st + count_headers lines)%nat.
Proof.
  induction lines as [| line rest IH]; intros st st' H.
  - rewrite Map_loop_nil in H. injection H as <-. cbn [count_headers]. lia.
  - rewrite Map_loop_cons in H. apply bind_inr in H. destruct H as (st1 & H1 & H).
    apply Map_line_count in H1. apply IH in H. cbn [count_headers]. lia.
Qed.

(** As long as no header line was read, nothing was emitted. *)
Lemma Map_loop_first hps lines st st' :
  firstLine st = true -> entries st = [] ->
  Map_loop hps st lines = inr st' ->
  firstLine st' = true -> entries st' = [].
Proof.
  intros Hf He Hloop.
  apply (Map_loop_invariant hps (fun s => firstLine s = true -> entries s = []) lines)
    with (st := st); [| intros _; exact He | exact Hloop].
  clear. intros st line st' _ HI Hline Hf'. apply Map_line_inr in Hline.
  destruct Hline as [(results & a & b & off & _ & _ & _ & _ & Hf & _)
                    | (_ & Hf & -> & _)].
  - congruence.
  - apply HI. congruence.
Qed.

Lemma prefix_pass_length entries : forall files,
  length (fst (prefix_pass entries files)) = length entries.
Proof.
  induction entries as [| e rest IH]; intros files; simpl.
  - reflexivity.
  - destruct (is_mapped_file e).
    + match goal with |- context [prefix_pass rest ?f] =>
        specialize (IH f); destruct (prefix_pass rest f) end.
      simpl in *. lia.
    + specialize (IH files). destruct (prefix_pass rest files). simpl in *. lia.
Qed.

Lemma classify_files_length entries :
  length (classify_files entries) = length entries.
Proof.
  unfold classify_files.
  pose proof (prefix_pass_length entries ∅) as H.
  destruct (prefix_pass entries ∅) as [es files]. simpl in H.
  rewrite length_fmap. exact H.
Qed.

(** C1.  The reading loop emits an accumulator only when the next header
    line arrives and never after the last line, so a run that returns has
    emitted one entry fewer than the text has header lines: the record of
    the last header line is not emitted.  The specification asks for one
    entry per header line. *)
Theorem Map_text_drops_last_record hps text es :
  Map_text hps text = inr es ->
  length es = Nat.pred (header_count text).
Proof.
  unfold Map_text, header_count. intros H.
  apply bind_inr in H. destruct H as (st' & Hloop & H). injection H as <-.
  rewrite classify_files_length.
  pose proof (Map_loop_count _ _ _ _ Hloop) as Hc.
  unfold pending in Hc. cbn [loop_init firstLine entries length] in Hc.
  destruct (firstLine st') eqn:Hf.
  - rewrite (Map_loop_first hps _ loop_init st' eq_refl eq_refl Hloop Hf) in *.
    cbn [length] in *. lia.
  - lia.
Qed.

Lemma Map_text_drops_last_record_witness :
  Map_text 4096 "00400000-00401000 r-xp 00000000 08:01 12345 /bin/true" = inr []
  /\ header_count "00400000-00401000 r-xp 00000000 08:01 12345 /bin/true" = 1%nat
  /\ length (@nil VmmapEntry) = Nat.pred 1.
Proof.
  assert (H : Map_text 4096 "00400000-00401000 r-xp 00000000 08:01 12345 /bin/true" = inr [])
    by (vm_compute; reflexivity).
  split; [exact H |].
  split; [vm_compute; reflexivity |].
  exact (Map_text_drops_last_record 4096 _ [] H).
Defined.

(** ** The summaries *)

Lemma wrap64_small z : 0 <= z <= SIZE_MAX -> wrap64 z = z.
Proof. unfold wrap64, SIZE_MAX. intros H. apply Z.mod_small. lia. Qed.

Lemma add64_wrap_l a b : add64 (wrap64 a) b = wrap64 (a + b).
Proof. unfold add64, wrap64. apply Zplus_mod_idemp_l. Qed.

Lemma add64_0_l b : add64 0 b = wrap64 (0 + b).
Proof. reflexivity. Qed.

Lemma total_app f l1 l2 : total f (l1 ++ l2) = total f l1 + total f l2.
Proof.
  induction l1 as [| e l1 IH]; simpl.
  - reflexivity.
  - rewrite IH. lia.
Qed.

Lemma total_Permutation f l1 l2 : Permutation l1 l2 -> total f l1 = total f l2.
Proof.
  induction 1 as [| x l l' _ IH | x y l | l l' l'' _ IH1 _ IH2]; simpl.
  - reflexivity.
  - rewrite IH. reflexivity.
  - lia.
  - congruence.
Qed.

Lemma filter_Permutation (p : VmmapEntry -> bool) l1 l2 :
  Permutation l1 l2 -> Permutation (List.filter p l1) (List.filter p l2).
Proof.
  induction 1 as [| x l l' _ IH | x y l | l l' l'' _ IH1 _ IH2]; simpl.
  - constructor.
  - destruct (p x); [constructor |]; exact IH.
  - destruct (p x), (p y); try reflexivity. constructor.
  - etransitivity; eassumption.
Qed.

Lemma row_of_Permutation row key sel sel' :
  (forall l l', Permutation l l' -> row key l = row key l') ->
  Permutation sel sel' -> row_of row key sel = row_of row key sel'.
Proof.
  intros Hrow Hp. unfold row_of.
  destruct sel as [| x sel], sel' as [| y sel'].
  - reflexivity.
  - apply Permutation_nil in Hp. discriminate.
  - symmetry in Hp. apply Permutation_nil in Hp. discriminate.
  - f_equal. apply Hrow. exact Hp.
Qed.

Lemma region_row_Permutation key l l' :
  Permutation l l' -> region_row key l = region_row key l'.
Proof.
  intros Hp. unfold region_row, purged.
  rewrite (total_Permutation VmmapEntry.vsize _ _ Hp),
          (total_Permutation VmmapEntry.rss _ _ Hp),
          (total_Permutation VmmapEntry.dirty _ _ Hp),
          (total_Permutation VmmapEntry.swap _ _ Hp),
          (Permutation_length Hp).
  rewrite (total_Permutation VmmapEntry.vsize _ _ (filter_Permutation (fun e => String.eqb (VmmapEntry.purge e) "V") _ _ Hp)).
  rewrite (total_Permutation VmmapEntry.vsize _ _ (filter_Permutation (fun e => String.eqb (VmmapEntry.purge e) "N") _ _ Hp)).
  rewrite (total_Permutation VmmapEntry.vsize _ _ (filter_Permutation (fun e => String.eqb (VmmapEntry.purge e) "E") _ _ Hp)).
  reflexivity.
Qed.

Lemma zone_row_Permutation key l l' :
  Permutation l l' -> zone_row key l = zone_row key l'.
Proof.
  intros Hp. unfold zone_row.
  rewrite (total_Permutation VmmapEntry.vsize _ _ Hp),
          (total_Permutation VmmapEntry.rss _ _ Hp),
          (total_Permutation VmmapEntry.dirty _ _ Hp),
          (total_Permutation VmmapEntry.swap _ _ Hp),
          (Permutation_length Hp).
  reflexivity.
Qed.

Lemma summary_regions_snoc entries e :
  summary_regions (entries ++ [e]) = add_region (summary_regions entries) e.
Proof. unfold summary_regions. rewrite fold_left_app. reflexivity. Qed.

Lemma malloc_zones_snoc entries e :
  malloc_zones (entries ++ [e]) = add_zone (malloc_zones entries) e.
Proof. unfold malloc_zones. rewrite fold_left_app. reflexivity. Qed.

Lemma purged_snoc state sel e :
  purged state (sel ++ [e])
  = purged state sel ++ (if String.eqb (VmmapEntry.purge e) state then [e] else []).
Proof. unfold purged. rewrite List.filter_app. reflexivity. Qed.

Lemma total_one f e : total f [e] = f e.
Proof. simpl. lia. Qed.

Arguments wrap64 : simpl never.
Arguments add64 : simpl never.
Arguments mul64 : simpl never.
Arguments to_intptr : simpl never.

Lemma wrap64_0 : wrap64 0 = 0.
Proof. reflexivity. Qed.

(** The accumulator a loop round starts from: the row so far, or the
    default-initialised one, whose sums are those of no entry. *)
Lemma default_region_row key sel :
  let cur := default VmmapSummaryEntry.init (row_of region_row key sel) in
  VmmapSummaryEntry.vsize cur = wrap64 (total VmmapEntry.vsize sel)
  /\ VmmapSummaryEntry.rss cur = wrap64 (total VmmapEntry.rss sel)
  /\ VmmapSummaryEntry.dirty cur = wrap64 (total VmmapEntry.dirty sel)
  /\ VmmapSummaryEntry.swap cur = wrap64 (total VmmapEntry.swap sel)
  /\ VmmapSummaryEntry.vol cur = wrap64 (total VmmapEntry.vsize (purged "V" sel))
  /\ VmmapSummaryEntry.nonvol cur = wrap64 (total VmmapEntry.vsize (purged "N" sel))
  /\ VmmapSummaryEntry.empty cur = wrap64 (total VmmapEntry.vsize (purged "E" sel))
  /\ VmmapSummaryEntry.regionCount cur = wrap64 (Z.of_nat (length sel)).
Proof.
  destruct sel as [| x sel].
  - cbn. rewrite wrap64_0. repeat split.
  - cbn -[wrap64 total purged]. repeat split.
Qed.

Lemma default_zone_row key sel :
  let cur := default VmmapSummaryEntry.init (row_of zone_row key sel) in
  VmmapSummaryEntry.vsize cur = wrap64 (total VmmapEntry.vsize sel)
  /\ VmmapSummaryEntry.rss cur = wrap64 (total VmmapEntry.rss sel)
  /\ VmmapSummaryEntry.dirty cur = wrap64 (total VmmapEntry.dirty sel)
  /\ VmmapSummaryEntry.swap cur = wrap64 (total VmmapEntry.swap sel)
  /\ VmmapSummaryEntry.vol cur = 0
  /\ VmmapSummaryEntry.nonvol cur = 0
  /\ VmmapSummaryEntry.empty cur = 0
  /\ VmmapSummaryEntry.regionCount cur = wrap64 (Z.of_nat (length sel)).
Proof.
  destruct sel as [| x sel].
  - cbn. rewrite wrap64_0. repeat split.
  - cbn -[wrap64 total]. repeat split.
Qed.

Lemma purged_step state sel e f :
  (if String.eqb (VmmapEntry.purge e) state
   then add64 (wrap64 (total f (purged state sel))) (f e)
   else wrap64 (total f (purged state sel)))
  = wrap64 (total f (purged state (sel ++ [e]))).
Proof.
  rewrite purged_snoc, total_app.
  destruct (String.eqb (VmmapEntry.purge e) state).
  - rewrite add64_wrap_l, total_one. reflexivity.
  - cbn [total foldr]. rewrite Z.add_0_r. reflexivity.
Qed.

Lemma count_step sel (e : VmmapEntry) :
  add64 (wrap64 (Z.of_nat (length sel))) 1 = wrap64 (Z.of_nat (length (sel ++ [e]))).
Proof.
  rewrite add64_wrap_l, length_app, Nat2Z.inj_add. reflexivity.
Qed.

Lemma total_step f sel e :
  add64 (wrap64 (total f sel)) (f e) = wrap64 (total f (sel ++ [e])).
Proof. rewrite add64_wrap_l, total_app, total_one. reflexivity. Qed.

(** The row after one more entry of its key. *)
Lemma region_row_step key sel e :
  VmmapEntry.regionType e = key ->
  let cur := default VmmapSummaryEntry.init (row_of region_row key sel) in
  VmmapSummaryEntry.mk (VmmapEntry.regionType e)
    (add64 (VmmapSummaryEntry.vsize cur) (VmmapEntry.vsize e))
    (add64 (VmmapSummaryEntry.rss cur) (VmmapEntry.rss e))
    (add64 (VmmapSummaryEntry.dirty cur) (VmmapEntry.dirty e))
    (add64 (VmmapSummaryEntry.swap cur) (VmmapEntry.swap e))
    (if String.eqb (VmmapEntry.purge e) "V"
     then add64 (VmmapSummaryEntry.vol cur) (VmmapEntry.vsize e)
     else VmmapSummaryEntry.vol cur)
    (if String.eqb (VmmapEntry.purge e) "N"
     then add64 (VmmapSummaryEntry.nonvol cur) (VmmapEntry.vsize e)
     else VmmapSummaryEntry.nonvol cur)
    (if String.eqb (VmmapEntry.purge e) "E"
     then add64 (VmmapSummaryEntry.empty cur) (VmmapEntry.vsize e)
     else VmmapSummaryEntry.empty cur)
    (add64 (VmmapSummaryEntry.regionCount cur) 1)
  = region_row key (sel ++ [e]).
Proof.
  intros Hk cur.
  destruct (default_region_row key sel) as (H1 & H2 & H3 & H4 & H5 & H6 & H7 & H8).
  fold cur in H1, H2, H3, H4, H5, H6, H7, H8.
  rewrite H1, H2, H3, H4, H5, H6, H7, H8, Hk.
  rewrite !(purged_step _ _ _ VmmapEntry.vsize), !total_step, (count_step sel e).
  reflexivity.
Qed.

Lemma zone_row_step key sel e :
  VmmapEntry.regionDetail e = key ->
  let cur := default VmmapSummaryEntry.init (row_of zone_row key sel) in
  VmmapSummaryEntry.mk (VmmapEntry.regionDetail e)
    (add64 (VmmapSummaryEntry.vsize cur) (VmmapEntry.vsize e))
    (add64 (VmmapSummaryEntry.rss cur) (VmmapEntry.rss e))
    (add64 (VmmapSummaryEntry.dirty cur) (VmmapEntry.dirty e))
    (add64 (VmmapSummaryEntry.swap cur) (VmmapEntry.swap e))
    (VmmapSummaryEntry.vol cur)
    (VmmapSummaryEntry.nonvol cur)
    (VmmapSummaryEntry.empty cur)
    (add64 (VmmapSummaryEntry.regionCount cur) 1)
  = zone_row key (sel ++ [e]).
Proof.
  intros Hk cur.
  destruct (default_zone_row key sel) as (H1 & H2 & H3 & H4 & H5 & H6 & H7 & H8).
  fold cur in H1, H2, H3, H4, H5, H6, H7, H8.
  rewrite H1, H2, H3, H4, H5, H6, H7, H8, Hk.
  rewrite !total_step, (count_step sel e).
  reflexivity.
Qed.

Lemma row_of_snoc row key sel (e : VmmapEntry) :
  row_of row key (sel ++ [e]) = Some (row key (sel ++ [e])).
Proof. destruct sel; reflexivity. Qed.

(** What [regions] holds under every key after the loop. *)
Lemma summary_regions_lookup entries key :
  summary_regions entries !! key = row_of region_row key (with_type key entries).
Proof.
  induction entries as [| e entries IH] using rev_ind.
  - reflexivity.
  - rewrite summary_regions_snoc. unfold add_region.
    unfold with_type in *. rewrite List.filter_app. cbn [List.filter].
    destruct (String.eqb_spec (VmmapEntry.regionType e) key) as [Hk | Hk].
    + subst key. rewrite lookup_insert_eq, row_of_snoc. f_equal.
      rewrite IH. apply region_row_step. reflexivity.
    + rewrite lookup_insert_ne by exact Hk. rewrite app_nil_r. exact IH.
Qed.

(** What [mallocZones] holds under every key after the loop. *)
Lemma malloc_zones_lookup entries key :
  malloc_zones entries !! key = row_of zone_row key (in_zone key entries).
Proof.
  induction entries as [| e entries IH] using rev_ind.
  - reflexivity.
  - rewrite malloc_zones_snoc. unfold add_zone.
    unfold in_zone in *. rewrite List.filter_app. cbn [List.filter].
    destruct (VmmapEntry.IsMalloc e); cbn [andb].
    + destruct (String.eqb_spec (VmmapEntry.regionDetail e) key) as [Hk | Hk].
      * subst key. rewrite lookup_insert_eq, row_of_snoc. f_equal.
        rewrite IH. apply zone_row_step. reflexivity.
      * rewrite lookup_insert_ne by exact Hk. rewrite app_nil_r. exact IH.
    + rewrite app_nil_r. exact IH.
Qed.

Lemma row_of_Some row key sel b :
  row_of row key sel = Some b -> sel <> [] /\ b = row key sel.
Proof.
  destruct sel; simpl; intros H.
  - discriminate.
  - injection H as <-. split; [discriminate | reflexivity].
Qed.

Lemma row_of_is_Some row key sel : is_Some (row_of row key sel) <-> sel <> [].
Proof.
  destruct sel; simpl; split; intros H.
  - destruct H as [x H]. discriminate.
  - congruence.
  - discriminate.
  - eexists. reflexivity.
Qed.

Lemma summary_regions_Permutation entries entries' :
  Permutation entries entries' -> summary_regions entries' = summary_regions entries.
Proof.
  intros Hp. apply map_eq. intros key. rewrite !summary_regions_lookup.
  apply row_of_Permutation.
  - apply region_row_Permutation.
  - unfold with_type. apply filter_Permutation. symmetry. exact Hp.
Qed.

Lemma malloc_zones_Permutation entries entries' :
  Permutation entries entries' -> malloc_zones entries' = malloc_zones entries.
Proof.
  intros Hp. apply map_eq. intros key. rewrite !malloc_zones_lookup.
  apply row_of_Permutation.
  - apply zone_row_Permutation.
  - unfold in_zone. apply filter_Permutation. symmetry. exact Hp.
Qed.

(** C2.  Aggregation invariant.  For every entry list and key: a row of
    the whole-process summary (grouping by regionType) and a row of the
    zone summary (grouping the MALLOC entries by regionDetail) exists
    exactly when some entry has that key, and its vsize, rss, dirty and
    swap are the sums of that field over exactly the entries of the key,
    its regionCount their number, all in [size_t] arithmetic (which is
    the plain sum whenever that fits a [size_t]).  Both maps are the same
    for every permutation of the entries.  Two MALLOC entries of zone
    "DefaultMallocZone" with sizes 100 and 200 give the zone row vsize 300
    and count 2. *)
Theorem aggregation_invariant (entries : list VmmapEntry) (key : string)
    (b : VmmapSummaryEntry) :
  (summary_regions entries !! key = Some b ->
     with_type key entries <> []
     /\ VmmapSummaryEntry.vsize b = wrap64 (total VmmapEntry.vsize (with_type key entries))
     /\ VmmapSummaryEntry.rss b = wrap64 (total VmmapEntry.rss (with_type key entries))
     /\ VmmapSummaryEntry.dirty b = wrap64 (total VmmapEntry.dirty (with_type key entries))
     /\ VmmapSummaryEntry.swap b = wrap64 (total VmmapEntry.swap (with_type key entries))
     /\ VmmapSummaryEntry.regionCount b = wrap64 (Z.of_nat (length (with_type key entries))))
  /\ (malloc_zones entries !! key = Some b ->
     in_zone key entries <> []
     /\ VmmapSummaryEntry.vsize b = wrap64 (total VmmapEntry.vsize (in_zone key entries))
     /\ VmmapSummaryEntry.rss b = wrap64 (total VmmapEntry.rss (in_zone key entries))
     /\ VmmapSummaryEntry.dirty b = wrap64 (total VmmapEntry.dirty (in_zone key entries))
     /\ VmmapSummaryEntry.swap b = wrap64 (total VmmapEntry.swap (in_zone key entries))
     /\ VmmapSummaryEntry.regionCount b = wrap64 (Z.of_nat (length (in_zone key entries))))
  /\ (is_Some (summary_regions entries !! key) <-> with_type key entries <> [])
  /\ (is_Some (malloc_zones entries !! key) <-> in_zone key entries <> [])
  /\ (forall entries', Permutation entries entries' ->
        summary_regions entries' = summary_regions entries
        /\ malloc_zones entries' = malloc_zones entries)
  /\ (forall z, 0 <= z <= SIZE_MAX -> wrap64 z = z)
  /\ (forall e1 e2,
        VmmapEntry.regionType e1 = "MALLOC" -> VmmapEntry.regionType e2 = "MALLOC" ->
        VmmapEntry.regionDetail e1 = "DefaultMallocZone" ->
        VmmapEntry.regionDetail e2 = "DefaultMallocZone" ->
        VmmapEntry.vsize e1 = 100 -> VmmapEntry.vsize e2 = 200 ->
        exists z, malloc_zones [e1; e2] !! "DefaultMallocZone" = Some z
                  /\ VmmapSummaryEntry.vsize z = 300
                  /\ VmmapSummaryEntry.regionCount z = 2).
Proof.
  split; [| split; [| split; [| split; [| split; [| split]]]]].
  - rewrite summary_regions_lookup. intros H.
    apply row_of_Some in H. destruct H as [Hne ->]. repeat split. exact Hne.
  - rewrite malloc_zones_lookup. intros H.
    apply row_of_Some in H. destruct H as [Hne ->]. repeat split. exact Hne.
  - rewrite summary_regions_lookup. apply row_of_is_Some.
  - rewrite malloc_zones_lookup. apply row_of_is_Some.
  - intros entries' Hp. split.
    + apply summary_regions_Permutation. exact Hp.
    + apply malloc_zones_Permutation. exact Hp.
  - exact wrap64_small.
  - intros e1 e2 Ht1 Ht2 Hd1 Hd2 Hv1 Hv2.
    exists (zone_row "DefaultMallocZone" [e1; e2]).
    rewrite malloc_zones_lookup. unfold in_zone, VmmapEntry.IsMalloc.
    cbn [List.filter]. rewrite Ht1, Ht2, Hd1, Hd2.
    cbn [take_str String.eqb Ascii.eqb Bool.eqb andb row_of].
    split; [reflexivity |].
    unfold zone_row, total. cbn [foldr length VmmapSummaryEntry.vsize VmmapSummaryEntry.regionCount].
    rewrite Hv1, Hv2. split; reflexivity.
Qed.

Lemma aggregation_invariant_witness :
  malloc_zones [zone_entry 100 100; zone_entry 200 50] !! "DefaultMallocZone"
  = Some (VmmapSummaryEntry.mk "DefaultMallocZone" 300 150 0 0 0 0 0 2)
  /\ in_zone "DefaultMallocZone" [zone_entry 100 100; zone_entry 200 50]
     = [zone_entry 100 100; zone_entry 200 50]
  /\ VmmapSummaryEntry.vsize (VmmapSummaryEntry.mk "DefaultMallocZone" 300 150 0 0 0 0 0 2)
     = wrap64 (total VmmapEntry.vsize
                 (in_zone "DefaultMallocZone" [zone_entry 100 100; zone_entry 200 50]))
  /\ summary_regions [zone_entry 200 50; zone_entry 100 100]
     = summary_regions [zone_entry 100 100; zone_entry 200 50].
Proof.
  assert (H : malloc_zones [zone_entry 100 100; zone_entry 200 50] !! "DefaultMallocZone"
              = Some (VmmapSummaryEntry.mk "DefaultMallocZone" 300 150 0 0 0 0 0 2))
    by (vm_compute; reflexivity).
  destruct (aggregation_invariant [zone_entry 100 100; zone_entry 200 50]
              "DefaultMallocZone"
              (VmmapSummaryEntry.mk "DefaultMallocZone" 300 150 0 0 0 0 0 2))
    as (_ & Hz & _ & _ & Hperm & _).
  destruct (Hz H) as (_ & Hv & _).
  split; [exact H |].
  split; [reflexivity |].
  split; [exact Hv |].
  apply Hperm. apply perm_swap.
Defined.

(** ** The second stage of the classifier *)

Lemma is_mapped_file_true e :
  is_mapped_file e = true <-> VmmapEntry.regionType e = "mapped file".
Proof. unfold is_mapped_file. apply String.eqb_eq. Qed.

Lemma append_inj_l (p a b : string) : p +:+ a = p +:+ b -> a = b.
Proof.
  induction p as [| c p IH]; simpl; intros H.
  - exact H.
  - injection H as H. apply IH. exact H.
Qed.

Lemma prefix_pass_fst entries : forall files,
  fst (prefix_pass entries files) = prefixed <$> entries.
Proof.
  induction entries as [| e rest IH]; intros files; cbn [prefix_pass fmap list_fmap].
  - reflexivity.
  - unfold prefixed at 1. destruct (is_mapped_file e).
    + match goal with |- context [prefix_pass rest ?f] =>
        specialize (IH f); destruct (prefix_pass rest f) end.
      cbn [fst] in *. rewrite IH. reflexivity.
    + specialize (IH files). destruct (prefix_pass rest files).
      cbn [fst] in *. rewrite IH. reflexivity.
Qed.

Lemma prefix_pass_snd entries : forall files p,
  p ∈ snd (prefix_pass entries files)
  <-> p ∈ files
      \/ exists e, e ∈ entries /\ is_mapped_file e = true /\ is_executable e = true
                   /\ p = SystemPrefix +:+ VmmapEntry.regionDetail e.
Proof.
  induction entries as [| e rest IH]; intros files p; cbn [prefix_pass].
  - cbn [snd]. split.
    + intros H. left. exact H.
    + intros [H | (e & He & _)]; [exact H |]. apply elem_of_nil in He. contradiction.
  - destruct (is_mapped_file e) eqn:Hm.
    + change (is_executable (VmmapEntry.with_regionDetail
                (SystemPrefix +:+ VmmapEntry.regionDetail e) e))
        with (is_executable e).
      change (VmmapEntry.regionDetail (VmmapEntry.with_regionDetail
                (SystemPrefix +:+ VmmapEntry.regionDetail e) e))
        with (SystemPrefix +:+ VmmapEntry.regionDetail e).
      match goal with |- context [prefix_pass rest ?f] =>
        specialize (IH f p); destruct (prefix_pass rest f) end.
      cbn [snd] in *. rewrite IH. clear IH.
      destruct (is_executable e) eqn:Hx.
      * rewrite elem_of_union, elem_of_singleton. split.
        -- intros [[-> | H] | (e2 & He2 & H)].
           ++ right. exists e. split; [left | auto].
           ++ left. exact H.
           ++ right. exists e2. split; [right; exact He2 | exact H].
        -- intros [H | (e2 & He2 & Hm2 & Hx2 & ->)].
           ++ left. right. exact H.
           ++ apply elem_of_cons in He2. destruct He2 as [-> | He2].
              ** left. left. reflexivity.
              ** right. exists e2. auto.
      * split.
        -- intros [H | (e2 & He2 & H)].
           ++ left. exact H.
           ++ right. exists e2. split; [right; exact He2 | exact H].
        -- intros [H | (e2 & He2 & Hm2 & Hx2 & ->)].
           ++ left. exact H.
           ++ apply elem_of_cons in He2. destruct He2 as [-> | He2].
              ** congruence.
              ** right. exists e2. auto.
    + specialize (IH files p). destruct (prefix_pass rest files).
      cbn [snd] in *. rewrite IH. clear IH. split.
      * intros [H | (e2 & He2 & H)].
        -- left. exact H.
        -- right. exists e2. split; [right; exact He2 | exact H].
      * intros [H | (e2 & He2 & Hm2 & Hx2 & ->)].
        -- left. exact H.
        -- apply elem_of_cons in He2. destruct He2 as [-> | He2].
           ++ congruence.
           ++ right. exists e2. auto.
Qed.

(** The files the first loop collects are the prefixed paths that some
    mapped-file entry maps executable. *)
Lemma executable_files_spec entries path :
  SystemPrefix +:+ path ∈ snd (prefix_pass entries ∅)
  <-> mapped_executable entries path.
Proof.
  rewrite prefix_pass_snd. unfold mapped_executable. split.
  - intros [H | (e & He & Hm & Hx & Hp)].
    + apply elem_of_empty in H. contradiction.
    + exists e. apply is_mapped_file_true in Hm. apply append_inj_l in Hp. auto.
  - intros (e & He & Hm & Hp & Hx). right. exists e.
    apply is_mapped_file_true in Hm. subst path. auto.
Qed.

Lemma classify_files_eq entries :
  classify_files entries
  = (fun e => relabel (snd (prefix_pass entries ∅)) (prefixed e)) <$> entries.
Proof.
  unfold classify_files.
  pose proof (prefix_pass_fst entries ∅) as H.
  destruct (prefix_pass entries ∅) as [es files]. cbn [fst snd] in *.
  rewrite H, <- list_fmap_compose. reflexivity.
Qed.

(** C3.  After the two loops over the whole entry list, the entry that
    stands where a mapped-file entry stood has the label "__TEXT" when the
    backing path is mapped executable by some mapped-file entry of the
    list and its own execute bit is set, "__DATA" when the path is mapped
    executable and its own execute bit is not set, and "mapped file" when
    no mapped-file entry maps the path executable.  Its path is the old
    one behind the system prefix. *)
Theorem second_pass_relabels (entries : list VmmapEntry) (i : nat) (e : VmmapEntry) :
  entries !! i = Some e ->
  VmmapEntry.regionType e = "mapped file" ->
  exists r,
    classify_files entries !! i = Some r
    /\ (mapped_executable entries (VmmapEntry.regionDetail e) ->
        is_executable e = true -> VmmapEntry.regionType r = "__TEXT")
    /\ (mapped_executable entries (VmmapEntry.regionDetail e) ->
        is_executable e = false -> VmmapEntry.regionType r = "__DATA")
    /\ (~ mapped_executable entries (VmmapEntry.regionDetail e) ->
        VmmapEntry.regionType r = "mapped file")
    /\ VmmapEntry.regionDetail r = SystemPrefix +:+ VmmapEntry.regionDetail e
    /\ is_executable r = is_executable e.
Proof.
  intros Hi Ht.
  rewrite classify_files_eq, list_lookup_fmap, Hi. cbn [fmap option_fmap option_map].
  pose proof (executable_files_spec entries (VmmapEntry.regionDetail e)) as Hfiles.
  assert (Hm : is_mapped_file e = true) by (apply is_mapped_file_true; exact Ht).
  unfold prefixed. rewrite Hm. unfold relabel.
  change (is_mapped_file (VmmapEntry.with_regionDetail
            (SystemPrefix +:+ VmmapEntry.regionDetail e) e))
    with (is_mapped_file e).
  change (is_executable (VmmapEntry.with_regionDetail
            (SystemPrefix +:+ VmmapEntry.regionDetail e) e))
    with (is_executable e).
  change (VmmapEntry.regionDetail (VmmapEntry.with_regionDetail
            (SystemPrefix +:+ VmmapEntry.regionDetail e) e))
    with (SystemPrefix +:+ VmmapEntry.regionDetail e).
  rewrite Hm.
  destruct (bool_decide_reflect
              (SystemPrefix +:+ VmmapEntry.regionDetail e ∈ snd (prefix_pass entries ∅)))
    as [Hin | Hnin].
  - apply Hfiles in Hin. destruct (is_executable e) eqn:Hx.
    + eexists. split; [reflexivity |].
      repeat split; try reflexivity; try discriminate; try contradiction. exact Hx.
    + eexists. split; [reflexivity |].
      repeat split; try reflexivity; try discriminate; try contradiction. exact Hx.
  - eexists. split; [reflexivity |].
    split; [intros H; exfalso; apply Hnin, Hfiles; exact H |].
    split; [intros H; exfalso; apply Hnin, Hfiles; exact H |].
    split; [intros _; exact Ht |]. split; reflexivity.
Qed.

Lemma second_pass_relabels_witness :
  sample_files !! 1%nat = Some (file_entry "rw-" "/lib/libc.so")
  /\ VmmapEntry.regionType (file_entry "rw-" "/lib/libc.so") = "mapped file"
  /\ exists r,
       classify_files sample_files !! 1%nat = Some r
       /\ VmmapEntry.regionType r = "__DATA"
       /\ VmmapEntry.regionDetail r = SystemPrefix +:+ "/lib/libc.so".
Proof.
  split; [reflexivity |].
  split; [reflexivity |].
  destruct (second_pass_relabels sample_files 1 (file_entry "rw-" "/lib/libc.so")
              eq_refl eq_refl) as (r & Hr & _ & Hd & _ & Hp & _).
  exists r. split; [exact Hr |]. split; [| exact Hp].
  apply Hd.
  - exists (file_entry "r-x" "/lib/libc.so").
    split; [apply elem_of_cons; left; reflexivity |].
    repeat split.
  - reflexivity.
Defined.

Example classify_files_sample :
  VmmapEntry.regionType <$> classify_files sample_files
  = ["__TEXT"; "__DATA"; "mapped file"].
Proof. vm_compute. reflexivity. Qed.

(** ** Opening the source *)

(** C4.  What [Map] throws, by the cause the host reports.  When
    [getpgid] reports that the process does not exist (ESRCH, EINVAL), and
    when neither smaps nor maps can be opened, the message is the one
    about missing privileges; when it reports EPERM the message is the one
    about a process that is no longer running.  The two messages stand in
    each other's place: [BadPid] carries the text of [BadPerm] and the
    other way round. *)
Theorem Map_error_by_cause (host : Host) (args : VmmapArgs) :
  (errno host = ESRCH \/ errno host = EINVAL
   \/ (errno host <> EPERM /\ proc_smaps host = None /\ proc_maps host = None) ->
   Map host args = inl (invalid_argument (privileges_message (pid args))))
  /\ (errno host = EPERM ->
      Map host args = inl (invalid_argument (not_running_message (pid args)))).
Proof.
  unfold Map, BadPid, BadPerm, privileges_message, not_running_message, throw.
  split.
  - intros [H | [H | (H & Hs & Hm)]].
    + rewrite H. reflexivity.
    + rewrite H. reflexivity.
    + rewrite Hs, Hm. destruct (errno host); try reflexivity. contradiction.
  - intros H. rewrite H. reflexivity.
Qed.

Lemma Map_error_by_cause_witness :
  errno (mkHost ESRCH None None 4096) = ESRCH
  /\ Map (mkHost ESRCH None None 4096)
       (mkArgs 4242 false false false false false false false false false false)
     = inl (invalid_argument
         "vmmap: vmmap cannot examine process 4242 because you do not have appropriate privileges to examine it; try running with `sudo`.").
Proof.
  split; [reflexivity |].
  exact (proj1 (Map_error_by_cause (mkHost ESRCH None None 4096)
                  (mkArgs 4242 false false false false false false false false false false))
               (or_introl eq_refl)).
Defined.

(** ** ParseSize *)

Lemma append_nil (b : string) : "" +:+ b = b.
Proof. reflexivity. Qed.

Lemma append_cons c (a b : string) : String c a +:+ b = String c (a +:+ b).
Proof. reflexivity. Qed.

Lemma append_empty_r (a : string) : a +:+ "" = a.
Proof.
  induction a as [| c a IH].
  - reflexivity.
  - rewrite append_cons, IH. reflexivity.
Qed.

Lemma span_app p a b :
  str_forall p a = true -> stops p b -> span p (a +:+ b) = (a, b).
Proof.
  induction a as [| c a IH]; intros Ha Hb.
  - rewrite append_nil. destruct b as [| c b]; simpl.
    + reflexivity.
    + simpl in Hb. rewrite Hb. reflexivity.
  - simpl in Ha. apply andb_true_iff in Ha. destruct Ha as [Hc Ha].
    rewrite append_cons. simpl. rewrite Hc, (IH Ha Hb). reflexivity.
Qed.

Lemma span_all p a : str_forall p a = true -> span p a = (a, EmptyString).
Proof.
  intros Ha. pose proof (span_app p a EmptyString Ha I) as H.
  rewrite append_empty_r in H. exact H.
Qed.

Lemma isdigit_not_space c : isdigit c = true -> isspace c = false.
Proof.
  unfold isdigit, isspace. intros H.
  apply andb_true_iff in H. destruct H as [H1 H2].
  apply Nat.leb_le in H1. apply Nat.leb_le in H2.
  apply orb_false_iff. split.
  - apply Nat.eqb_neq. lia.
  - apply andb_false_iff. right. apply Nat.leb_gt. lia.
Qed.

Lemma isdigit_read_sign c s : isdigit c = true -> read_sign (String c s) = (false, String c s).
Proof.
  intros H. unfold read_sign.
  destruct (Ascii.eqb_spec c "-") as [-> | _]; [discriminate |].
  destruct (Ascii.eqb_spec c "+") as [-> | _]; [discriminate |].
  reflexivity.
Qed.

Lemma is_empty_false s : s <> "" -> is_empty s = false.
Proof. destruct s; [congruence | reflexivity]. Qed.

(** [ss >> num] on a text that starts with a run of digits. *)
Lemma extract_size_t_digits ds rest :
  ds <> "" -> str_forall isdigit ds = true -> stops isdigit rest ->
  decimal ds <= SIZE_MAX ->
  extract_size_t 0 (stringstream (ds +:+ rest))
  = (decimal ds, mkStream rest (is_empty rest) false).
Proof.
  intros Hne Hds Hrest Hmax. unfold extract_size_t, stringstream, good.
  cbn [eofbit failbit buf negb andb].
  destruct ds as [| c ds]; [congruence |].
  pose proof Hds as Hds'. simpl in Hds'.
  apply andb_true_iff in Hds'. destruct Hds' as [Hc _].
  rewrite append_cons. cbn [span]. rewrite (isdigit_not_space c Hc).
  rewrite (isdigit_read_sign c _ Hc).
  change (String c (ds +:+ rest)) with (String c ds +:+ rest).
  rewrite (span_app isdigit (String c ds) rest Hds Hrest).
  cbn [is_empty]. fold (decimal (String c ds)).
  apply Z.leb_le in Hmax. rewrite Hmax. reflexivity.
Qed.

(** [ss >> unit] on a blank followed by a word that runs to the end. *)
Lemma extract_word_last unit :
  str_forall not_space unit = true ->
  fst (extract_word "" (mkStream (" " +:+ unit) false false)) = unit.
Proof.
  intros Hu. unfold extract_word, good. cbn [eofbit failbit buf negb andb].
  assert (Hs : span isspace (" " +:+ unit) = (" ", unit)).
  { apply span_app; [reflexivity |].
    destruct unit as [| c unit]; [exact I |].
    simpl in Hu. apply andb_true_iff in Hu. destruct Hu as [Hc _].
    unfold not_space in Hc. apply negb_true_iff in Hc. exact Hc. }
  rewrite Hs. destruct unit as [| c unit]; [reflexivity |].
  cbn [is_empty].
  change (fun c0 : ascii => negb (isspace c0)) with not_space.
  rewrite (span_all not_space _ Hu). reflexivity.
Qed.

Lemma ParseSize_format ds unit :
  ds <> "" -> str_forall isdigit ds = true -> decimal ds <= SIZE_MAX ->
  str_forall not_space unit = true ->
  ParseSize (ds +:+ " " +:+ unit)
  = if String.eqb unit "kB" then inr (mul64 (decimal ds) 1024)
    else if String.eqb unit "MB" then inr (mul64 (mul64 (decimal ds) 1024) 1024)
    else if String.eqb unit "GB"
         then inr (mul64 (mul64 (mul64 (decimal ds) 1024) 1024) 1024)
    else inl (invalid_argument
                ("vmmap: Failed to parse size: " +:+ ds +:+ " " +:+ unit)).
Proof.
  intros Hne Hds Hmax Hu. unfold ParseSize.
  rewrite (extract_size_t_digits ds (" " +:+ unit) Hne Hds eq_refl Hmax).
  pose proof (extract_word_last unit Hu) as Hw.
  simpl (is_empty _).
  destruct (extract_word "" _) as [w ss]. cbn [fst] in Hw. subst w.
  reflexivity.
Qed.


(** ** LinuxToVmmap *)

Lemma LinuxToVmmap_inr hps entry e :
  LinuxToVmmap hps entry = inr e ->
  size_tag (LinuxEntry.tags entry) "KernelPageSize" (wrap64 hps) = inr (VmmapEntry.pageSize e)
  /\ size_tag (LinuxEntry.tags entry) "Size"
       (wrap64 (LinuxEntry.end_ entry - LinuxEntry.start entry)) = inr (VmmapEntry.vsize e)
  /\ size_tag (LinuxEntry.tags entry) "Rss" (VmmapEntry.vsize e) = inr (VmmapEntry.rss e)
  /\ VmmapEntry.startAddress e = LinuxEntry.start entry
  /\ VmmapEntry.endAddress e = LinuxEntry.end_ entry
  /\ VmmapEntry.shrmod e = "NUL"
  /\ VmmapEntry.purge e = "".
Proof.
  unfold LinuxToVmmap. cbv zeta. intros H.
  apply bind_inr in H. destruct H as (pageSize & Hps & H).
  apply bind_inr in H. destruct H as (vsize & Hvs & H).
  apply bind_inr in H. destruct H as (rss & Hrss & H).
  apply bind_inr in H. destruct H as (dirty0 & _ & H).
  apply bind_inr in H. destruct H as (dirty & _ & H).
  apply bind_inr in H. destruct H as (swap & _ & H).
  destruct (contains_char "/" (LinuxEntry.description entry));
    [injection H as <-; cbn; auto 10 |].
  destruct (String.eqb (LinuxEntry.description entry) "HEAP");
    [injection H as <-; cbn; auto 10 |].
  destruct (String.eqb (LinuxEntry.description entry) "[stack]");
    [injection H as <-; cbn; auto 10 |].
  destruct (String.eqb (take_str 7 (LinuxEntry.description entry)) "[stack:").
  - apply bind_inr in H. destruct H as (id & _ & H).
    injection H as <-. cbn. auto 10.
  - injection H as <-. cbn. auto 10.
Qed.










Lemma relabel_prefixed_frame files e :
  exists label detail,
    relabel files (prefixed e)
    = VmmapEntry.with_regionType label (VmmapEntry.with_regionDetail detail e)
    /\ ((VmmapEntry.regionType e <> "mapped file"
         /\ label = VmmapEntry.regionType e /\ detail = VmmapEntry.regionDetail e)
        \/ (VmmapEntry.regionType e = "mapped file"
            /\ detail = SystemPrefix +:+ VmmapEntry.regionDetail e
            /\ (label = "mapped file" \/ label = "__TEXT" \/ label = "__DATA"))).
Proof.
  unfold relabel, prefixed. destruct (is_mapped_file e) eqn:Hm.
  - apply is_mapped_file_true in Hm.
    change (is_mapped_file (VmmapEntry.with_regionDetail
              (SystemPrefix +:+ VmmapEntry.regionDetail e) e))
      with (is_mapped_file e).
    rewrite (proj2 (is_mapped_file_true e) Hm).
    destruct (bool_decide _).
    + destruct (is_executable _).
      * exists "__TEXT", (SystemPrefix +:+ VmmapEntry.regionDetail e).
        split; [reflexivity |]. right. auto.
      * exists "__DATA", (SystemPrefix +:+ VmmapEntry.regionDetail e).
        split; [reflexivity |]. right. auto.
    + exists "mapped file", (SystemPrefix +:+ VmmapEntry.regionDetail e).
      split; [| right; auto]. destruct e. cbn in Hm. subst. reflexivity.
  - rewrite Hm. exists (VmmapEntry.regionType e), (VmmapEntry.regionDetail e).
    split; [destruct e; reflexivity |]. left. split; [| auto].
    intros H. apply is_mapped_file_true in H. congruence.
Qed.
















Example Map_text_Size_4kB :
  Map_text 4096
    ("00400000-00402000 r-xp 00000000 08:01 12345 /bin/true" +:+ nl +:+
     "Size:                  4 kB" +:+ nl +:+
     "00600000-00601000 rw-p 00000000 08:01 12345 /bin/true" +:+ nl)
  = inr [ VmmapEntry.mk "__TEXT" 4194304 4202496 4096 4096 0 0 4096 "r-x" "???"
            "NUL" "" "/Volumes/SystemRoot/bin/true" ].
Proof. vm_compute. reflexivity. Qed.

Example Map_text_Size_4xB :
  Map_text 4096
    ("00400000-00402000 r-xp 00000000 08:01 12345 /bin/true" +:+ nl +:+
     "Size:                  4 xB" +:+ nl +:+
     "00600000-00601000 rw-p 00000000 08:01 12345 /bin/true" +:+ nl)
  = inl (invalid_argument "vmmap: Failed to parse size: 4 xB").
Proof. vm_compute. reflexivity. Qed.

(** ** What the emitted entries inherit from the text *)

(** The second stage leaves addresses and page sizes alone. *)
Lemma classify_files_fields entries e' :
  e' ∈ classify_files entries ->
  exists e, e ∈ entries
            /\ VmmapEntry.startAddress e' = VmmapEntry.startAddress e
            /\ VmmapEntry.endAddress e' = VmmapEntry.endAddress e
            /\ VmmapEntry.pageSize e' = VmmapEntry.pageSize e
            /\ VmmapEntry.shrmod e' = VmmapEntry.shrmod e
            /\ VmmapEntry.purge e' = VmmapEntry.purge e.
Proof.
  rewrite classify_files_eq. intros H.
  apply list_elem_of_fmap in H. destruct H as (e & -> & He).
  exists e. split; [exact He |].
  unfold relabel, prefixed.
  destruct (is_mapped_file e) eqn:Hm.
  - change (is_mapped_file (VmmapEntry.with_regionDetail
              (SystemPrefix +:+ VmmapEntry.regionDetail e) e))
      with (is_mapped_file e).
    rewrite Hm.
    destruct (bool_decide _); [| repeat split].
    destruct (is_executable _); repeat split.
  - rewrite Hm. repeat split.
Qed.

Lemma span_split p : forall s a b,
  span p s = (a, b) -> s = a +:+ b /\ str_forall p a = true.
Proof.
  induction s as [| c s IH]; intros a b H; cbn [span] in H.
  - injection H as <- <-. split; reflexivity.
  - destruct (p c) eqn:Hc.
    + destruct (span p s) as [a' b'] eqn:Hs. injection H as <- <-.
      destruct (IH a' b' eq_refl) as [-> Ha]. rewrite append_cons.
      split; [reflexivity |]. cbn [str_forall]. rewrite Hc. exact Ha.
    + injection H as <- <-. rewrite append_nil. split; reflexivity.
Qed.




Lemma wrap64_to_intptr z : wrap64 (to_intptr z) = wrap64 z.
Proof.
  unfold to_intptr. cbv zeta. unfold wrap64.
  destruct (z mod 2 ^ 64 <? 2 ^ 63).
  - apply Z.mod_mod. discriminate.
  - rewrite <- (Z.mod_add _ 1) by discriminate.
    replace (z mod 2 ^ 64 - 2 ^ 64 + 1 * 2 ^ 64) with (z mod 2 ^ 64) by lia.
    apply Z.mod_mod. discriminate.
Qed.





Lemma Map_loop_pages hps lines st st' :
  0 < hps <= SIZE_MAX ->
  (forall line v, line ∈ lines -> detail_of line = Some ("KernelPageSize", v) ->
                  ParseSize v = inr hps) ->
  (forall e, e ∈ entries st -> VmmapEntry.pageSize e = hps) ->
  (forall v, LinuxEntry.tags (currentLinuxEntry st) !! "KernelPageSize" = Some v ->
             ParseSize v = inr hps) ->
  Map_loop hps st lines = inr st' ->
  forall e, e ∈ entries st' -> VmmapEntry.pageSize e = hps.
Proof.
  intros Hhps Hlines He Hcur Hloop.
  pose (I := fun s : loop_state =>
    (forall e, e ∈ entries s -> VmmapEntry.pageSize e = hps)
    /\ (forall v, LinuxEntry.tags (currentLinuxEntry s) !! "KernelPageSize" = Some v ->
                  ParseSize v = inr hps)).
  assert (HI : I st') ; [| exact (proj1 HI)].
  apply (Map_loop_invariant hps I lines) with (st := st); [| split; assumption | exact Hloop].
  clear st st' He Hcur Hloop. intros st line st' Hin [He Hcur] Hline. unfold I.
  apply Map_line_inr in Hline.
  destruct Hline as [(results & a & b & off & Hm & Ha & Hb & _ & Hf' & Hc' & Hes)
                    | (Hm & Hf' & Hes & Hc')].
  - split.
    + destruct Hes as [[_ ->] | (Hf & e & Hce & ->)]; [exact He |].
      intros e' He'. apply elem_of_app in He'. destruct He' as [He' | He'].
      * apply He. exact He'.
      * apply list_elem_of_singleton in He'. subst e'.
        apply LinuxToVmmap_inr in Hce. destruct Hce as (Hps & _).
        unfold size_tag in Hps.
        destruct (LinuxEntry.tags (currentLinuxEntry st) !! "KernelPageSize") as [v |] eqn:Hv.
        -- rewrite (Hcur v eq_refl) in Hps. congruence.
        -- injection Hps as <-. apply wrap64_small. lia.
    + rewrite Hc'. cbn [LinuxEntry.tags]. exact Hcur.
  - rewrite Hes. split; [exact He |].
    destruct Hc' as [[_ ->] | (i & j & Hi & Hj & ->)]; [exact Hcur |].
    intros v. unfold set_tag. cbn [LinuxEntry.tags].
    destruct (decide (take_str i line = "KernelPageSize")) as [Hn | Hn].
    + rewrite Hn, lookup_insert_eq. intros Hv. injection Hv as <-.
      apply (Hlines line); [exact Hin |].
      unfold detail_of. rewrite Hm, Hi, Hj, Hn. reflexivity.
    + rewrite lookup_insert_ne by exact Hn. apply Hcur.
Qed.




Lemma page_ok_sound hps lines :
  forallb (page_ok hps) lines = true ->
  forall line v, line ∈ lines -> detail_of line = Some ("KernelPageSize", v) ->
                 ParseSize v = inr hps.
Proof.
  intros Hall line v Hin Hd.
  apply list_elem_of_In in Hin.
  pose proof (proj1 (forallb_forall (page_ok hps) lines) Hall line Hin) as Hok.
  unfold page_ok in Hok. rewrite Hd in Hok. cbn [String.eqb Ascii.eqb Bool.eqb] in Hok.
  destruct (ParseSize v) as [e | z]; [discriminate |].
  apply Z.eqb_eq in Hok. congruence.
Qed.




(** ** Detail lines and the accumulator *)

(** A header line starts a new record with the attributes of the old one:
    the loop never empties [tags]. *)
Lemma Map_line_header_keeps_tags hps st line st' :
  is_header line = true -> Map_line hps st line = inr st' ->
  LinuxEntry.tags (currentLinuxEntry st') = LinuxEntry.tags (currentLinuxEntry st).
Proof.
  intros Hh H. apply Map_line_inr in H. unfold is_header in Hh.
  destruct H as [(results & a & b & off & _ & _ & _ & _ & _ & -> & _) | (Hm & _)].
  - reflexivity.
  - rewrite Hm in Hh. discriminate.
Qed.

(** C7.  A detail line that stands before the first header line is not
    ignored: the loop records it in the accumulator whether or not a
    header was seen, and the first header keeps the accumulator's
    attributes.  Here the stray "Size: 8 kB" gives the first emitted entry
    vsize 8192; without it the entry has the 4096 of its address range. *)
Theorem stray_detail_line_is_recorded :
  Map_text 4096 stray_text
  = inr [ VmmapEntry.mk "__TEXT" 4194304 4198400 8192 8192 0 0 4096 "r-x" "???"
            "NUL" "" "/Volumes/SystemRoot/bin/true" ]
  /\ Map_text 4096 two_headers
     = inr [ VmmapEntry.mk "__TEXT" 4194304 4198400 4096 4096 0 0 4096 "r-x" "???"
               "NUL" "" "/Volumes/SystemRoot/bin/true" ]
  /\ detail_of "Size:                  8 kB" = Some ("Size", "8 kB").
Proof. repeat split; vm_compute; reflexivity. Qed.

(** ** Placeholders *)

Lemma purged_placeholder state key (es : list VmmapEntry) :
  state <> "" ->
  (forall e, e ∈ es -> VmmapEntry.purge e = "") ->
  purged state (with_type key es) = [].
Proof.
  intros Hs. induction es as [| e es IH]; intros Hall.
  - reflexivity.
  - unfold with_type. cbn [List.filter]. fold (with_type key es).
    assert (IH' : purged state (with_type key es) = []).
    { apply IH. intros e' He'. apply Hall. right. exact He'. }
    destruct (String.eqb (VmmapEntry.regionType e) key); [| exact IH'].
    unfold purged. cbn [List.filter]. fold (purged state (with_type key es)).
    rewrite (Hall e (list_elem_of_here _ _)).
    destruct (String.eqb_spec "" state) as [Heq | _]; [congruence | exact IH'].
Qed.

Lemma Map_loop_placeholders hps lines st st' :
  (forall e, e ∈ entries st -> VmmapEntry.shrmod e = "NUL" /\ VmmapEntry.purge e = "") ->
  Map_loop hps st lines = inr st' ->
  forall e, e ∈ entries st' -> VmmapEntry.shrmod e = "NUL" /\ VmmapEntry.purge e = "".
Proof.
  intros He Hloop.
  apply (Map_loop_invariant hps
           (fun s => forall e, e ∈ entries s ->
                       VmmapEntry.shrmod e = "NUL" /\ VmmapEntry.purge e = "") lines)
    with (st := st); [| exact He | exact Hloop].
  clear. intros st line st' _ He Hline. apply Map_line_inr in Hline.
  destruct Hline as [(results & a & b & off & _ & _ & _ & _ & _ & _ & Hes)
                    | (_ & _ & Hes & _)].
  - destruct Hes as [[_ ->] | (_ & e & Hce & ->)]; [exact He |].
    intros e' He'. apply elem_of_app in He'. destruct He' as [He' | He'].
    + apply He. exact He'.
    + apply list_elem_of_singleton in He'. subst e'.
      apply LinuxToVmmap_inr in Hce. destruct Hce as (_ & _ & _ & _ & _ & Hs & Hp).
      split; assumption.
  - rewrite Hes. exact He.
Qed.

(** C8.  Every entry the classifier produces, and every entry [Map]
    returns, has shrmod "NUL" and an empty purge; so every row of the
    summary and of the zone table computed from what [Map] returns has
    vol, nonvol and empty equal to 0. *)
Theorem placeholders_and_purge_totals (hps : Z) :
  (forall entry e, LinuxToVmmap hps entry = inr e ->
     VmmapEntry.shrmod e = "NUL" /\ VmmapEntry.purge e = "")
  /\ (forall text es, Map_text hps text = inr es ->
        (forall e, e ∈ es -> VmmapEntry.shrmod e = "NUL" /\ VmmapEntry.purge e = "")
        /\ (forall key b,
              summary_regions es !! key = Some b \/ malloc_zones es !! key = Some b ->
              VmmapSummaryEntry.vol b = 0
              /\ VmmapSummaryEntry.nonvol b = 0
              /\ VmmapSummaryEntry.empty b = 0)).
Proof.
  split.
  - intros entry e H. apply LinuxToVmmap_inr in H.
    destruct H as (_ & _ & _ & _ & _ & Hs & Hp). split; assumption.
  - intros text es H. unfold Map_text in H.
    apply bind_inr in H. destruct H as (st' & Hloop & H). injection H as <-.
    assert (Hall : forall e, e ∈ classify_files (entries st') ->
                     VmmapEntry.shrmod e = "NUL" /\ VmmapEntry.purge e = "").
    { intros e' He'. apply classify_files_fields in He'.
      destruct He' as (e & He & _ & _ & _ & -> & ->).
      apply (Map_loop_placeholders hps (getlines text) loop_init st'); [| exact Hloop | exact He].
      intros e0 He0. apply elem_of_nil in He0. contradiction. }
    split; [exact Hall |].
    intros key b [Hb | Hb].
    + rewrite summary_regions_lookup in Hb. apply row_of_Some in Hb.
      destruct Hb as [_ ->]. unfold region_row.
      cbn [VmmapSummaryEntry.vol VmmapSummaryEntry.nonvol VmmapSummaryEntry.empty].
      rewrite !purged_placeholder by (discriminate || (intros e He; apply Hall; exact He)).
      repeat split.
    + rewrite malloc_zones_lookup in Hb. apply row_of_Some in Hb.
      destruct Hb as [_ ->]. repeat split.
Qed.

Lemma placeholders_and_purge_totals_witness :
  Map_text 4096 plain_text = inr plain_entries
  /\ summary_regions plain_entries !! "__TEXT"
     = Some (VmmapSummaryEntry.mk "__TEXT" 4096 4096 0 0 0 0 0 1)
  /\ (forall e, e ∈ plain_entries -> VmmapEntry.shrmod e = "NUL" /\ VmmapEntry.purge e = "")
  /\ VmmapSummaryEntry.vol (VmmapSummaryEntry.mk "__TEXT" 4096 4096 0 0 0 0 0 1) = 0.
Proof.
  assert (Hmap : Map_text 4096 plain_text = inr plain_entries) by (vm_compute; reflexivity).
  assert (Hrow : summary_regions plain_entries !! "__TEXT"
                 = Some (VmmapSummaryEntry.mk "__TEXT" 4096 4096 0 0 0 0 0 1))
    by (vm_compute; reflexivity).
  destruct (placeholders_and_purge_totals 4096) as [_ Hm].
  destruct (Hm plain_text plain_entries Hmap) as [Hall Hrows].
  split; [exact Hmap |]. split; [exact Hrow |]. split; [exact Hall |].
  exact (proj1 (Hrows "__TEXT" _ (or_introl Hrow))).
Defined.

(** ** Reports on an empty entry list *)

Lemma no_page_iff (pages : bool) (pageSize : Z) :
  pages && (pageSize =? 0) = true <-> pages = true /\ pageSize = 0.
Proof. rewrite andb_true_iff, Z.eqb_eq. reflexivity. Qed.

Lemma PagesOrKilobytes_outcome bytes pageSize pages :
  PagesOrKilobytes bytes pageSize pages
  = if pages && (pageSize =? 0) then Undefined
    else Returns (if pages then to_string (bytes / pageSize)
                  else FormatData (to_intptr bytes) " ").
Proof.
  unfold PagesOrKilobytes. destruct pages; [| reflexivity].
  destruct (pageSize =? 0); reflexivity.
Qed.

Lemma region_columns_outcome pageSize args row :
  operands (region_columns pageSize args row)
  = if pages args && (pageSize =? 0) then Undefined else Returns tt.
Proof.
  unfold region_columns. cbn [operands]. rewrite !PagesOrKilobytes_outcome.
  destruct (pages args && (pageSize =? 0)); reflexivity.
Qed.

Lemma zone_columns_outcome pageSize args row :
  operands (zone_columns pageSize args row)
  = if pages args && (pageSize =? 0) then Undefined else Returns tt.
Proof.
  unfold zone_columns. cbn [operands]. rewrite !PagesOrKilobytes_outcome.
  destruct (pages args && (pageSize =? 0)); reflexivity.
Qed.

Lemma size_columns_outcome args entry :
  operands (size_columns args entry)
  = if pages args && (VmmapEntry.pageSize entry =? 0) then Undefined else Returns tt.
Proof.
  unfold size_columns. cbn [operands]. rewrite !PagesOrKilobytes_outcome.
  destruct (pages args && (VmmapEntry.pageSize entry =? 0)); reflexivity.
Qed.

(** A table whose rows all print through the same page size. *)
Lemma rows_outcome {A : Type} (f : A -> outcome unit) (bad : bool) (rows : list A) :
  (forall row, f row = if bad then Undefined else Returns tt) ->
  for_each f rows
  = match rows with
    | [] => Returns tt
    | _ :: _ => if bad then Undefined else Returns tt
    end.
Proof.
  intros Hf. destruct bad.
  - destruct rows as [| row rows]; [reflexivity |]. cbn [for_each]. rewrite Hf. reflexivity.
  - induction rows as [| row rows IH]; [reflexivity |].
    cbn [for_each]. rewrite Hf. cbn [and_then]. rewrite IH. destruct rows; reflexivity.
Qed.

Lemma PrintMalloc_cons e rest args :
  PrintMalloc (e :: rest) args
  = match map_to_list (malloc_zones (e :: rest)) with
    | [] => Returns (mkMallocTable (malloc_zones (e :: rest)) (VmmapEntry.pageSize e))
    | _ :: _ =>
        if pages args && (VmmapEntry.pageSize e =? 0) then Undefined
        else Returns (mkMallocTable (malloc_zones (e :: rest)) (VmmapEntry.pageSize e))
    end.
Proof.
  unfold PrintMalloc. cbn [front_pageSize].
  rewrite (rows_outcome _ (pages args && (VmmapEntry.pageSize e =? 0)))
    by (intros row; apply zone_columns_outcome).
  destruct (map_to_list (malloc_zones (e :: rest))); [reflexivity |].
  destruct (pages args && (VmmapEntry.pageSize e =? 0)); reflexivity.
Qed.

Lemma summary_regions_cons e rest : map_to_list (summary_regions (e :: rest)) <> [].
Proof.
  intros H. apply map_to_list_empty_iff in H.
  pose proof (summary_regions_lookup (e :: rest) (VmmapEntry.regionType e)) as Hl.
  rewrite H, lookup_empty in Hl. symmetry in Hl.
  unfold with_type in Hl. cbn [List.filter] in Hl. rewrite String.eqb_refl in Hl.
  discriminate.
Qed.

Section Reports.

Variable round_percent : Z -> Z -> option Z.

Lemma Percent_cases t1 t2 :
  Percent round_percent t1 t2 = Undefined
  \/ exists s, Percent round_percent t1 t2 = Returns s.
Proof.
  unfold Percent. destruct (t2 =? 0); [left; reflexivity |].
  destruct (round_percent t1 t2); [right; eexists; reflexivity | left; reflexivity].
Qed.

Lemma sub_intptr_cases a b :
  sub_intptr a b = Undefined \/ exists d, sub_intptr a b = Returns d.
Proof.
  unfold sub_intptr. destruct (_ && _); [right; eexists; reflexivity | left; reflexivity].
Qed.

(** The totals print or have no defined text; they throw nothing. *)
Lemma print_totals_cases t :
  print_totals round_percent t = Undefined \/ print_totals round_percent t = Returns tt.
Proof.
  destruct t as [[[[a b] c] d] f]. unfold print_totals.
  repeat match goal with
         | |- context [and_then (Percent round_percent ?x ?y) _] =>
             destruct (Percent_cases x y) as [-> | [? ->]];
             cbn [and_then]; [left; reflexivity |]
         | |- context [and_then (sub_intptr ?x ?y) _] =>
             destruct (sub_intptr_cases x y) as [-> | [? ->]];
             cbn [and_then]; [left; reflexivity |]
         end.
  right. reflexivity.
Qed.

(** With a total of zero the first percentage has no value. *)
Lemma print_totals_zero b c d f : print_totals round_percent (0, b, c, d, f) = Undefined.
Proof. reflexivity. Qed.

Lemma PrintSummary_nil args : PrintSummary round_percent [] args = Undefined.
Proof. reflexivity. Qed.

Lemma PrintSummary_cons e rest args :
  PrintSummary round_percent (e :: rest) args
  = let '(roTotal, roRss, wTotal, wRss, wSwap) :=
      fold_left add_totals (e :: rest) (0, 0, 0, 0, 0) in
    match print_totals round_percent (fold_left add_totals (e :: rest) (0, 0, 0, 0, 0)) with
    | Returns _ =>
        if pages args && (VmmapEntry.pageSize e =? 0) then Undefined
        else Returns (mkSummaryTable roTotal roRss wTotal wRss wSwap
                        (summary_regions (e :: rest)) (VmmapEntry.pageSize e)
                        (mkMallocTable (malloc_zones (e :: rest)) (VmmapEntry.pageSize e)))
    | _ => Undefined
    end.
Proof.
  unfold PrintSummary.
  destruct (fold_left add_totals (e :: rest) (0, 0, 0, 0, 0)) as [[[[a b] c] d] f].
  destruct (print_totals_cases (a, b, c, d, f)) as [-> | ->]; [reflexivity |].
  cbn [and_then front_pageSize].
  rewrite (rows_outcome _ (pages args && (VmmapEntry.pageSize e =? 0)))
    by (intros row; apply region_columns_outcome).
  pose proof (summary_regions_cons e rest) as Hne.
  destruct (map_to_list (summary_regions (e :: rest))); [congruence |].
  rewrite PrintMalloc_cons.
  destruct (pages args && (VmmapEntry.pageSize e =? 0)); [reflexivity |].
  cbn [and_then]. destruct (map_to_list (malloc_zones (e :: rest))); reflexivity.
Qed.

End Reports.

(** C9.  [PrintMalloc] and [PrintSummary] read the page size of the first
    entry without a test for emptiness, and so does [Print] on every run
    that gets as far as reporting (it is not asked for a corpse fork and
    the process lookups succeed): on the empty list the result is not
    defined.  On a list with a first entry the read is defined and gives
    that entry's pageSize, which is the page size of every result; what
    can still be undefined there is a division by a page size of 0 under
    -pages and the text of the totals. *)
Theorem reports_need_an_entry
    (round_percent : Z -> Z -> option Z)
    (PrintOverview : list VmmapEntry -> VmmapArgs -> result unit)
    (GetProcessName : Z -> result string) (args : VmmapArgs) :
  PrintMalloc [] args = Undefined
  /\ PrintSummary round_percent [] args = Undefined
  /\ (Print round_percent PrintOverview GetProcessName [] args = Undefined
      <-> forkCorpse args = false
          /\ (exists u, PrintOverview [] args = inr u)
          /\ (summary args = true \/ exists name, GetProcessName (pid args) = inr name))
  /\ (forall e rest,
        front_pageSize (e :: rest) (@Returns Z) = Returns (VmmapEntry.pageSize e)
        /\ (PrintMalloc (e :: rest) args = Undefined
            <-> pages args = true /\ VmmapEntry.pageSize e = 0
                /\ malloc_zones (e :: rest) <> ∅)
        /\ (PrintMalloc (e :: rest) args <> Undefined ->
            PrintMalloc (e :: rest) args
            = Returns (mkMallocTable (malloc_zones (e :: rest)) (VmmapEntry.pageSize e)))
        /\ (PrintSummary round_percent (e :: rest) args = Undefined
            <-> print_totals round_percent
                  (fold_left add_totals (e :: rest) (0, 0, 0, 0, 0)) = Undefined
                \/ (pages args = true /\ VmmapEntry.pageSize e = 0))
        /\ (PrintSummary round_percent (e :: rest) args <> Undefined ->
            exists t, PrintSummary round_percent (e :: rest) args = Returns t
                      /\ regions_pageSize t = VmmapEntry.pageSize e
                      /\ regions t = summary_regions (e :: rest))
        /\ (forall r, Print round_percent PrintOverview GetProcessName (e :: rest) args
                      = Returns r ->
              report_pageSize r
              = if summary args then None else Some (VmmapEntry.pageSize e))
        /\ (pages args = false ->
            PrintSummary round_percent (e :: rest) args <> Undefined ->
            Print round_percent PrintOverview GetProcessName (e :: rest) args
            <> Undefined)).
Proof.
  split; [reflexivity |].
  split; [reflexivity |].
  split.
  { unfold Print. destruct (forkCorpse args).
    - split; [discriminate | intros [H _]; discriminate].
    - destruct (PrintOverview [] args) as [e | u].
      + split; [discriminate | intros (_ & [u Hu] & _); discriminate].
      + destruct (summary args); cbn [negb and_then].
        * split; [intros _ | reflexivity].
          split; [reflexivity |]. split; [exists u; reflexivity | left; reflexivity].
        * destruct (GetProcessName (pid args)) as [e | name].
          -- split; [discriminate |].
             intros (_ & _ & [H | [name H]]); discriminate.
          -- split; [intros _ | reflexivity].
             split; [reflexivity |]. split; [exists u; reflexivity |].
             right. exists name. reflexivity. }
  intros e rest.
  split; [reflexivity |].
  split.
  { rewrite PrintMalloc_cons.
    destruct (map_to_list (malloc_zones (e :: rest))) as [| row rows] eqn:Hrows.
    - apply map_to_list_empty_iff in Hrows.
      split; [discriminate | intros (_ & _ & H); contradiction].
    - assert (Hne : malloc_zones (e :: rest) <> ∅).
      { intros H. apply map_to_list_empty_iff in H. congruence. }
      destruct (pages args && (VmmapEntry.pageSize e =? 0)) eqn:Hb.
      + split; [intros _ | reflexivity]. apply no_page_iff in Hb. tauto.
      + split; [discriminate |]. intros (H1 & H2 & _).
        rewrite (proj2 (no_page_iff _ _) (conj H1 H2)) in Hb. discriminate. }
  split.
  { rewrite PrintMalloc_cons.
    destruct (map_to_list (malloc_zones (e :: rest))); [reflexivity |].
    destruct (pages args && (VmmapEntry.pageSize e =? 0)); [congruence | reflexivity]. }
  assert (Hsum : PrintSummary round_percent (e :: rest) args = Undefined
                 \/ exists t, PrintSummary round_percent (e :: rest) args = Returns t
                              /\ regions_pageSize t = VmmapEntry.pageSize e
                              /\ regions t = summary_regions (e :: rest)).
  { rewrite PrintSummary_cons.
    destruct (fold_left add_totals (e :: rest) (0, 0, 0, 0, 0)) as [[[[a b] c] d] f].
    destruct (print_totals_cases round_percent (a, b, c, d, f)) as [-> | ->];
      [left; reflexivity |].
    destruct (pages args && (VmmapEntry.pageSize e =? 0)); [left; reflexivity |].
    right. eexists. repeat split. }
  split.
  { rewrite PrintSummary_cons.
    destruct (fold_left add_totals (e :: rest) (0, 0, 0, 0, 0)) as [[[[a b] c] d] f].
    destruct (print_totals_cases round_percent (a, b, c, d, f)) as [-> | ->].
    - split; [intros _; left; reflexivity | reflexivity].
    - destruct (pages args && (VmmapEntry.pageSize e =? 0)) eqn:Hb.
      + split; [intros _; right; apply no_page_iff; exact Hb | reflexivity].
      + split; [discriminate |]. intros [H | H]; [discriminate |].
        rewrite (proj2 (no_page_iff _ _) H) in Hb. discriminate. }
  split.
  { intros Hdef. destruct Hsum as [H | H]; [contradiction | exact H]. }
  split.
  { intros r. unfold Print. destruct (forkCorpse args); [discriminate |].
    destruct (PrintOverview (e :: rest) args) as [err | u]; [discriminate |].
    destruct (summary args); cbn [negb and_then].
    - destruct (PrintSummary round_percent (e :: rest) args); cbn [and_then];
        try discriminate.
      intros H. injection H as <-. reflexivity.
    - destruct (GetProcessName (pid args)) as [err | name]; [discriminate |].
      cbn [front_pageSize].
      destruct (for_each _ _); cbn [and_then]; try discriminate.
      destruct (PrintSummary round_percent (e :: rest) args); cbn [and_then];
        try discriminate.
      intros H. injection H as <-. reflexivity. }
  intros Hpages Hdef.
  assert (Hcore : forall table, PrintCore table args = Returns tt).
  { intros table. unfold PrintCore.
    rewrite (rows_outcome _ false); [destruct table; reflexivity |].
    intros row. rewrite size_columns_outcome, Hpages. reflexivity. }
  destruct Hsum as [H | (t & Ht & _)]; [contradiction |].
  unfold Print. destruct (forkCorpse args); [discriminate |].
  destruct (PrintOverview (e :: rest) args) as [err | u]; [discriminate |].
  destruct (summary args); cbn [negb and_then].
  - rewrite Ht. discriminate.
  - destruct (GetProcessName (pid args)) as [err | name]; [discriminate |].
    cbn [front_pageSize].
    rewrite (rows_outcome _ false) by (intros table; apply Hcore).
    destruct (interleaved args); cbn [negb and_then]; rewrite Ht; discriminate.
Qed.

Lemma reports_need_an_entry_witness :
  Print exact_percent (fun _ _ => inr tt) (fun _ => inr "true") [] plain_args = Undefined
  /\ PrintMalloc [zone_entry 100 100] pages_args
     = Returns (mkMallocTable (malloc_zones [zone_entry 100 100]) 4096)
  /\ exists t, PrintSummary exact_percent plain_entries plain_args = Returns t
               /\ regions_pageSize t = 4096.
Proof.
  split.
  - pose proof (reports_need_an_entry exact_percent (fun _ _ => inr tt)
                  (fun _ => inr "true") plain_args) as (_ & _ & Hprint & _).
    apply Hprint. split; [reflexivity |].
    split; [exists tt; reflexivity |].
    right. exists "true". reflexivity.
  - pose proof (reports_need_an_entry exact_percent (fun _ _ => inr tt)
                  (fun _ => inr "true") pages_args) as (_ & _ & _ & Hne).
    split.
    + destruct (Hne (zone_entry 100 100) []) as (_ & Hundef & Hret & _).
      apply Hret. intros H. apply Hundef in H. destruct H as (_ & H & _).
      discriminate.
    + pose proof (reports_need_an_entry exact_percent (fun _ _ => inr tt)
                    (fun _ => inr "true") plain_args) as (_ & _ & _ & Hplain).
      match goal with |- context [PrintSummary _ (?x :: ?l) _] => idtac | _ => idtac end.
      unfold plain_entries.
      match goal with |- exists t, PrintSummary _ (?x :: ?l) _ = _ /\ _ =>
        destruct (Hplain x l) as (_ & _ & _ & Hiff & Hret & _) end.
      destruct Hret as (t & Ht & Hp & _).
      * intros H. apply Hiff in H. destruct H as [H | [H _]]; [| discriminate].
        vm_compute in H. discriminate.
      * exists t. split; [exact Ht | exact Hp].
Defined.

(** ** Detail lines without a value *)

Lemma find_from_None p : forall s pos,
  find_from p pos s = None
  <-> (forall j c, (pos <= j)%nat -> String.get j s = Some c -> p c = false).
Proof.
  induction s as [| a s IH]; intros pos; cbn [find_from].
  - split; [| reflexivity]. intros _ j c _ H. destruct j; discriminate.
  - destruct pos as [| pos].
    + destruct (p a) eqn:Hpa.
      * split; [discriminate |]. intros H.
        specialize (H 0%nat a (Nat.le_refl _) eq_refl). congruence.
      * specialize (IH 0%nat). destruct (find_from p 0 s) as [k |]; cbn.
        -- split; [discriminate |]. intros H.
           assert (Hs : Some k = None); [| discriminate].
           apply IH. intros j c _ Hg. apply (H (S j) c); [lia | exact Hg].
        -- split; [| reflexivity]. intros _ j c _ Hg.
           destruct j as [| j]; cbn in Hg.
           ++ injection Hg as <-. exact Hpa.
           ++ apply (proj1 IH eq_refl j c); [lia | exact Hg].
    + specialize (IH pos). destruct (find_from p pos s) as [k |]; cbn.
      * split; [discriminate |]. intros H.
        assert (Hs : Some k = None); [| discriminate].
        apply IH. intros j c Hj Hg. apply (H (S j) c); [lia | exact Hg].
      * split; [| reflexivity]. intros _ j c Hj Hg.
        destruct j as [| j]; [lia |]. cbn in Hg.
        apply (proj1 IH eq_refl j c); [lia | exact Hg].
Qed.

Lemma find_from_Some p : forall s pos k,
  find_from p pos s = Some k ->
  (pos <= k < String.length s)%nat /\ exists c, String.get k s = Some c /\ p c = true.
Proof.
  induction s as [| a s IH]; intros pos k; cbn [find_from].
  - discriminate.
  - destruct pos as [| pos].
    + destruct (p a) eqn:Hpa.
      * intros H. injection H as <-. cbn. split; [lia |]. exists a. auto.
      * destruct (find_from p 0 s) as [k' |] eqn:Hf; cbn; [| discriminate].
        intros H. injection H as <-. destruct (IH _ _ Hf) as [Hk Hc].
        cbn. split; [lia | exact Hc].
    + destruct (find_from p pos s) as [k' |] eqn:Hf; cbn; [| discriminate].
      intros H. injection H as <-. destruct (IH _ _ Hf) as [Hk Hc].
      cbn. split; [lia | exact Hc].
Qed.

Lemma not_space_char c : negb (Ascii.eqb " " c) = false <-> c = " "%char.
Proof.
  rewrite negb_false_iff. split.
  - intros H. apply Ascii.eqb_eq in H. congruence.
  - intros ->. reflexivity.
Qed.

Lemma blank_after_find i line :
  blank_after i line <-> find_first_not_of " " (S i) line = None.
Proof.
  unfold blank_after, find_first_not_of. rewrite find_from_None. split.
  - intros H j c Hj Hg. apply not_space_char. apply (H j c); [lia | exact Hg].
  - intros H j c Hj Hg. apply not_space_char. apply (H j c); [lia | exact Hg].
Qed.

(** The detail branch of the loop, by what follows the first colon. *)
Lemma Map_line_detail hps st line i :
  regex_match line = None ->
  find_first_of ":" 0 line = Some i ->
  Map_line hps st line
  = match find_first_not_of " " (S i) line with
    | Some j =>
        inr (mkLoop (firstLine st)
               (set_tag (take_str i line) (drop_str j line) (currentLinuxEntry st))
               (entries st))
    | None => inl (out_of_range "basic_string::substr")
    end.
Proof.
  intros Hm Hi. unfold Map_line. rewrite Hm, Hi. unfold substr.
  cbn [Nat.leb bind ret].
  destruct (find_first_not_of " " (S i) line) as [j |] eqn:Hj; [| reflexivity].
  apply find_from_Some in Hj. destruct Hj as [[_ Hlt] _].
  assert (Hle : (j <=? String.length line)%nat = true) by (apply Nat.leb_le; lia).
  rewrite Hle. reflexivity.
Qed.

(** C10.  A line that is no header and has a colon makes the loop throw
    [std::out_of_range] exactly when nothing but spaces follows its first
    colon, which ends the whole reading loop; the round returns (and
    records the attribute) exactly when some other character follows. *)
Theorem detail_line_needs_a_value (hps : Z) (st : loop_state) (line : string) (i : nat) :
  regex_match line = None ->
  find_first_of ":" 0 line = Some i ->
  (blank_after i line
   <-> Map_line hps st line = inl (out_of_range "basic_string::substr"))
  /\ ((exists j c, (i < j)%nat /\ String.get j line = Some c /\ c <> " "%char)
      <-> exists st', Map_line hps st line = inr st')
  /\ (blank_after i line ->
      forall rest, Map_loop hps st (line :: rest)
                   = inl (out_of_range "basic_string::substr")).
Proof.
  intros Hm Hi. rewrite (Map_line_detail hps st line i Hm Hi).
  split; [| split].
  - rewrite blank_after_find.
    destruct (find_first_not_of " " (S i) line); split; congruence.
  - destruct (find_first_not_of " " (S i) line) as [j |] eqn:Hj.
    + split; [intros _; eexists; reflexivity | intros _].
      apply find_from_Some in Hj. destruct Hj as [[Hij _] (c & Hg & Hc)].
      exists j, c. split; [lia |]. split; [exact Hg |].
      intros ->. discriminate.
    + split; [| intros [st' H]; discriminate].
      intros (j & c & Hij & Hg & Hc). exfalso. apply Hc.
      apply blank_after_find in Hj. apply (Hj j c Hij Hg).
  - intros Hb rest. rewrite Map_loop_cons, (Map_line_detail hps st line i Hm Hi).
    apply blank_after_find in Hb. rewrite Hb. reflexivity.
Qed.

Lemma detail_line_needs_a_value_witness :
  regex_match "VmFlags: " = None
  /\ find_first_of ":" 0 "VmFlags: " = Some 7%nat
  /\ blank_after 7 "VmFlags: "
  /\ Map_line 4096 loop_init "VmFlags: " = inl (out_of_range "basic_string::substr").
Proof.
  assert (Hm : regex_match "VmFlags: " = None) by (vm_compute; reflexivity).
  assert (Hi : find_first_of ":" 0 "VmFlags: " = Some 7%nat) by (vm_compute; reflexivity).
  assert (Hl : Map_line 4096 loop_init "VmFlags: "
               = inl (out_of_range "basic_string::substr")) by (vm_compute; reflexivity).
  destruct (detail_line_needs_a_value 4096 loop_init "VmFlags: " 7 Hm Hi) as (Hb & _).
  split; [exact Hm |]. split; [exact Hi |]. split; [| exact Hl].
  apply Hb. exact Hl.
Defined.

Example Map_text_blank_value :
  Map_text 4096
    ("00400000-00401000 r-xp 00000000 08:01 12345 /bin/true" +:+ nl +:+
     "VmFlags: " +:+ nl +:+ two_headers)
  = inl (out_of_range "basic_string::substr").
Proof. vm_compute. reflexivity. Qed.

(** ** MakeTagSet: the loop ends within its fuel *)

Lemma span_length p : forall s a b,
  span p s = (a, b) -> String.length s = (String.length a + String.length b)%nat.
Proof.
  induction s as [| c s IH]; intros a b H; cbn [span] in H.
  - injection H as <- <-. reflexivity.
  - destruct (p c).
    + destruct (span p s) as [a' b'] eqn:Hs. injection H as <- <-.
      cbn [String.length]. rewrite (IH a' b' eq_refl). lia.
    + injection H as <- <-. reflexivity.
Qed.

Lemma span_stops p : forall s a b, span p s = (a, b) -> stops p b.
Proof.
  induction s as [| c s IH]; intros a b H; cbn [span] in H.
  - injection H as <- <-. exact I.
  - destruct (p c) eqn:Hc.
    + destruct (span p s) as [a' b'] eqn:Hs. injection H as <- <-.
      apply (IH a' b' eq_refl).
    + injection H as <- <-. exact Hc.
Qed.

(** One extraction either meets the end of the text or consumes some of it. *)
Lemma extract_word_progress old ss :
  stream_ok ss -> eofbit ss = false ->
  stream_ok (snd (extract_word old ss))
  /\ (eofbit (snd (extract_word old ss)) = true
      \/ (String.length (buf (snd (extract_word old ss))) < String.length (buf ss))%nat).
Proof.
  intros Hok Heof. unfold extract_word, good.
  destruct (failbit ss) eqn:Hfail; [rewrite (Hok Hfail) in Heof; discriminate |].
  rewrite Heof. cbn [negb andb].
  destruct (span isspace (buf ss)) as [sp s1] eqn:Hsp.
  pose proof (span_length _ _ _ _ Hsp) as Hlen1.
  pose proof (span_stops _ _ _ _ Hsp) as Hstop.
  destruct s1 as [| c s1]; cbn [is_empty].
  - cbn [snd eofbit]. split; [intros _; reflexivity | left; reflexivity].
  - destruct (span (fun c0 => negb (isspace c0)) (String c s1)) as [w s2] eqn:Hw.
    cbn [snd eofbit buf]. split; [intros H; discriminate |].
    right. cbn [stops] in Hstop. cbn [span] in Hw. rewrite Hstop in Hw. cbn [negb] in Hw.
    destruct (span (fun c0 => negb (isspace c0)) s1) as [w' s2'] eqn:Hw'.
    injection Hw as <- <-. apply span_length in Hw'.
    cbn [String.length] in Hlen1. lia.
Qed.

Lemma MakeTagSet_loop_fuel : forall fuel ss tags extra,
  stream_ok ss ->
  eofbit ss = true \/ (String.length (buf ss) < fuel)%nat ->
  MakeTagSet_loop (fuel + extra) ss tags = MakeTagSet_loop fuel ss tags.
Proof.
  induction fuel as [| fuel IH]; intros ss tags extra Hok Hend.
  - destruct Hend as [Heof | Hlt]; [| lia].
    destruct extra as [| extra]; cbn [Nat.add MakeTagSet_loop]; [reflexivity |].
    rewrite Heof. reflexivity.
  - cbn [Nat.add MakeTagSet_loop].
    destruct (eofbit ss) eqn:Heof; [reflexivity |].
    destruct Hend as [Habs | Hlt]; [discriminate |].
    pose proof (extract_word_progress "" ss Hok Heof) as [Hok' Hprog].
    destruct (extract_word "" ss) as [tag ss']. cbn [snd] in Hok', Hprog.
    apply IH; [exact Hok' |].
    destruct Hprog as [H | H]; [left; exact H | right; lia].
Qed.

(** More rounds than [MakeTagSet] allows would find the loop finished. *)
Lemma MakeTagSet_enough_fuel str extra :
  MakeTagSet_loop (S (String.length str) + extra) (stringstream str) ∅ = MakeTagSet str.
Proof.
  unfold MakeTagSet. apply MakeTagSet_loop_fuel.
  - intros H. discriminate.
  - right. cbn [stringstream buf]. lia.
Qed.

Example MakeTagSet_flags :
  elements (MakeTagSet "rd ex mr mw me") = elements ({[ "rd"; "ex"; "mr"; "mw"; "me" ]} : gset string).
Proof. vm_compute. reflexivity. Qed.

(** ** Scenarios of the specification *)

Example LinuxToVmmap_thread_stack :
  LinuxToVmmap 4096
    (LinuxEntry.mk 140737488220160 140737488355328 "rw-p" 0 "00:00" "0" "[stack:7]" ∅)
  = inr (VmmapEntry.mk "Stack" 140737488220160 140737488355328 135168 135168 0 0 4096
           "rw-" "???" "NUL" "" "thread 7").
Proof. vm_compute. reflexivity. Qed.

Example Map_smaps_missing_falls_back_to_maps :
  Map (mkHost ENONE None (Some two_headers) 4096)
      (mkArgs 4242 false false false false false false false false false false)
  = inr [ VmmapEntry.mk "__TEXT" 4194304 4198400 4096 4096 0 0 4096 "r-x" "???"
            "NUL" "" "/Volumes/SystemRoot/bin/true" ].
Proof. vm_compute. reflexivity. Qed.

(** * Further properties of the code *)

(** ** The first stage, field by field *)

Lemma LinuxToVmmap_label hps entry e :
  LinuxToVmmap hps entry = inr e ->
  let d := LinuxEntry.description entry in
  (contains_char "/" d = true
   /\ VmmapEntry.regionType e = "mapped file" /\ VmmapEntry.regionDetail e = d)
  \/ (contains_char "/" d = false /\ d = "HEAP"
      /\ VmmapEntry.regionType e = "MALLOC" /\ VmmapEntry.regionDetail e = d)
  \/ (d = "[stack]"
      /\ VmmapEntry.regionType e = "Stack" /\ VmmapEntry.regionDetail e = d)
  \/ (take_str 7 d = "[stack:"
      /\ exists id, stoi (drop_str 7 d) = inr id
                    /\ VmmapEntry.regionType e = "Stack"
                    /\ VmmapEntry.regionDetail e = "thread " +:+ to_string id)
  \/ (d <> "HEAP"
      /\ VmmapEntry.regionType e = "VM_ALLOCATE" /\ VmmapEntry.regionDetail e = d).
Proof.
  unfold LinuxToVmmap. cbv zeta. intros H.
  apply bind_inr in H. destruct H as (pageSize & _ & H).
  apply bind_inr in H. destruct H as (vsize & _ & H).
  apply bind_inr in H. destruct H as (rss & _ & H).
  apply bind_inr in H. destruct H as (dirty0 & _ & H).
  apply bind_inr in H. destruct H as (dirty & _ & H).
  apply bind_inr in H. destruct H as (swap & _ & H).
  destruct (contains_char "/" (LinuxEntry.description entry)) eqn:Hslash.
  { injection H as <-. left. repeat split. }
  destruct (String.eqb_spec (LinuxEntry.description entry) "HEAP") as [Hheap | Hheap].
  { injection H as <-. right. left. repeat split. exact Hheap. }
  destruct (String.eqb_spec (LinuxEntry.description entry) "[stack]") as [Hst | Hst].
  { injection H as <-. right. right. left. repeat split. exact Hst. }
  destruct (String.eqb_spec (take_str 7 (LinuxEntry.description entry)) "[stack:") as [Hth | Hth].
  - apply bind_inr in H. destruct H as (id & Hid & H). injection H as <-.
    right. right. right. left. split; [exact Hth |]. exists id. repeat split. exact Hid.
  - injection H as <-. right. right. right. right. repeat split. exact Hheap.
Qed.

Lemma LinuxToVmmap_sizes hps entry e :
  LinuxToVmmap hps entry = inr e ->
  LinuxEntry.tags entry = ∅ ->
  VmmapEntry.startAddress e = LinuxEntry.start entry
  /\ VmmapEntry.endAddress e = LinuxEntry.end_ entry
  /\ VmmapEntry.vsize e = wrap64 (LinuxEntry.end_ entry - LinuxEntry.start entry)
  /\ VmmapEntry.rss e = VmmapEntry.vsize e
  /\ VmmapEntry.dirty e = 0
  /\ VmmapEntry.swap e = 0
  /\ VmmapEntry.pageSize e = wrap64 hps
  /\ VmmapEntry.max e = "???".
Proof.
  unfold LinuxToVmmap. cbv zeta. intros H Ht. rewrite Ht in H.
  unfold size_tag in H. rewrite !lookup_empty in H. cbn [bind ret] in H.
  destruct (contains_char "/" (LinuxEntry.description entry));
    [injection H as <-; repeat split |].
  destruct (String.eqb (LinuxEntry.description entry) "HEAP");
    [injection H as <-; repeat split |].
  destruct (String.eqb (LinuxEntry.description entry) "[stack]");
    [injection H as <-; repeat split |].
  destruct (String.eqb (take_str 7 (LinuxEntry.description entry)) "[stack:").
  - apply bind_inr in H. destruct H as (id & _ & H). injection H as <-. repeat split.
  - injection H as <-. repeat split.
Qed.

(** ** The second stage touches the label and the path only *)

Lemma Map_text_entries hps text es :
  Map_text hps text = inr es ->
  exists st', Map_loop hps loop_init (getlines text) = inr st'
              /\ es = classify_files (entries st').
Proof.
  unfold Map_text. intros H.
  apply bind_inr in H. destruct H as (st' & Hloop & H). injection H as <-.
  exists st'. split; [exact Hloop | reflexivity].
Qed.

(** Every entry of the loop is the first-stage image of some record. *)
Lemma Map_loop_entries hps (P : VmmapEntry -> Prop) lines st st' :
  (forall entry e, LinuxToVmmap hps entry = inr e -> P e) ->
  (forall e, e ∈ entries st -> P e) ->
  Map_loop hps st lines = inr st' ->
  forall e, e ∈ entries st' -> P e.
Proof.
  intros Hstage He Hloop.
  apply (Map_loop_invariant hps (fun s => forall e, e ∈ entries s -> P e) lines)
    with (st := st); [| exact He | exact Hloop].
  clear st st' He Hloop. intros st line st' _ He Hline. apply Map_line_inr in Hline.
  destruct Hline as [(results & a & b & off & _ & _ & _ & _ & _ & _ & Hes)
                    | (_ & _ & Hes & _)].
  - destruct Hes as [[_ ->] | (_ & e & Hce & ->)]; [exact He |].
    intros e' He'. apply elem_of_app in He'. destruct He' as [He' | He'].
    + apply He. exact He'.
    + apply list_elem_of_singleton in He'. subst e'. apply (Hstage _ _ Hce).
  - rewrite Hes. exact He.
Qed.

Lemma classify_files_frame entries e' :
  e' ∈ classify_files entries ->
  exists e label detail,
    e ∈ entries
    /\ e' = VmmapEntry.with_regionType label (VmmapEntry.with_regionDetail detail e)
    /\ ((VmmapEntry.regionType e <> "mapped file"
         /\ label = VmmapEntry.regionType e /\ detail = VmmapEntry.regionDetail e)
        \/ (VmmapEntry.regionType e = "mapped file"
            /\ detail = SystemPrefix +:+ VmmapEntry.regionDetail e
            /\ (label = "mapped file" \/ label = "__TEXT" \/ label = "__DATA"))).
Proof.
  rewrite classify_files_eq. intros H.
  apply list_elem_of_fmap in H. destruct H as (e & -> & He).
  destruct (relabel_prefixed_frame (snd (prefix_pass entries ∅)) e)
    as (label & detail & Heq & Hcase).
  exists e, label, detail. split; [exact He |]. split; [exact Heq | exact Hcase].
Qed.

Lemma first_stage_labels hps entry e :
  LinuxToVmmap hps entry = inr e ->
  first_stage_label (VmmapEntry.regionType e) /\ heap_labelled e.
Proof.
  intros H. apply LinuxToVmmap_label in H. cbv zeta in H. unfold first_stage_label, heap_labelled.
  destruct H as [(_ & -> & _) | [(_ & Hd & -> & ->) | [(_ & -> & _)
               | [(_ & id & _ & -> & _) | (_ & -> & _)]]]];
    (split; [auto 6 | try discriminate]).
  intros _. exact Hd.
Qed.

Lemma Map_text_labels hps text es :
  Map_text hps text = inr es ->
  forall e, e ∈ es -> final_label (VmmapEntry.regionType e) /\ heap_labelled e.
Proof.
  intros H e' He'. apply Map_text_entries in H. destruct H as (st' & Hloop & ->).
  apply classify_files_frame in He'.
  destruct He' as (e & label & detail & He & -> & Hcase).
  assert (Hfirst : first_stage_label (VmmapEntry.regionType e) /\ heap_labelled e).
  { apply (Map_loop_entries hps
             (fun x => first_stage_label (VmmapEntry.regionType x) /\ heap_labelled x)
             (getlines text) loop_init st').
    - apply first_stage_labels.
    - intros e0 He0. apply elem_of_nil in He0. contradiction.
    - exact Hloop.
    - exact He. }
  destruct Hfirst as [Hl Hh]. unfold final_label, heap_labelled.
  cbn [VmmapEntry.regionType VmmapEntry.regionDetail VmmapEntry.with_regionType
       VmmapEntry.with_regionDetail].
  destruct Hcase as [(_ & -> & ->) | (_ & _ & [-> | [-> | ->]])].
  - split; [left; exact Hl | exact Hh].
  - split; [left; right; left; reflexivity | discriminate].
  - split; [right; left; reflexivity | discriminate].
  - split; [right; right; reflexivity | discriminate].
Qed.

(** The labels of what [Map] returns: one of six, and MALLOC only with
    the heap marker as detail. *)
Theorem Map_labels (hps : Z) (text : string) (es : list VmmapEntry) :
  Map_text hps text = inr es ->
  forall e, e ∈ es -> final_label (VmmapEntry.regionType e) /\ heap_labelled e.
Proof. exact (Map_text_labels hps text es). Qed.

Lemma Map_text_placeholders hps text es :
  Map_text hps text = inr es ->
  forall e, e ∈ es -> VmmapEntry.shrmod e = "NUL" /\ VmmapEntry.purge e = "".
Proof.
  intros H e' He'. apply Map_text_entries in H. destruct H as (st' & Hloop & ->).
  apply classify_files_fields in He'.
  destruct He' as (e & He & _ & _ & _ & -> & ->).
  apply (Map_loop_placeholders hps (getlines text) loop_init st'); [| exact Hloop | exact He].
  intros e0 He0. apply elem_of_nil in He0. contradiction.
Qed.

Lemma Map_labels_witness :
  Map_text 4096 maps_text = inr maps_entries
  /\ forall e, e ∈ maps_entries ->
       final_label (VmmapEntry.regionType e) /\ heap_labelled e.
Proof.
  assert (H : Map_text 4096 maps_text = inr maps_entries) by (vm_compute; reflexivity).
  split; [exact H |]. exact (Map_labels 4096 maps_text maps_entries H).
Defined.

Lemma in_zone_elem key entries e :
  e ∈ in_zone key entries ->
  e ∈ entries /\ VmmapEntry.IsMalloc e = true /\ VmmapEntry.regionDetail e = key.
Proof.
  unfold in_zone. intros H. apply list_elem_of_In in H. apply filter_In in H.
  destruct H as [Hin Hb]. apply andb_true_iff in Hb. destruct Hb as [Hm Hk].
  apply String.eqb_eq in Hk. apply list_elem_of_In in Hin. auto.
Qed.

Lemma final_label_IsMalloc e :
  final_label (VmmapEntry.regionType e) -> VmmapEntry.IsMalloc e = true ->
  VmmapEntry.regionType e = "MALLOC".
Proof.
  unfold final_label, first_stage_label, VmmapEntry.IsMalloc.
  intros [[H | [H | [H | H]]] | [H | H]]; rewrite H; try reflexivity;
    cbn; discriminate.
Qed.

(** The zone table of what [Map] returns has no row but "HEAP", and that
    row counts every MALLOC entry. *)
Theorem Map_zones_only_heap (hps : Z) (text : string) (es : list VmmapEntry)
    (key : string) (b : VmmapSummaryEntry) :
  Map_text hps text = inr es ->
  malloc_zones es !! key = Some b ->
  key = "HEAP"
  /\ in_zone "HEAP" es = with_type "MALLOC" es
  /\ summary_regions es !! "MALLOC"
     = Some (VmmapSummaryEntry.mk "MALLOC"
               (VmmapSummaryEntry.vsize b) (VmmapSummaryEntry.rss b)
               (VmmapSummaryEntry.dirty b) (VmmapSummaryEntry.swap b)
               0 0 0 (VmmapSummaryEntry.regionCount b)).
Proof.
  intros Hmap Hb. pose proof (Map_text_labels hps text es Hmap) as Hlab.
  pose proof (Map_text_placeholders hps text es Hmap) as Hpl.
  assert (Hsel : in_zone "HEAP" es = with_type "MALLOC" es).
  { unfold in_zone, with_type. apply filter_ext_in. intros e He.
    apply list_elem_of_In in He. destruct (Hlab e He) as [Hl Hh].
    destruct (VmmapEntry.IsMalloc e) eqn:Hm; cbn [andb].
    - pose proof (final_label_IsMalloc e Hl Hm) as Ht. rewrite (Hh Ht), Ht. reflexivity.
    - symmetry. apply String.eqb_neq. intros Ht.
      unfold VmmapEntry.IsMalloc in Hm. rewrite Ht in Hm. discriminate. }
  rewrite malloc_zones_lookup in Hb. apply row_of_Some in Hb. destruct Hb as [Hne ->].
  assert (Hkey : key = "HEAP").
  { destruct (in_zone key es) as [| e sel] eqn:Hz; [congruence |].
    assert (He : e ∈ in_zone key es) by (rewrite Hz; left).
    apply in_zone_elem in He. destruct He as (He & Hm & <-).
    destruct (Hlab e He) as [Hl Hh]. apply Hh. apply final_label_IsMalloc; assumption. }
  subst key. split; [reflexivity |]. split; [exact Hsel |].
  rewrite summary_regions_lookup, <- Hsel.
  destruct (in_zone "HEAP" es) as [| e sel] eqn:Hz; [congruence |].
  cbn [row_of]. f_equal. unfold region_row, zone_row.
  cbn [VmmapSummaryEntry.vsize VmmapSummaryEntry.rss VmmapSummaryEntry.dirty
       VmmapSummaryEntry.swap VmmapSummaryEntry.regionCount].
  assert (Hp : forall state, state <> "" -> purged state (e :: sel) = []).
  { intros state Hs. rewrite Hsel. apply purged_placeholder; [exact Hs |].
    intros x Hx. apply (Hpl x Hx). }
  rewrite !Hp by discriminate. reflexivity.
Qed.

Lemma Map_zones_only_heap_witness :
  Map_text 4096 maps_text = inr maps_entries
  /\ malloc_zones maps_entries !! "HEAP"
     = Some (VmmapSummaryEntry.mk "HEAP" 135168 135168 0 0 0 0 0 1)
  /\ summary_regions maps_entries !! "MALLOC"
     = Some (VmmapSummaryEntry.mk "MALLOC" 135168 135168 0 0 0 0 0 1).
Proof.
  assert (H : Map_text 4096 maps_text = inr maps_entries) by (vm_compute; reflexivity).
  assert (Hz : malloc_zones maps_entries !! "HEAP"
               = Some (VmmapSummaryEntry.mk "HEAP" 135168 135168 0 0 0 0 0 1))
    by (vm_compute; reflexivity).
  split; [exact H |]. split; [exact Hz |].
  exact (proj2 (proj2 (Map_zones_only_heap 4096 maps_text maps_entries "HEAP" _ H Hz))).
Defined.

(** ** The minimal form *)

Lemma with_label_bare hps label detail e :
  bare_entry hps e ->
  bare_entry hps (VmmapEntry.with_regionType label (VmmapEntry.with_regionDetail detail e)).
Proof. destruct e. exact (fun H => H). Qed.

Lemma contains_char_false c s :
  contains_char c s = false -> find_first_of c 0 s = None.
Proof. unfold contains_char. destruct (find_first_of c 0 s); [discriminate | reflexivity]. Qed.

(** On a text of the minimal form (header lines, and lines without a
    colon) every entry [Map] returns has the fall-back values: the size of
    its address range as vsize and rss, no dirty or swapped bytes, the
    host's page size and an unknown maximum protection. *)
Theorem Map_minimal_form (hps : Z) (text : string) (es : list VmmapEntry) :
  forallb minimal_line (getlines text) = true ->
  Map_text hps text = inr es ->
  forall e, e ∈ es -> bare_entry hps e.
Proof.
  intros Hmin H e' He'. apply Map_text_entries in H. destruct H as (st' & Hloop & ->).
  apply classify_files_frame in He'.
  destruct He' as (e & label & detail & He & -> & _).
  apply with_label_bare.
  pose (I := fun s : loop_state =>
    LinuxEntry.tags (currentLinuxEntry s) = ∅
    /\ forall x, x ∈ entries s -> bare_entry hps x).
  assert (HI : I st'); [| exact (proj2 HI e He)].
  apply (Map_loop_invariant hps I (getlines text)) with (st := loop_init);
    [| split; [reflexivity | intros x Hx; apply elem_of_nil in Hx; contradiction]
     | exact Hloop].
  clear e He Hloop. intros st line st1 Hin [Ht Hes] Hline. unfold I.
  apply Map_line_inr in Hline.
  destruct Hline as [(results & a & b & off & _ & _ & _ & _ & _ & Hc & Hes')
                    | (Hm & _ & Hes' & Hc)].
  - split; [rewrite Hc; exact Ht |].
    destruct Hes' as [[_ ->] | (_ & e & Hce & ->)]; [exact Hes |].
    intros x Hx. apply elem_of_app in Hx. destruct Hx as [Hx | Hx]; [apply Hes; exact Hx |].
    apply list_elem_of_singleton in Hx. subst x.
    destruct (LinuxToVmmap_sizes hps _ e Hce Ht) as (Hsa & Hea & Hv & Hr & Hd & Hs & Hp & Hx).
    unfold bare_entry. rewrite Hsa, Hea. repeat split; assumption.
  - rewrite Hes'. split; [| exact Hes].
    destruct Hc as [[_ ->] | (i & j & Hi & _)]; [exact Ht |].
    exfalso. apply list_elem_of_In in Hin.
    pose proof (proj1 (forallb_forall minimal_line _) Hmin line Hin) as Hl.
    unfold minimal_line, is_header in Hl. rewrite Hm in Hl. cbn [orb] in Hl.
    apply negb_true_iff in Hl. apply contains_char_false in Hl. congruence.
Qed.

Lemma Map_minimal_form_witness :
  forallb minimal_line (getlines maps_text) = true
  /\ Map_text 4096 maps_text = inr maps_entries
  /\ forall e, e ∈ maps_entries -> bare_entry 4096 e.
Proof.
  assert (Hmin : forallb minimal_line (getlines maps_text) = true) by (vm_compute; reflexivity).
  assert (H : Map_text 4096 maps_text = inr maps_entries) by (vm_compute; reflexivity).
  split; [exact Hmin |]. split; [exact H |].
  exact (Map_minimal_form 4096 maps_text maps_entries Hmin H).
Defined.

(** ** Attributes outlive their record *)

(** The loop never empties the attribute map: an attribute stays in the
    accumulator, with its value, across every header line and every detail
    line of another label, so a record that does not set a label itself is
    classified with the value an earlier record (or a line before the
    first header) gave it. *)
Theorem attributes_are_inherited (hps : Z) (lines : list string) (st st' : loop_state)
    (key : string) :
  (forall line v, line ∈ lines -> detail_of line <> Some (key, v)) ->
  Map_loop hps st lines = inr st' ->
  LinuxEntry.tags (currentLinuxEntry st') !! key
  = LinuxEntry.tags (currentLinuxEntry st) !! key.
Proof.
  intros Hlines Hloop.
  apply (Map_loop_invariant hps
           (fun s => LinuxEntry.tags (currentLinuxEntry s) !! key
                     = LinuxEntry.tags (currentLinuxEntry st) !! key) lines)
    with (st := st); [| reflexivity | exact Hloop].
  clear st' Hloop. intros s line s' Hin HI Hline. apply Map_line_inr in Hline.
  destruct Hline as [(results & a & b & off & _ & _ & _ & _ & _ & -> & _)
                    | (Hm & _ & _ & Hc)].
  - exact HI.
  - destruct Hc as [[_ ->] | (i & j & Hi & Hj & ->)]; [exact HI |].
    unfold set_tag. cbn [LinuxEntry.tags].
    rewrite lookup_insert_ne; [exact HI |].
    intros Hk. apply (Hlines line (drop_str j line) Hin).
    unfold detail_of. rewrite Hm, Hi, Hj, Hk. reflexivity.
Qed.

Lemma attributes_are_inherited_witness :
  (exists st',
      Map_loop 4096
        (mkLoop false
           (LinuxEntry.mk 4194304 4198400 "r-xp" 0 "08:01" "12345" "/bin/true"
              {[ "Size" := "64 kB" ]}) [])
        [ "00600000-00601000 rw-p 00000000 08:01 12345 /bin/true";
          "Rss:                   4 kB" ] = inr st'
      /\ LinuxEntry.tags (currentLinuxEntry st') !! "Size" = Some "64 kB")
  /\ Map_text 4096 inherit_text
     = inr [ VmmapEntry.mk "__TEXT" 4194304 4198400 65536 65536 0 0 4096 "r-x" "???"
               "NUL" "" "/Volumes/SystemRoot/bin/true";
             VmmapEntry.mk "__DATA" 6291456 6295552 65536 4096 0 0 4096 "rw-" "???"
               "NUL" "" "/Volumes/SystemRoot/bin/true" ].
Proof.
  split; [| vm_compute; reflexivity].
  match goal with |- exists st', ?l = inr st' /\ _ =>
    assert (Hr : exists st', l = inr st') by (vm_compute; eexists; reflexivity)
  end.
  destruct Hr as [st' Hloop]. exists st'. split; [exact Hloop |].
  rewrite (attributes_are_inherited 4096 _ _ st' "Size" ltac:(
    intros line v Hin;
    repeat (apply elem_of_cons in Hin; destruct Hin as [-> | Hin]);
      [vm_compute; discriminate .. | apply elem_of_nil in Hin; contradiction]) Hloop).
  vm_compute. reflexivity.
Defined.

(** ** The second stage, entry by entry *)

(** The second stage works in place: the result has as many entries as
    the list, and the entry at each position is the old one of that
    position with, at most, another label and another path.  An entry that
    is not a file mapping comes back exactly as it was; a file mapping
    gets the system prefix before its path and one of the three file
    labels.  So the order of the entries is kept. *)
Theorem second_pass_frame (entries : list VmmapEntry) :
  length (classify_files entries) = length entries
  /\ forall i e, entries !! i = Some e ->
       exists r,
         classify_files entries !! i = Some r
         /\ VmmapEntry.startAddress r = VmmapEntry.startAddress e
         /\ VmmapEntry.endAddress r = VmmapEntry.endAddress e
         /\ VmmapEntry.vsize r = VmmapEntry.vsize e
         /\ VmmapEntry.rss r = VmmapEntry.rss e
         /\ VmmapEntry.dirty r = VmmapEntry.dirty e
         /\ VmmapEntry.swap r = VmmapEntry.swap e
         /\ VmmapEntry.pageSize r = VmmapEntry.pageSize e
         /\ VmmapEntry.prt r = VmmapEntry.prt e
         /\ VmmapEntry.max r = VmmapEntry.max e
         /\ VmmapEntry.shrmod r = VmmapEntry.shrmod e
         /\ VmmapEntry.purge r = VmmapEntry.purge e
         /\ (VmmapEntry.regionType e <> "mapped file" -> r = e)
         /\ (VmmapEntry.regionType e = "mapped file" ->
             VmmapEntry.regionDetail r = SystemPrefix +:+ VmmapEntry.regionDetail e
             /\ (VmmapEntry.regionType r = "mapped file"
                 \/ VmmapEntry.regionType r = "__TEXT"
                 \/ VmmapEntry.regionType r = "__DATA")).
Proof.
  split; [apply classify_files_length |].
  intros i e Hi. rewrite classify_files_eq, list_lookup_fmap, Hi.
  cbn [fmap option_fmap option_map]. eexists. split; [reflexivity |].
  destruct (relabel_prefixed_frame (snd (prefix_pass entries ∅)) e)
    as (label & detail & -> & Hcase).
  cbn [VmmapEntry.startAddress VmmapEntry.endAddress VmmapEntry.vsize VmmapEntry.rss
       VmmapEntry.dirty VmmapEntry.swap VmmapEntry.pageSize VmmapEntry.prt
       VmmapEntry.max VmmapEntry.shrmod VmmapEntry.purge VmmapEntry.regionType
       VmmapEntry.regionDetail VmmapEntry.with_regionType VmmapEntry.with_regionDetail].
  do 11 (split; [reflexivity |]).
  destruct Hcase as [(Hne & -> & ->) | (Hm & -> & Hl)].
  - split; [intros _; destruct e; reflexivity | intros H; contradiction].
  - split; [intros H; contradiction | intros _; split; [reflexivity | exact Hl]].
Qed.

Lemma second_pass_frame_witness :
  maps_entries !! 1%nat
  = Some (VmmapEntry.mk "MALLOC" 16777216 16912384 135168 135168 0 0 4096 "rw-" "???"
            "NUL" "" "HEAP")
  /\ classify_files maps_entries !! 1%nat
     = Some (VmmapEntry.mk "MALLOC" 16777216 16912384 135168 135168 0 0 4096 "rw-" "???"
               "NUL" "" "HEAP").
Proof.
  split; [reflexivity |].
  destruct (proj2 (second_pass_frame maps_entries) 1%nat _ eq_refl) as (r & Hr & H).
  rewrite Hr. f_equal.
  apply (proj1 (proj2 (proj2 (proj2 (proj2 (proj2 (proj2 (proj2 (proj2 (proj2
           (proj2 (proj2 H)))))))))))).
  discriminate.
Defined.

(** ** ParseSize and padding *)

Lemma stops_app_l p (a b : string) : a <> "" -> stops p a -> stops p (a +:+ b).
Proof. destruct a; [congruence |]. intros _ H. exact H. Qed.

Lemma is_empty_app (a b : string) : a <> "" -> is_empty (a +:+ b) = false.
Proof. destruct a; [congruence | reflexivity]. Qed.

Lemma stops_space_digit (a b : string) :
  str_forall isspace a = true -> stops isdigit b -> stops isdigit (a +:+ b).
Proof.
  destruct a as [| c a]; [intros _ H; exact H |]. intros Ha _.
  cbn in Ha. apply andb_true_iff in Ha. destruct Ha as [Hc _].
  cbn [String.append stops]. rewrite append_cons. cbn [stops].
  destruct (isdigit c) eqn:Hd; [| reflexivity].
  apply isdigit_not_space in Hd. congruence.
Qed.

Lemma word_head_not_space (unit : string) :
  unit <> "" -> str_forall not_space unit = true -> stops isspace unit.
Proof.
  destruct unit as [| c u]; [congruence |]. intros _ H. cbn in H.
  apply andb_true_iff in H. destruct H as [Hc _].
  unfold not_space in Hc. apply negb_true_iff in Hc. exact Hc.
Qed.

Lemma ParseSize_padded ws ds sep unit tail :
  str_forall isspace ws = true ->
  ds <> "" -> str_forall isdigit ds = true -> decimal ds <= SIZE_MAX ->
  str_forall isspace sep = true ->
  unit <> "" -> str_forall not_space unit = true -> stops isdigit unit ->
  stops not_space tail ->
  ParseSize (ws +:+ ds +:+ sep +:+ unit +:+ tail)
  = if String.eqb unit "kB" then inr (mul64 (decimal ds) 1024)
    else if String.eqb unit "MB" then inr (mul64 (mul64 (decimal ds) 1024) 1024)
    else if String.eqb unit "GB"
         then inr (mul64 (mul64 (mul64 (decimal ds) 1024) 1024) 1024)
    else inl (invalid_argument
                ("vmmap: Failed to parse size: "
                 +:+ ws +:+ ds +:+ sep +:+ unit +:+ tail)).
Proof.
  intros Hws Hne Hds Hmax Hsep Hu Hword Hud Htail. unfold ParseSize.
  assert (Hrest : stops isdigit (sep +:+ unit +:+ tail)).
  { apply stops_space_digit; [exact Hsep |]. apply stops_app_l; assumption. }
  assert (Hnum : extract_size_t 0 (stringstream (ws +:+ ds +:+ sep +:+ unit +:+ tail))
                 = (decimal ds, mkStream (sep +:+ unit +:+ tail) false false)).
  { unfold extract_size_t, stringstream, good. cbn [eofbit failbit buf negb andb].
    destruct ds as [| c ds]; [congruence |].
    pose proof Hds as Hds'. cbn in Hds'. apply andb_true_iff in Hds'.
    destruct Hds' as [Hc _].
    rewrite (span_app isspace ws _ Hws); [| rewrite append_cons; exact (isdigit_not_space c Hc)].
    rewrite append_cons, (isdigit_read_sign c _ Hc), <- append_cons.
    rewrite (span_app isdigit (String c ds) _ Hds Hrest).
    cbn [is_empty]. fold (decimal (String c ds)).
    apply Z.leb_le in Hmax. rewrite Hmax.
    assert (He : is_empty (sep +:+ unit +:+ tail) = false).
    { destruct sep; [rewrite append_nil; apply is_empty_app; exact Hu | reflexivity]. }
    rewrite He. reflexivity. }
  rewrite Hnum.
  assert (Hw : extract_word "" (mkStream (sep +:+ unit +:+ tail) false false)
               = (unit, mkStream tail (is_empty tail) false)).
  { unfold extract_word, good. cbn [eofbit failbit buf negb andb].
    rewrite (span_app isspace sep _ Hsep);
      [| apply stops_app_l; [exact Hu | apply word_head_not_space; assumption]].
    rewrite (is_empty_app unit tail Hu).
    change (fun c : ascii => negb (isspace c)) with not_space.
    rewrite (span_app not_space unit tail Hword Htail). reflexivity. }
  rewrite Hw. reflexivity.
Qed.

(** White space before the number and around the unit, and any text that
    follows the unit after a blank, make no difference to [ParseSize]; the
    blank between number and unit may be missing. *)
Theorem ParseSize_ignores_padding (ws ds sep unit tail : string) :
  str_forall isspace ws = true ->
  ds <> "" -> str_forall isdigit ds = true -> decimal ds <= SIZE_MAX ->
  str_forall isspace sep = true ->
  (unit = "kB" \/ unit = "MB" \/ unit = "GB") ->
  stops not_space tail ->
  ParseSize (ws +:+ ds +:+ sep +:+ unit +:+ tail) = ParseSize (ds +:+ " " +:+ unit).
Proof.
  intros Hws Hne Hds Hmax Hsep Hu Htail.
  assert (Hunit : unit <> "" /\ str_forall not_space unit = true /\ stops isdigit unit).
  { destruct Hu as [-> | [-> | ->]]; repeat split; discriminate. }
  destruct Hunit as (Hu1 & Hu2 & Hu3).
  rewrite (ParseSize_padded ws ds sep unit tail Hws Hne Hds Hmax Hsep Hu1 Hu2 Hu3 Htail).
  rewrite (ParseSize_format ds unit Hne Hds Hmax Hu2).
  destruct Hu as [-> | [-> | ->]]; reflexivity.
Qed.

Lemma ParseSize_ignores_padding_witness :
  ParseSize "  16kB (anon)" = ParseSize "16 kB"
  /\ ParseSize "16 kB" = inr 16384.
Proof.
  split; [| vm_compute; reflexivity].
  apply (ParseSize_ignores_padding "  " "16" "" "kB" " (anon)");
    try reflexivity; try discriminate.
  left. reflexivity.
Defined.

(** ** Reading lines *)

Lemma getlines_cons c text :
  getlines (String c text)
  = if Ascii.eqb c "010" then EmptyString :: getlines text
    else match getlines text with
         | l :: ls => String c l :: ls
         | [] => [String c EmptyString]
         end.
Proof. reflexivity. Qed.

Lemma getlines_not_nil text : getlines text <> [].
Proof.
  induction text as [| c text IH]; [discriminate |].
  rewrite getlines_cons. destruct (Ascii.eqb c "010"); [discriminate |].
  destruct (getlines text); [congruence | discriminate].
Qed.

(** The loop reads the text and nothing else: the lines it is given,
    joined by newlines, are the text; no line holds a newline; and there
    is one line more than the text has newlines (the last one empty when
    the text ends in a newline or is empty). *)
Theorem getlines_join (text : string) :
  join_lines (getlines text) = text
  /\ (forall line, line ∈ getlines text -> str_forall not_newline line = true)
  /\ length (getlines text) = S (count_newlines text).
Proof.
  induction text as [| c text (IHj & IHn & IHl)].
  - split; [reflexivity |]. split; [| reflexivity].
    intros line H. apply list_elem_of_singleton in H. subst. reflexivity.
  - rewrite getlines_cons. cbn [count_newlines].
    pose proof (getlines_not_nil text) as Hne.
    destruct (Ascii.eqb_spec c "010") as [-> | Hc].
    + split; [| split].
      * destruct (getlines text) as [| l ls] eqn:Hg; [congruence |].
        cbn [join_lines]. rewrite append_nil. unfold nl. rewrite append_cons, append_nil.
        f_equal. exact IHj.
      * intros line H. apply elem_of_cons in H. destruct H as [-> | H]; [reflexivity |].
        apply IHn. exact H.
      * cbn [length]. rewrite IHl. reflexivity.
    + destruct (getlines text) as [| l ls] eqn:Hg; [congruence |].
      split; [| split].
      * rewrite <- IHj. destruct ls; cbn [join_lines]; [reflexivity |].
        rewrite append_cons. reflexivity.
      * intros line H. apply elem_of_cons in H. destruct H as [-> | H].
        -- cbn [str_forall]. unfold not_newline at 1.
           apply Ascii.eqb_neq in Hc. rewrite Hc. cbn [negb andb].
           apply IHn. left.
        -- apply IHn. right. exact H.
      * cbn [length] in *. rewrite IHl. reflexivity.
Qed.

(** ** The header pattern *)

Lemma regex_run_star cls p s :
  regex_run (Star cls :: p) s
  = match s with
    | String a s' =>
        if cls a then
          match regex_run (Star cls :: p) s' with
          | Some (g :: gs) => Some (String a g :: gs)
          | _ => cons EmptyString <$> regex_run p s
          end
        else cons EmptyString <$> regex_run p s
    | EmptyString => cons EmptyString <$> regex_run p s
    end.
Proof. destruct s; reflexivity. Qed.

Lemma regex_run_sound : forall p s gs,
  regex_run p s = Some gs -> regex_build p gs = Some s.
Proof.
  induction p as [| item p IH]; intros s gs H.
  - cbn in H. destruct s; [| discriminate]. injection H as <-. reflexivity.
  - destruct item as [c | cls].
    + cbn [regex_run] in H. destruct s as [| a s]; [discriminate |].
      destruct (Ascii.eqb_spec a c) as [-> | _]; [| discriminate].
      cbn [regex_build]. rewrite (IH _ _ H). reflexivity.
    + assert (Hstop : forall s gs,
                cons EmptyString <$> regex_run p s = Some gs ->
                regex_build (Star cls :: p) gs = Some s).
      { intros s0 gs0 H0. destruct (regex_run p s0) as [gs' |] eqn:Hr; [| discriminate].
        injection H0 as <-. cbn [regex_build str_forall]. rewrite (IH _ _ Hr). reflexivity. }
      revert gs H. induction s as [| a s IHs]; intros gs H; rewrite regex_run_star in H.
      * apply Hstop. exact H.
      * destruct (cls a) eqn:Ha; [| apply Hstop; exact H].
        destruct (regex_run (Star cls :: p) s) as [[| g gs'] |] eqn:Hr;
          try (apply Hstop; exact H).
        injection H as <-. specialize (IHs _ eq_refl).
        cbn [regex_build] in IHs |- *. cbn [str_forall]. rewrite Ha. cbn [andb].
        destruct (str_forall cls g); [| discriminate].
        destruct (regex_build p gs') as [t |]; [| discriminate].
        cbn in IHs |- *. injection IHs as <-. reflexivity.
Qed.

Lemma regex_match_groups line r :
  regex_match line = Some r ->
  exists s1 s2 s3 s4 s5,
    regex_run regex line
    = Some [m1 r; m2 r; s1; m3 r; s2; m4 r; s3; m5 r; m6 r; s4; m7 r; s5; m8 r].
Proof.
  unfold regex_match. destruct (regex_run regex line) as [gs |]; [| discriminate].
  do 13 (destruct gs as [| ? gs]; [discriminate |]).
  destruct gs; [| discriminate].
  intros H. injection H as <-. cbn [m1 m2 m3 m4 m5 m6 m7 m8].
  eexists _, _, _, _, _. reflexivity.
Qed.

(** A line the pattern matches is its eight captures in order, with a
    dash after the first, a colon between the fifth and the sixth, and
    runs of white space where the pattern allows them; the first, second
    and fourth to seventh captures are hexadecimal digits and the third is
    made of the letters r, w, x, s, p and the dash. *)
Theorem header_line_shape (line : string) (r : smatch) :
  regex_match line = Some r ->
  exists s1 s2 s3 s4 s5,
    line = m1 r +:+ "-" +:+ m2 r +:+ s1 +:+ m3 r +:+ s2 +:+ m4 r +:+ s3
           +:+ m5 r +:+ ":" +:+ m6 r +:+ s4 +:+ m7 r +:+ s5 +:+ m8 r
    /\ str_forall isspace s1 = true /\ str_forall isspace s2 = true
    /\ str_forall isspace s3 = true /\ str_forall isspace s4 = true
    /\ str_forall isspace s5 = true
    /\ str_forall isxdigit (m1 r) = true /\ str_forall isxdigit (m2 r) = true
    /\ str_forall cls_perm (m3 r) = true /\ str_forall isxdigit (m4 r) = true
    /\ str_forall isxdigit (m5 r) = true /\ str_forall isxdigit (m6 r) = true
    /\ str_forall isxdigit (m7 r) = true.
Proof.
  intros H. apply regex_match_groups in H. destruct H as (s1 & s2 & s3 & s4 & s5 & H).
  apply regex_run_sound in H. exists s1, s2, s3, s4, s5.
  unfold regex in H. cbn [regex_build] in H.
  repeat match type of H with
         | context [str_forall ?c ?g] =>
             let E := fresh "E" in destruct (str_forall c g) eqn:E; [| discriminate]
         end.
  cbn [fmap option_fmap option_map] in H. injection H as <-.
  rewrite append_empty_r.
  repeat split; try assumption.
Qed.

Lemma header_line_shape_witness :
  regex_match "00400000-00401000 r-xp 00000000 08:01 12345 /bin/true"
  = Some (mkMatch "00400000" "00401000" "r-xp" "00000000" "08" "01" "12345" "/bin/true")
  /\ exists s1 s2 s3 s4 s5,
       "00400000-00401000 r-xp 00000000 08:01 12345 /bin/true"
       = "00400000" +:+ "-" +:+ "00401000" +:+ s1 +:+ "r-xp" +:+ s2 +:+ "00000000" +:+ s3
         +:+ "08" +:+ ":" +:+ "01" +:+ s4 +:+ "12345" +:+ s5 +:+ "/bin/true".
Proof.
  assert (H : regex_match "00400000-00401000 r-xp 00000000 08:01 12345 /bin/true"
              = Some (mkMatch "00400000" "00401000" "r-xp" "00000000" "08" "01" "12345"
                        "/bin/true")) by (vm_compute; reflexivity).
  split; [exact H |].
  destruct (header_line_shape _ _ H) as (s1 & s2 & s3 & s4 & s5 & Hl & _).
  exists s1, s2, s3, s4, s5. exact Hl.
Defined.

Lemma stoull16_empty : stoull16 "" = inl (invalid_argument "stoull").
Proof. reflexivity. Qed.

(** A header line whose start, end or offset capture is empty ends the
    request: converting the empty text throws, unless classifying the
    record before it or converting an earlier capture threw already. *)
Theorem header_needs_numbers (hps : Z) (st : loop_state) (line : string) (r : smatch)
    (rest : list string) :
  regex_match line = Some r ->
  m1 r = "" \/ m2 r = "" \/ m4 r = "" ->
  (exists err, Map_line hps st line = inl err)
  /\ (exists err, Map_loop hps st (line :: rest) = inl err)
  /\ (firstLine st = true -> m1 r = "" ->
      exists what, Map_line hps st line = inl (invalid_argument what)).
Proof.
  intros Hm Hempty.
  assert (Hline : exists err, Map_line hps st line = inl err).
  { unfold Map_line. rewrite Hm.
    match goal with |- exists err, bind ?m _ = _ => destruct m as [e | es] end;
      [exists e; reflexivity |].
    cbn [bind].
    destruct (stoull16 (m1 r)) as [e | a] eqn:H1; [exists e; reflexivity |].
    destruct (stoull16 (m2 r)) as [e | b] eqn:H2; [exists e; reflexivity |].
    destruct (stoull16 (m4 r)) as [e | off] eqn:H4; [exists e; reflexivity |].
    exfalso. destruct Hempty as [He | [He | He]]; rewrite He in *;
      rewrite stoull16_empty in *; discriminate. }
  split; [exact Hline |]. split.
  - destruct Hline as [err Herr]. exists err. rewrite Map_loop_cons, Herr. reflexivity.
  - intros Hf He. exists "stoull". unfold Map_line. rewrite Hm, Hf, He. reflexivity.
Qed.

Lemma header_needs_numbers_witness :
  regex_match "-00401000 r-xp 00000000 08:01 12345 /bin/true"
  = Some (mkMatch "" "00401000" "r-xp" "00000000" "08" "01" "12345" "/bin/true")
  /\ exists what,
       Map_line 4096 loop_init "-00401000 r-xp 00000000 08:01 12345 /bin/true"
       = inl (invalid_argument what).
Proof.
  assert (H : regex_match "-00401000 r-xp 00000000 08:01 12345 /bin/true"
              = Some (mkMatch "" "00401000" "r-xp" "00000000" "08" "01" "12345"
                        "/bin/true")) by (vm_compute; reflexivity).
  split; [exact H |].
  apply (proj2 (proj2 (header_needs_numbers 4096 loop_init _ _ [] H (or_introl eq_refl))));
    reflexivity.
Defined.

(** ** Truncation *)

Lemma length_append (a b : string) :
  String.length (a +:+ b) = (String.length a + String.length b)%nat.
Proof.
  induction a as [| c a IH]; [reflexivity |].
  rewrite append_cons. cbn [String.length]. rewrite IH. reflexivity.
Qed.

Lemma length_fill n c : String.length (fill n c) = n.
Proof. induction n as [| n IH]; cbn; [reflexivity | rewrite IH; reflexivity]. Qed.

Lemma take_drop_str : forall n s, take_str n s +:+ drop_str n s = s.
Proof.
  induction n as [| n IH]; intros s.
  - destruct s; reflexivity.
  - destruct s as [| c s]; [reflexivity |].
    cbn [take_str drop_str]. rewrite append_cons, IH. reflexivity.
Qed.

Lemma length_take_str : forall n s,
  (n <= String.length s)%nat -> String.length (take_str n s) = n.
Proof.
  induction n as [| n IH]; intros s Hn.
  - destruct s; reflexivity.
  - destruct s as [| c s]; cbn [String.length] in Hn; [lia |].
    cbn [take_str String.length]. rewrite IH by lia. reflexivity.
Qed.

Lemma length_drop_str n s :
  (n <= String.length s)%nat -> String.length (drop_str n s) = (String.length s - n)%nat.
Proof.
  intros Hn. pose proof (f_equal String.length (take_drop_str n s)) as H.
  rewrite length_append, (length_take_str n s Hn) in H. lia.
Qed.

Lemma TruncateStringPrefix_spec' (str : string) (maxLength : Z) :
  0 <= maxLength ->
  (maxLength < 3 -> TruncateStringPrefix str maxLength = fill (Z.to_nat maxLength) ".")
  /\ (3 <= maxLength -> Z.of_nat (String.length str) <= maxLength ->
      TruncateStringPrefix str maxLength = str)
  /\ (3 <= maxLength -> maxLength < Z.of_nat (String.length str) ->
      exists head tail,
        str = head +:+ tail
        /\ TruncateStringPrefix str maxLength = "..." +:+ tail
        /\ Z.of_nat (String.length tail) = maxLength - 3)
  /\ Z.of_nat (String.length (TruncateStringPrefix str maxLength)) <= maxLength.
Proof.
  intros H0. unfold TruncateStringPrefix.
  destruct (Z.ltb_spec maxLength 3) as [Hlt | Hge].
  - split; [reflexivity |]. split; [lia |]. split; [lia |].
    rewrite length_fill. lia.
  - destruct (Z.leb_spec (Z.of_nat (String.length str)) maxLength) as [Hfit | Hlong].
    + split; [lia |]. split; [reflexivity |]. split; [lia | exact Hfit].
    + cbv zeta.
      set (n := (String.length str - Z.to_nat (maxLength - 3))%nat).
      assert (Hn : (n <= String.length str)%nat) by (subst n; lia).
      assert (Hlen : Z.of_nat (String.length (drop_str n str)) = maxLength - 3).
      { rewrite (length_drop_str n str Hn). subst n. lia. }
      split; [lia |]. split; [lia |]. split.
      * intros _ _. exists (take_str n str), (drop_str n str).
        split; [symmetry; apply take_drop_str |]. split; [reflexivity | exact Hlen].
      * rewrite length_append. cbn [String.length]. lia.
Qed.

(** [TruncateStringPrefix] with a limit of 3 or more returns a text that
    fits and keeps the end: a text within the limit comes back whole, a
    longer one as three dots and its last [maxLength - 3] characters.
    With a limit below 3 the result is that many dots, whatever the text. *)
Theorem TruncateStringPrefix_spec (str : string) (maxLength : Z) :
  0 <= maxLength ->
  (maxLength < 3 -> TruncateStringPrefix str maxLength = fill (Z.to_nat maxLength) ".")
  /\ (3 <= maxLength -> Z.of_nat (String.length str) <= maxLength ->
      TruncateStringPrefix str maxLength = str)
  /\ (3 <= maxLength -> maxLength < Z.of_nat (String.length str) ->
      exists head tail,
        str = head +:+ tail
        /\ TruncateStringPrefix str maxLength = "..." +:+ tail
        /\ Z.of_nat (String.length tail) = maxLength - 3)
  /\ Z.of_nat (String.length (TruncateStringPrefix str maxLength)) <= maxLength.
Proof. exact (TruncateStringPrefix_spec' str maxLength). Qed.

Lemma TruncateStringPrefix_spec_witness :
  (exists head tail,
      "/Volumes/SystemRoot/bin/true" = head +:+ tail
      /\ TruncateStringPrefix "/Volumes/SystemRoot/bin/true" 12 = "..." +:+ tail
      /\ Z.of_nat (String.length tail) = 12 - 3)
  /\ TruncateStringPrefix "/Volumes/SystemRoot/bin/true" 12 = ".../bin/true"
  /\ TruncateStringPrefix "/bin/true" 12 = "/bin/true"
  /\ TruncateStringPrefix "a" 2 = "..".
Proof.
  split; [| split; [| split]].
  - apply (proj1 (proj2 (proj2 (TruncateStringPrefix_spec
             "/Volumes/SystemRoot/bin/true" 12 ltac:(lia)))));
      [lia | cbn; lia].
  - vm_compute. reflexivity.
  - apply (proj1 (proj2 (TruncateStringPrefix_spec "/bin/true" 12 ltac:(lia))));
      [lia | cbn; lia].
  - apply (proj1 (TruncateStringPrefix_spec "a" 2 ltac:(lia))). lia.
Defined.

(** [TruncateStringSuffix] with a limit of 3 or more returns a text that
    fits and keeps the beginning: a text within the limit comes back
    whole, a longer one as its first [maxLength - 3] characters and three
    dots.  With a limit below 3 the result is that many dots. *)
Theorem TruncateStringSuffix_spec (str : string) (maxLength : Z) :
  0 <= maxLength ->
  (maxLength < 3 -> TruncateStringSuffix str maxLength = fill (Z.to_nat maxLength) ".")
  /\ (3 <= maxLength -> Z.of_nat (String.length str) <= maxLength ->
      TruncateStringSuffix str maxLength = str)
  /\ (3 <= maxLength -> maxLength < Z.of_nat (String.length str) ->
      exists head tail,
        str = head +:+ tail
        /\ TruncateStringSuffix str maxLength = head +:+ "..."
        /\ Z.of_nat (String.length head) = maxLength - 3)
  /\ Z.of_nat (String.length (TruncateStringSuffix str maxLength)) <= maxLength.
Proof.
  intros H0. unfold TruncateStringSuffix.
  destruct (Z.ltb_spec maxLength 3) as [Hlt | Hge].
  - split; [reflexivity |]. split; [lia |]. split; [lia |].
    rewrite length_fill. lia.
  - destruct (Z.leb_spec (Z.of_nat (String.length str)) maxLength) as [Hfit | Hlong].
    + split; [lia |]. split; [reflexivity |]. split; [lia | exact Hfit].
    + cbv zeta.
      set (n := Z.to_nat (maxLength - 3)).
      assert (Hn : (n <= String.length str)%nat) by (subst n; lia).
      assert (Hlen : Z.of_nat (String.length (take_str n str)) = maxLength - 3).
      { rewrite (length_take_str n str Hn). subst n. lia. }
      split; [lia |]. split; [lia |]. split.
      * intros _ _. exists (take_str n str), (drop_str n str).
        split; [symmetry; apply take_drop_str |]. split; [reflexivity | exact Hlen].
      * rewrite length_append. cbn [String.length]. lia.
Qed.

Lemma TruncateStringSuffix_spec_witness :
  TruncateStringSuffix "mapped file" 30 = "mapped file"
  /\ Z.of_nat (String.length (TruncateStringSuffix "a region type of some length" 10)) <= 10.
Proof.
  split.
  - apply (proj1 (proj2 (TruncateStringSuffix_spec "mapped file" 30 ltac:(lia))));
      [lia | cbn; lia].
  - apply (TruncateStringSuffix_spec "a region type of some length" 10). lia.
Defined.

(** ** The columns of the region table *)

(** Unless standard output is a terminal and -wide is off, the detail
    column shows the whole detail.  On a terminal of 105 columns or fewer
    (the usual 80 among them) it is empty for every entry: the width left
    for it is 0. *)
Theorem detail_column_width (ws_col : option Z) (args : VmmapArgs) (entry : VmmapEntry) :
  (ws_col = None \/ wide args = true ->
   Z.of_nat (String.length (VmmapEntry.regionDetail entry)) <= SIZE_MAX ->
   detail_column ws_col args entry = VmmapEntry.regionDetail entry)
  /\ (forall width, ws_col = Some width -> wide args = false -> 0 <= width <= 105 ->
        detail_column ws_col args entry = "")
  /\ (forall width, ws_col = Some width -> wide args = false -> 105 <= width <= 65535 ->
        Z.of_nat (String.length (detail_column ws_col args entry)) <= width - 105).
Proof.
  unfold detail_column. split; [| split].
  - intros Hfull Hlen.
    assert (Hw : wrap64 (REGION_DETAIL_WIDTH ws_col args) = SIZE_MAX).
    { unfold REGION_DETAIL_WIDTH. cbv zeta.
      destruct Hfull as [-> | Hwide]; [reflexivity |].
      rewrite Hwide. destruct ws_col; reflexivity. }
    rewrite Hw.
    apply (proj1 (proj2 (TruncateStringPrefix_spec' _ SIZE_MAX ltac:(discriminate))));
      [discriminate | exact Hlen].
  - intros width -> Hwide Hw.
    assert (H0 : wrap64 (REGION_DETAIL_WIDTH (Some width) args) = 0).
    { unfold REGION_DETAIL_WIDTH. cbv zeta. rewrite Hwide. cbn [negb].
      rewrite Z.max_l by lia. reflexivity. }
    rewrite H0. reflexivity.
  - intros width -> Hwide Hw.
    assert (H0 : wrap64 (REGION_DETAIL_WIDTH (Some width) args) = width - 105).
    { unfold REGION_DETAIL_WIDTH. cbv zeta. rewrite Hwide. cbn [negb].
      rewrite Z.max_r by lia. rewrite wrap64_small by (unfold SIZE_MAX; lia). lia. }
    rewrite H0. apply TruncateStringPrefix_spec'. lia.
Qed.

Lemma detail_column_width_witness :
  detail_column (Some 80)
    (mkArgs 4242 false false false false false false false false false false)
    (file_entry "r-x" "/Volumes/SystemRoot/bin/true") = ""
  /\ detail_column None
       (mkArgs 4242 false false false false false false false false false false)
       (file_entry "r-x" "/Volumes/SystemRoot/bin/true") = "/Volumes/SystemRoot/bin/true".
Proof.
  split.
  - apply (proj1 (proj2 (detail_column_width (Some 80)
             (mkArgs 4242 false false false false false false false false false false)
             (file_entry "r-x" "/Volumes/SystemRoot/bin/true"))) 80);
      [reflexivity | reflexivity | lia].
  - apply (proj1 (detail_column_width None
             (mkArgs 4242 false false false false false false false false false false)
             (file_entry "r-x" "/Volumes/SystemRoot/bin/true")));
      [left; reflexivity | vm_compute; discriminate].
Defined.

(** [FormatData] prints the size in K below 9999 K, in M below 1 G and in
    G from there on, always rounded towards zero; so the number before K
    is at most 9998 (and any negative size is printed in K), the number
    before M lies between 9 and 1023, and the number before G is at
    least 1. *)
Theorem FormatData_units (bytes : Z) (sep : string) :
  exists n u,
    FormatData bytes sep = to_string n +:+ sep +:+ u
    /\ ((u = "K" /\ bytes < 9999 * 1024 /\ n = bytes ÷ 1024 /\ n <= 9998)
        \/ (u = "M" /\ 9999 * 1024 <= bytes < 2 ^ 30 /\ n = bytes ÷ 2 ^ 20
            /\ 9 <= n <= 1023)
        \/ (u = "G" /\ 2 ^ 30 <= bytes /\ n = bytes ÷ 2 ^ 30 /\ 1 <= n)).
Proof.
  unfold FormatData.
  destruct (Z.ltb_spec bytes (9999 * 1024)) as [HK | HK].
  - exists (bytes ÷ 1024), "K". split; [reflexivity |]. left.
    repeat split; [exact HK |].
    destruct (Z.le_gt_cases 0 bytes) as [Hpos | Hneg].
    + rewrite Z.quot_div_nonneg by lia.
      assert (bytes / 1024 < 9999) by (apply Z.div_lt_upper_bound; lia). lia.
    + pose proof (Z.quot_rem' bytes 1024) as Hq.
      pose proof (Z.rem_bound_pos_neg bytes 1024 ltac:(lia) ltac:(lia)) as Hr. lia.
  - destruct (Z.ltb_spec bytes (1024 * 1024 * 1024)) as [HM | HM].
    + exists (bytes ÷ (1024 * 1024)), "M". split; [reflexivity |]. right. left.
      change (2 ^ 30) with (1024 * 1024 * 1024). change (2 ^ 20) with (1024 * 1024).
      repeat split; try lia.
      * rewrite Z.quot_div_nonneg by lia. apply Z.div_le_lower_bound; lia.
      * rewrite Z.quot_div_nonneg by lia.
        assert (bytes / (1024 * 1024) < 1024) by (apply Z.div_lt_upper_bound; lia). lia.
    + exists (bytes ÷ (1024 * 1024 * 1024)), "G". split; [reflexivity |]. right. right.
      change (2 ^ 30) with (1024 * 1024 * 1024).
      repeat split; try lia.
      rewrite Z.quot_div_nonneg by lia. apply Z.div_le_lower_bound; lia.
Qed.

Lemma PagesOrKilobytes_defined' (bytes pageSize : Z) (pages : bool) :
  PagesOrKilobytes bytes pageSize pages = Undefined -> pages = true /\ pageSize = 0.
Proof.
  unfold PagesOrKilobytes. destruct pages; [| discriminate].
  destruct (Z.eqb_spec pageSize 0) as [-> | Hne]; [split; reflexivity | discriminate].
Qed.

(** A size column has no defined text exactly when pages are asked for
    and the entry's page size is 0; with a positive page size it shows the
    whole pages the bytes hold. *)
Theorem PagesOrKilobytes_defined (bytes pageSize : Z) (pages : bool) :
  (PagesOrKilobytes bytes pageSize pages = Undefined <-> pages = true /\ pageSize = 0)
  /\ (pages = true -> 0 < pageSize -> 0 <= bytes ->
      exists n, PagesOrKilobytes bytes pageSize pages = Returns (to_string n)
                /\ n * pageSize <= bytes < (n + 1) * pageSize)
  /\ (pages = false -> 0 <= bytes < 2 ^ 63 ->
      PagesOrKilobytes bytes pageSize pages = Returns (FormatData bytes " ")).
Proof.
  unfold PagesOrKilobytes. split; [| split].
  - destruct pages.
    + destruct (Z.eqb_spec pageSize 0) as [-> | Hne].
      * split; [intros _; split; reflexivity | reflexivity].
      * split; [discriminate | intros [_ H]; contradiction].
    + split; [discriminate | intros [H _]; discriminate].
  - intros -> Hps Hb. destruct (Z.eqb_spec pageSize 0) as [-> | _]; [lia |].
    exists (bytes / pageSize). split; [reflexivity |].
    pose proof (Z.div_mod bytes pageSize ltac:(lia)) as Hd.
    pose proof (Z.mod_pos_bound bytes pageSize Hps) as Hm. nia.
  - intros -> Hb. do 2 f_equal. unfold to_intptr.
    rewrite wrap64_small by (unfold SIZE_MAX; lia).
    destruct (Z.ltb_spec bytes (2 ^ 63)); [reflexivity | lia].
Qed.

Lemma PagesOrKilobytes_defined_witness :
  PagesOrKilobytes 8192 0 true = Undefined
  /\ exists n, PagesOrKilobytes 10000 4096 true = Returns (to_string n)
               /\ n * 4096 <= 10000 < (n + 1) * 4096.
Proof.
  pose proof (PagesOrKilobytes_defined 8192 0 true) as (Hu & _).
  pose proof (PagesOrKilobytes_defined 10000 4096 true) as (_ & Hp & _).
  split.
  - apply Hu. split; reflexivity.
  - apply Hp; [reflexivity | lia | lia].
Defined.

(** Every size column of every entry [Map] returns has a defined text,
    with or without -pages, when the KernelPageSize lines of the text (if
    any) carry the host's positive page size. *)
Theorem size_columns_of_Map (hps : Z) (text : string) (es : list VmmapEntry)
    (args : VmmapArgs) :
  0 < hps <= SIZE_MAX ->
  forallb (page_ok hps) (getlines text) = true ->
  Map_text hps text = inr es ->
  forall e column, e ∈ es -> column ∈ size_columns args e -> column <> Undefined.
Proof.
  intros Hhps Hok H e' column He' Hcol.
  apply Map_text_entries in H. destruct H as (st' & Hloop & ->).
  apply classify_files_fields in He'. destruct He' as (e & He & _ & _ & Hps & _).
  assert (Hpage : VmmapEntry.pageSize e = hps).
  { apply (Map_loop_pages hps (getlines text) loop_init st' Hhps
             (page_ok_sound hps _ Hok)); [| | exact Hloop | exact He].
    - intros e0 He0. apply elem_of_nil in He0. contradiction.
    - intros v Hv. cbn in Hv. rewrite lookup_empty in Hv. discriminate. }
  unfold size_columns in Hcol. rewrite Hps, Hpage in Hcol.
  intros Hundef. subst column.
  repeat (apply elem_of_cons in Hcol; destruct Hcol as [Hcol | Hcol];
          [symmetry in Hcol; apply PagesOrKilobytes_defined' in Hcol; lia |]).
  apply elem_of_nil in Hcol. contradiction.
Qed.

Lemma size_columns_of_Map_witness :
  0 < 4096 <= SIZE_MAX
  /\ forallb (page_ok 4096) (getlines plain_text) = true
  /\ Map_text 4096 plain_text = inr plain_entries
  /\ forall e column args, e ∈ plain_entries -> column ∈ size_columns args e ->
       column <> Undefined.
Proof.
  assert (Hhps : 0 < 4096 <= SIZE_MAX) by (split; [reflexivity | discriminate]).
  assert (Hok : forallb (page_ok 4096) (getlines plain_text) = true)
    by (vm_compute; reflexivity).
  assert (H : Map_text 4096 plain_text = inr plain_entries) by (vm_compute; reflexivity).
  split; [exact Hhps |]. split; [exact Hok |]. split; [exact H |].
  intros e column args.
  exact (size_columns_of_Map 4096 plain_text plain_entries args Hhps Hok H e column).
Defined.

(** ** The totals of the summary *)

Lemma to_intptr_add a b : to_intptr (to_intptr a + b) = to_intptr (a + b).
Proof.
  assert (H : wrap64 (to_intptr a + b) = wrap64 (a + b)).
  { unfold wrap64. rewrite <- Zplus_mod_idemp_l.
    fold (wrap64 (to_intptr a)). rewrite wrap64_to_intptr. unfold wrap64.
    apply Zplus_mod_idemp_l. }
  generalize dependent (to_intptr a + b). intros z Hz.
  unfold to_intptr. cbv zeta. rewrite Hz. reflexivity.
Qed.

Lemma fold_add_totals entries :
  fold_left add_totals entries (0, 0, 0, 0, 0)
  = (to_intptr (total VmmapEntry.vsize (summary_readonly entries)),
     to_intptr (total VmmapEntry.rss (summary_readonly entries)),
     to_intptr (total VmmapEntry.vsize (summary_writable entries)),
     to_intptr (total VmmapEntry.rss (summary_writable entries)),
     to_intptr (total VmmapEntry.swap (summary_writable entries))).
Proof.
  induction entries as [| e entries IH] using rev_ind; [reflexivity |].
  rewrite fold_left_app, IH. cbn [fold_left]. unfold add_totals.
  unfold summary_readonly, summary_writable. rewrite !List.filter_app. cbn [List.filter].
  fold (write_slot e). destruct (write_slot e); cbn [negb andb].
  - rewrite ?app_nil_r, ?to_intptr_add, ?total_app, ?total_one. reflexivity.
  - destruct (String.eqb (VmmapEntry.regionType e) "__TEXT").
    + rewrite ?app_nil_r, ?to_intptr_add, ?total_app, ?total_one. reflexivity.
    + rewrite ?app_nil_r. reflexivity.
Qed.

(** The two headline totals of [PrintSummary]: the writable total, its
    resident and swapped parts are the sums over the entries whose write
    slot is 'w'; the read-only total and its resident part are the sums
    over the other entries that are labelled "__TEXT"; all as [intptr_t],
    and the same for every order of the entries. *)
Theorem PrintSummary_totals (round_percent : Z -> Z -> option Z)
    (entries : list VmmapEntry) (args : VmmapArgs) (t : SummaryTable) :
  PrintSummary round_percent entries args = Returns t ->
  writeTotal t = to_intptr (total VmmapEntry.vsize (summary_writable entries))
  /\ writeRss t = to_intptr (total VmmapEntry.rss (summary_writable entries))
  /\ writeSwap t = to_intptr (total VmmapEntry.swap (summary_writable entries))
  /\ readOnlyTotal t = to_intptr (total VmmapEntry.vsize (summary_readonly entries))
  /\ readOnlyRss t = to_intptr (total VmmapEntry.rss (summary_readonly entries))
  /\ (forall entries' t', Permutation entries entries' ->
        PrintSummary round_percent entries' args = Returns t' ->
        (readOnlyTotal t', readOnlyRss t', writeTotal t', writeRss t', writeSwap t')
        = (readOnlyTotal t, readOnlyRss t, writeTotal t, writeRss t, writeSwap t)).
Proof.
  assert (Hret : forall es x,
            PrintSummary round_percent es args = Returns x ->
            (readOnlyTotal x, readOnlyRss x, writeTotal x, writeRss x, writeSwap x)
            = fold_left add_totals es (0, 0, 0, 0, 0)).
  { intros es x. destruct es as [| e es]; [rewrite PrintSummary_nil; discriminate |].
    rewrite PrintSummary_cons.
    destruct (fold_left add_totals (e :: es) (0, 0, 0, 0, 0)) as [[[[a b] c] d] f].
    destruct (print_totals round_percent (a, b, c, d, f)); try discriminate.
    destruct (pages args && (VmmapEntry.pageSize e =? 0)); [discriminate |].
    intros H. injection H as <-. reflexivity. }
  intros H. pose proof (Hret _ _ H) as Ht. rewrite fold_add_totals in Ht.
  injection Ht as H1 H2 H3 H4 H5.
  repeat (split; [assumption |]).
  intros entries' t' Hp H'. rewrite (Hret _ _ H'), (Hret _ _ H), !fold_add_totals.
  unfold summary_readonly, summary_writable.
  rewrite !(total_Permutation _ _ _ (filter_Permutation _ _ _ Hp)). reflexivity.
Qed.

Lemma PrintSummary_totals_witness :
  exists t,
    PrintSummary exact_percent plain_entries plain_args = Returns t
    /\ writeTotal t = 8192 /\ readOnlyTotal t = 4096.
Proof.
  destruct (PrintSummary exact_percent plain_entries plain_args)
    as [t | e | e |] eqn:H; [| exfalso; vm_compute in H; discriminate ..].
  exists t. split; [reflexivity |].
  destruct (PrintSummary_totals _ _ _ t H) as (Hw & _ & _ & Hr & _).
  rewrite Hw, Hr. split; vm_compute; reflexivity.
Defined.

(** ** Totals of zero *)

Lemma print_totals_needs_totals round_percent a b c d f :
  a = 0 \/ c = 0 -> print_totals round_percent (a, b, c, d, f) = Undefined.
Proof.
  intros [-> | ->]; [reflexivity |]. unfold print_totals.
  destruct (Percent_cases round_percent b a) as [-> | [? ->]]; [reflexivity |].
  cbn [and_then].
  destruct (sub_intptr_cases a b) as [-> | [? ->]]; [reflexivity |]. cbn [and_then].
  match goal with |- context [and_then (Percent round_percent ?x ?y) _] =>
    destruct (Percent_cases round_percent x y) as [-> | [? ->]]; [reflexivity |] end.
  reflexivity.
Qed.

(** [PrintSummary] prints each total with its parts as percentages of it.
    When the read-only total or the writable total is 0 the percentage
    has no value and the summary no defined result: so for every list
    without a writable entry, and for every list whose entries labelled
    "__TEXT" are all writable or missing. *)
Theorem PrintSummary_needs_totals (round_percent : Z -> Z -> option Z)
    (entries : list VmmapEntry) (args : VmmapArgs) :
  to_intptr (total VmmapEntry.vsize (summary_readonly entries)) = 0
  \/ to_intptr (total VmmapEntry.vsize (summary_writable entries)) = 0 ->
  PrintSummary round_percent entries args = Undefined.
Proof.
  intros H. destruct entries as [| e rest]; [reflexivity |].
  rewrite PrintSummary_cons, fold_add_totals.
  rewrite print_totals_needs_totals by exact H. reflexivity.
Qed.

Lemma PrintSummary_needs_totals_witness :
  summary_readonly [zone_entry 100 100] = []
  /\ PrintSummary exact_percent [zone_entry 100 100] plain_args = Undefined.
Proof.
  split; [reflexivity |].
  apply (PrintSummary_needs_totals exact_percent [zone_entry 100 100] plain_args).
  left. reflexivity.
Defined.

(** ** The two tables of Print *)

Lemma partition_Permutation (entries : list VmmapEntry) :
  Permutation
    (filter (fun e => is_writable e = false) entries
     ++ filter (fun e => is_writable e = true) entries)
    entries.
Proof.
  induction entries as [| e entries IH]; [constructor |].
  rewrite !filter_cons. destruct (is_writable e) eqn:Hw.
  - destruct (decide (true = false)) as [Hd | _]; [discriminate |].
    destruct (decide (true = true)) as [_ | Hd]; [| congruence].
    rewrite <- Permutation_middle. constructor. exact IH.
  - destruct (decide (false = false)) as [_ | Hd]; [| congruence].
    destruct (decide (false = true)) as [Hd | _]; [discriminate |].
    cbn [app]. constructor. exact IH.
Qed.

(** Without -summary and -interleaved, [Print] shows two tables: the
    entries whose protection has no 'w', then those whose protection has
    one, each in the order of the list; together they hold every entry
    exactly once.  With -interleaved it shows the list as it is. *)
Theorem Print_tables
    (round_percent : Z -> Z -> option Z)
    (PrintOverview : list VmmapEntry -> VmmapArgs -> result unit)
    (GetProcessName : Z -> result string)
    (entries : list VmmapEntry) (args : VmmapArgs) (r : Report) :
  Print round_percent PrintOverview GetProcessName entries args = Returns r ->
  summary args = false ->
  (interleaved args = true -> core_tables r = [entries])
  /\ (interleaved args = false ->
      exists nonWritable writable,
        core_tables r = [nonWritable; writable]
        /\ Permutation (nonWritable ++ writable) entries
        /\ sublist nonWritable entries /\ sublist writable entries
        /\ (forall e, e ∈ writable <-> e ∈ entries /\ is_writable e = true)
        /\ (forall e, e ∈ nonWritable <-> e ∈ entries /\ is_writable e = false)).
Proof.
  unfold Print. intros H Hs. rewrite Hs in H. cbn [negb] in H.
  destruct (forkCorpse args); [discriminate |].
  destruct (PrintOverview entries args) as [? | ?]; [discriminate |].
  destruct (GetProcessName (pid args)) as [? | ?]; [discriminate |].
  destruct entries as [| e0 rest]; [discriminate |]. cbn [front_pageSize] in H.
  destruct (for_each _ _); cbn [and_then] in H; try discriminate.
  destruct (PrintSummary round_percent (e0 :: rest) args) as [t | ? | ? |];
    cbn [and_then] in H; try discriminate.
  injection H as <-. cbn [core_tables snd].
  destruct (interleaved args); cbn [negb].
  - split; [reflexivity | discriminate].
  - split; [discriminate |]. intros _. eexists _, _. split; [reflexivity |].
    split; [apply partition_Permutation |].
    split; [apply sublist_filter |]. split; [apply sublist_filter |].
    split; intros e; rewrite list_elem_of_filter; tauto.
Qed.

Lemma Print_tables_witness :
  exists r nonWritable writable,
    Print exact_percent (fun _ _ => inr tt) (fun _ => inr "true") plain_entries plain_args
    = Returns r
    /\ core_tables r = [nonWritable; writable]
    /\ Permutation (nonWritable ++ writable) plain_entries.
Proof.
  destruct (Print exact_percent (fun _ _ => inr tt) (fun _ => inr "true")
              plain_entries plain_args)
    as [r | e | e |] eqn:H; [| exfalso; vm_compute in H; discriminate ..].
  destruct (Print_tables _ _ _ _ _ r H eq_refl) as [_ Hsplit].
  destruct (Hsplit eq_refl) as (nw & w & Ht & Hp & _).
  exists r, nw, w. split; [reflexivity |]. split; [exact Ht | exact Hp].
Defined.

(** The table of writable regions and the writable total do not use the
    same test: the table takes an entry whose protection has a 'w'
    anywhere, the total one whose second slot is 'w'.  Every entry counted
    in the total is in the table; the two agree on a three-character
    protection with no 'w' in its first and third slot, and on the unknown
    marker, which is writable for neither. *)
Theorem writable_tests (e : VmmapEntry) :
  (write_slot e = true -> is_writable e = true)
  /\ (forall c0 c1 c2,
        VmmapEntry.prt e = String c0 (String c1 (String c2 EmptyString)) ->
        c0 <> "w"%char -> c2 <> "w"%char -> is_writable e = write_slot e)
  /\ (VmmapEntry.prt e = "???" -> is_writable e = false /\ write_slot e = false).
Proof.
  unfold write_slot, is_writable, contains_char, find_first_of, WRITE_INDEX, string_at.
  split; [| split].
  - intros H. destruct (String.get 1 (VmmapEntry.prt e)) as [c |] eqn:Hg; [| discriminate].
    apply Ascii.eqb_eq in H. subst c.
    destruct (find_from (Ascii.eqb "w") 0 (VmmapEntry.prt e)) eqn:Hf; [reflexivity |].
    pose proof (proj1 (find_from_None _ _ _) Hf 1%nat "w"%char ltac:(lia) Hg) as Hc.
    discriminate.
  - intros c0 c1 c2 -> H0 H2. cbn [find_from String.get].
    apply Ascii.eqb_neq in H0, H2.
    rewrite (Ascii.eqb_sym "w" c0), (Ascii.eqb_sym "w" c2), H0, H2.
    rewrite (Ascii.eqb_sym "w" c1). destruct (Ascii.eqb c1 "w"); reflexivity.
  - intros ->. split; reflexivity.
Qed.

Lemma writable_tests_witness :
  write_slot (file_entry "rw-" "/lib/libc.so") = true
  /\ is_writable (file_entry "rw-" "/lib/libc.so") = true
  /\ is_writable (file_entry "w--" "/lib/libc.so") = true
  /\ write_slot (file_entry "w--" "/lib/libc.so") = false.
Proof.
  split; [reflexivity |]. split; [| split; reflexivity].
  apply (proj1 (writable_tests (file_entry "rw-" "/lib/libc.so"))). reflexivity.
Defined.

(** ** The command line *)

Lemma check_digits_forall arg :
  check_digits arg = (if str_forall isdigit arg then inr tt
                      else inl (runtime_error "[invalid usage]: Only PID is supported at the moment.")).
Proof.
  induction arg as [| c arg IH]; [reflexivity |].
  cbn [check_digits str_forall]. destruct (isdigit c); [exact IH | reflexivity].
Qed.

Lemma digits_value_nonneg s : forall acc,
  str_forall isdigit s = true -> 0 <= acc -> 0 <= digits_value 10 digit_value acc s.
Proof.
  induction s as [| c s IH]; intros acc Hs Hacc; [exact Hacc |].
  cbn [str_forall] in Hs. apply andb_true_iff in Hs. destruct Hs as [Hc Hs].
  cbn [digits_value]. apply IH; [exact Hs |].
  unfold isdigit in Hc. apply andb_true_iff in Hc. destruct Hc as [H1 _].
  apply Nat.leb_le in H1. unfold digit_value. lia.
Qed.

Lemma stoi_digits arg :
  str_forall isdigit arg = true ->
  stoi arg = if is_empty arg then throw (invalid_argument "stoi")
             else if decimal arg <=? INT_MAX then ret (decimal arg)
             else throw (out_of_range "stoi").
Proof.
  intros Hd. unfold stoi. destruct arg as [| c arg]; [reflexivity |].
  pose proof Hd as Hd'. cbn [str_forall] in Hd'.
  apply andb_true_iff in Hd'. destruct Hd' as [Hc _].
  cbn [span]. rewrite (isdigit_not_space c Hc), (isdigit_read_sign c _ Hc).
  rewrite (span_all isdigit _ Hd). cbn [is_empty]. fold (decimal (String c arg)).
  pose proof (digits_value_nonneg (String c arg) 0 Hd ltac:(lia)) as Hn.
  fold (decimal (String c arg)) in Hn.
  assert (Hmin : (INT_MIN <=? decimal (String c arg)) = true)
    by (apply Z.leb_le; unfold INT_MIN; lia).
  rewrite Hmin. reflexivity.
Qed.

Lemma is_pid_head arg : is_pid arg = true -> Ascii.eqb (string_at arg 0) "-" = false.
Proof.
  unfold is_pid. intros H. apply andb_true_iff in H. destruct H as [H _].
  apply andb_true_iff in H. destruct H as [Hne Hd].
  destruct arg as [| c arg]; [discriminate |].
  cbn [str_forall] in Hd. apply andb_true_iff in Hd. destruct Hd as [Hc _].
  cbn. destruct (Ascii.eqb_spec c "-") as [-> | _]; [discriminate | reflexivity].
Qed.

Lemma is_pid_not_option arg : is_pid arg = true -> is_option arg = false.
Proof.
  intros H. destruct (is_option arg) eqn:Ho; [| reflexivity].
  unfold is_option, option_names in Ho. cbn [existsb] in Ho.
  repeat (apply orb_true_iff in Ho; destruct Ho as [Ho | Ho];
          [apply String.eqb_eq in Ho; subst arg; vm_compute in H; discriminate |]).
  discriminate.
Qed.

(** One argument that is not an option. *)
Lemma ParseArgs_arg_other a arg :
  is_option arg = false ->
  ParseArgs_arg a arg
  = if is_pid arg then inr (set_pid (decimal arg) a) else inl (usage_error arg).
Proof.
  unfold is_option, option_names. cbn [existsb]. intros Ho.
  repeat (apply orb_false_iff in Ho; destruct Ho as [?E Ho]).
  unfold ParseArgs_arg.
  repeat match goal with E : String.eqb arg _ = false |- _ => rewrite E; clear E end.
  cbn [orb]. unfold usage_error, is_pid.
  destruct (Ascii.eqb (string_at arg 0) "-") eqn:Hh; cbn [negb].
  - destruct arg as [| c arg]; [discriminate |]. cbn in Hh.
    apply Ascii.eqb_eq in Hh. subst c. reflexivity.
  - rewrite check_digits_forall.
    destruct (str_forall isdigit arg) eqn:Hd; cbn [negb andb].
    + rewrite (stoi_digits arg Hd). destruct (is_empty arg); [reflexivity |].
      cbn [negb andb]. destruct (decimal arg <=? INT_MAX); reflexivity.
    + rewrite andb_false_r. reflexivity.
Qed.

Lemma ParseArgs_arg_inr a arg a' :
  ParseArgs_arg a arg = inr a' ->
  flags_from a (fun names => existsb (String.eqb arg) names) a'
  /\ (is_option arg = true \/ is_pid arg = true)
  /\ pid a' = (if is_pid arg then decimal arg else pid a).
Proof.
  intros H. destruct (is_option arg) eqn:Ho.
  - unfold is_option, option_names in Ho. cbn [existsb] in Ho.
    repeat (apply orb_true_iff in Ho; destruct Ho as [Ho | Ho];
            [ apply String.eqb_eq in Ho; subst arg; cbn in H; injection H as <-;
              split; [unfold flags_from; cbn; rewrite ?orb_true_r, ?orb_false_r; tauto |];
              split; [left; reflexivity | reflexivity] |]).
    discriminate.
  - rewrite (ParseArgs_arg_other a arg Ho) in H.
    destruct (is_pid arg) eqn:Hp; [| discriminate]. injection H as <-.
    split; [| split; [right; reflexivity | reflexivity]].
    unfold is_option, option_names in Ho. cbn [existsb] in Ho.
    repeat (apply orb_false_iff in Ho; destruct Ho as [?E Ho]).
    unfold flags_from. cbn [existsb set_pid wide pages interleaved submap allSplitLibs
                             noCoalesce summary stacks fullStacks forkCorpse].
    repeat match goal with E : String.eqb arg _ = false |- _ => rewrite E; clear E end.
    cbn [orb]. rewrite !orb_false_r. tauto.
Qed.

Lemma ParseArgs_arg_inl a arg e :
  ParseArgs_arg a arg = inl e ->
  is_option arg = false /\ is_pid arg = false /\ e = usage_error arg.
Proof.
  intros H. destruct (is_option arg) eqn:Ho.
  - exfalso. unfold is_option, option_names in Ho. cbn [existsb] in Ho.
    repeat (apply orb_true_iff in Ho; destruct Ho as [Ho | Ho];
            [ apply String.eqb_eq in Ho; subst arg; cbn in H; discriminate |]).
    discriminate.
  - rewrite (ParseArgs_arg_other a arg Ho) in H.
    destruct (is_pid arg); [discriminate |]. injection H as <-. auto.
Qed.

Lemma flags_from_nil a : flags_from a (fun _ => false) a.
Proof. unfold flags_from. rewrite !orb_false_r. tauto. Qed.

Lemma flags_from_trans a b c (f g : list string -> bool) :
  flags_from a f b -> flags_from b g c -> flags_from a (fun names => f names || g names) c.
Proof.
  unfold flags_from. intros Hab Hbc.
  repeat match goal with H : _ /\ _ |- _ => destruct H as [?E H] end.
  repeat match goal with E : _ = _ |- _ => rewrite E; clear E end.
  rewrite !orb_assoc. tauto.
Qed.

Lemma ParseArgs_loop_inr rest : forall a a',
  ParseArgs_loop a rest = inr a' ->
  flags_from a (fun names => existsb (fun arg => existsb (String.eqb arg) names) rest) a'
  /\ Forall (fun arg => is_option arg = true \/ is_pid arg = true) rest
  /\ pid a' = default (pid a) (decimal <$> last (filter (fun arg => is_pid arg = true) rest)).
Proof.
  induction rest as [| arg rest IH]; intros a a' H.
  - injection H as <-. split; [apply flags_from_nil |]. split; [constructor | reflexivity].
  - cbn [ParseArgs_loop] in H.
    destruct (ParseArgs_arg a arg) as [e | a1] eqn:Harg; [discriminate |].
    destruct (ParseArgs_arg_inr _ _ _ Harg) as (Hf1 & Ho1 & Hp1).
    destruct (IH _ _ H) as (Hf & Ho & Hp).
    split; [exact (flags_from_trans _ _ _ _ _ Hf1 Hf) |].
    split; [constructor; assumption |].
    rewrite Hp, Hp1, filter_cons.
    destruct (is_pid arg) eqn:Hpid.
    + destruct (decide (true = true)) as [_ | Hd]; [| congruence].
      rewrite last_cons.
      destruct (last (filter (fun arg0 => is_pid arg0 = true) rest)); reflexivity.
    + destruct (decide (false = true)) as [Hd | _]; [discriminate |]. reflexivity.
Qed.

Lemma ParseArgs_loop_ok rest : forall a,
  Forall (fun arg => is_option arg = true \/ is_pid arg = true) rest ->
  exists a', ParseArgs_loop a rest = inr a'.
Proof.
  induction rest as [| arg rest IH]; intros a H.
  - exists a. reflexivity.
  - inversion H as [| ? ? Harg Hrest]; subst. cbn [ParseArgs_loop].
    destruct (ParseArgs_arg a arg) as [e | a1] eqn:Ha.
    + exfalso. destruct (ParseArgs_arg_inl _ _ _ Ha) as (Ho & Hp & _).
      destruct Harg; congruence.
    + apply IH. exact Hrest.
Qed.

Lemma ParseArgs_loop_first pre arg post : forall a,
  Forall (fun arg => is_option arg = true \/ is_pid arg = true) pre ->
  is_option arg = false -> is_pid arg = false ->
  ParseArgs_loop a (pre ++ arg :: post) = inl (usage_error arg).
Proof.
  induction pre as [| b pre IH]; intros a Hpre Ho Hp.
  - cbn [app ParseArgs_loop]. rewrite (ParseArgs_arg_other a arg Ho), Hp. reflexivity.
  - inversion Hpre as [| ? ? Hb Hrest]; subst. cbn [app ParseArgs_loop].
    destruct (ParseArgs_arg a b) as [e | a1] eqn:Ha.
    + exfalso. destruct (ParseArgs_arg_inl _ _ _ Ha) as (Ho' & Hp' & _).
      destruct Hb; congruence.
    + apply IH; assumption.
Qed.

Lemma ParseArgs_inr init argv a :
  ParseArgs init argv = inr a ->
  ParseArgs_loop init (tail argv) = inr a /\ pid a <> -1.
Proof.
  unfold ParseArgs. intros H.
  destruct (ParseArgs_loop init (tail argv)) as [e | a1]; [discriminate |].
  destruct (Z.eqb_spec (pid a1) (-1)) as [| Hne]; [discriminate |].
  injection H as <-. split; [reflexivity | exact Hne].
Qed.

Lemma ParseArgs_flags' init argv a :
  ParseArgs init argv = inr a -> flags_from init (fun names => given names argv) a.
Proof.
  intros H. destruct (ParseArgs_inr _ _ _ H) as [Hl _].
  exact (proj1 (ParseArgs_loop_inr _ _ _ Hl)).
Qed.

Lemma given_mono names names' argv :
  (forall n, In n names -> In n names') ->
  given names argv = true -> given names' argv = true.
Proof.
  unfold given. intros Hsub H.
  apply existsb_exists in H. destruct H as (arg & Harg & H).
  apply existsb_exists in H. destruct H as (n & Hn & H).
  apply existsb_exists. exists arg. split; [exact Harg |].
  apply existsb_exists. exists n. split; [apply Hsub; exact Hn | exact H].
Qed.

(** When [ParseArgs] returns, each flag is on exactly when it was on in the
    default-constructed arguments or one of the spellings that set it is
    on the command line: -v and -verbose also set wide, submap,
    allSplitLibs and noCoalesce; -stacks also sets interleaved and
    noCoalesce; -fullStacks also sets stacks; allSplitLibs is spelled
    without a dash.  No argument clears a flag.  So, from defaults where
    stacks and fullStacks are off, fullStacks implies stacks and stacks
    implies interleaved and noCoalesce. *)
Theorem ParseArgs_flags init argv a :
  ParseArgs init argv = inr a ->
  flags_from init (fun names => given names argv) a
  /\ (stacks init = false -> fullStacks init = false ->
      (fullStacks a = true -> stacks a = true)
      /\ (stacks a = true -> interleaved a = true /\ noCoalesce a = true)).
Proof.
  intros H. pose proof (ParseArgs_flags' _ _ _ H) as Hf. split; [exact Hf |].
  intros Hs Hfs. unfold flags_from in Hf.
  destruct Hf as (_ & _ & Hi & _ & _ & Hn & _ & Hst & Hfu & _).
  rewrite Hi, Hn, Hst, Hfu, Hs, Hfs. cbn [orb]. split.
  - apply given_mono. intros n Hin. right. exact Hin.
  - intros Hg. split; apply orb_true_iff; right; revert Hg; apply given_mono;
      intros n Hin; cbn [In] in *; tauto.
Qed.

Lemma ParseArgs_flags_witness :
  exists a,
    ParseArgs no_args ["vmmap"; "-fullStacks"; "-v"; "4242"] = inr a
    /\ wide a = true /\ stacks a = true /\ interleaved a = true
    /\ noCoalesce a = true /\ pages a = false.
Proof.
  destruct (ParseArgs no_args ["vmmap"; "-fullStacks"; "-v"; "4242"]) as [e | a] eqn:H;
    [exfalso; vm_compute in H; discriminate |].
  exists a. split; [reflexivity |].
  destruct (ParseArgs_flags _ _ _ H) as [Hf _]. unfold flags_from in Hf.
  destruct Hf as (Hw & Hp & Hi & _ & _ & Hn & _ & Hst & _).
  rewrite Hw, Hp, Hi, Hn, Hst. repeat split; reflexivity.
Defined.

Lemma last_pid_range argv v : last_pid argv = Some v -> 0 <= v <= INT_MAX.
Proof.
  unfold last_pid. intros H.
  destruct (last (filter (fun arg => is_pid arg = true) (tail argv))) as [arg |] eqn:Hl;
    [| discriminate].
  injection H as <-. apply last_Some_elem_of in Hl.
  apply list_elem_of_filter in Hl. destruct Hl as [Hp _].
  unfold is_pid in Hp. apply andb_true_iff in Hp. destruct Hp as [Hp Hmax].
  apply andb_true_iff in Hp. destruct Hp as [_ Hd]. apply Z.leb_le in Hmax.
  split; [| exact Hmax]. exact (digits_value_nonneg arg 0 Hd ltac:(lia)).
Qed.

(** When [ParseArgs] returns, the process id is the number written by the
    last argument of decimal digits, between 0 and INT_MAX; with no such
    argument it is the one of the default-constructed arguments.  It is
    never -1. *)
Theorem ParseArgs_pid init argv a :
  ParseArgs init argv = inr a ->
  pid a = default (pid init) (last_pid argv)
  /\ pid a <> -1
  /\ (forall v, last_pid argv = Some v -> pid a = v /\ 0 <= v <= INT_MAX).
Proof.
  intros H. destruct (ParseArgs_inr _ _ _ H) as [Hl Hne].
  destruct (ParseArgs_loop_inr _ _ _ Hl) as (_ & _ & Hp).
  fold (last_pid argv) in Hp. split; [exact Hp |]. split; [exact Hne |].
  intros v Hv. rewrite Hv in Hp. split; [exact Hp |]. exact (last_pid_range _ _ Hv).
Qed.

Lemma ParseArgs_pid_witness :
  exists a,
    ParseArgs no_args ["vmmap"; "17"; "-w"; "004242"] = inr a /\ pid a = 4242.
Proof.
  destruct (ParseArgs no_args ["vmmap"; "17"; "-w"; "004242"]) as [e | a] eqn:H;
    [exfalso; vm_compute in H; discriminate |].
  exists a. split; [reflexivity |].
  destruct (ParseArgs_pid _ _ _ H) as (_ & _ & Hv).
  exact (proj1 (Hv 4242 eq_refl)).
Defined.

(** [ParseArgs] returns exactly when every argument after the program name
    is an option or a process id and the resulting process id is not -1.
    When the arguments are all of these and the process id stays -1, it
    reports that no process was specified. *)
Theorem ParseArgs_accepts init argv :
  ((exists a, ParseArgs init argv = inr a)
   <-> Forall (fun arg => is_option arg = true \/ is_pid arg = true) (tail argv)
       /\ default (pid init) (last_pid argv) <> -1)
  /\ (Forall (fun arg => is_option arg = true \/ is_pid arg = true) (tail argv) ->
      default (pid init) (last_pid argv) = -1 ->
      ParseArgs init argv
      = inl (logic_error (invalid_argument "[invalid usage]: no process specified"))).
Proof.
  split; [split |].
  - intros [a H]. destruct (ParseArgs_inr _ _ _ H) as [Hl Hne].
    destruct (ParseArgs_loop_inr _ _ _ Hl) as (_ & Ho & Hp).
    split; [exact Ho |]. fold (last_pid argv) in Hp. rewrite <- Hp. exact Hne.
  - intros [Ho Hne]. destruct (ParseArgs_loop_ok _ init Ho) as [a Hl].
    destruct (ParseArgs_loop_inr _ _ _ Hl) as (_ & _ & Hp).
    fold (last_pid argv) in Hp. exists a. unfold ParseArgs. rewrite Hl.
    destruct (Z.eqb_spec (pid a) (-1)) as [He |]; [congruence | reflexivity].
  - intros Ho He. destruct (ParseArgs_loop_ok _ init Ho) as [a Hl].
    destruct (ParseArgs_loop_inr _ _ _ Hl) as (_ & _ & Hp).
    fold (last_pid argv) in Hp. unfold ParseArgs. rewrite Hl.
    destruct (Z.eqb_spec (pid a) (-1)) as [| Hne]; [reflexivity | congruence].
Qed.

(** The first argument that is neither an option nor a process id decides
    the exception, whatever follows it: an unrecognised-option
    invalid_argument for one that starts with a dash (such as
    -allSplitLibs), a runtime_error for one with a character that is not a
    digit, the invalid_argument of stoi for the empty argument and its
    out_of_range for digits above INT_MAX. *)
Theorem ParseArgs_first_error init argv0 pre arg post :
  Forall (fun arg => is_option arg = true \/ is_pid arg = true) pre ->
  is_option arg = false -> is_pid arg = false ->
  ParseArgs init (argv0 :: pre ++ arg :: post) = inl (usage_error arg).
Proof.
  intros Hpre Ho Hp. unfold ParseArgs. cbn [tail].
  rewrite (ParseArgs_loop_first pre arg post init Hpre Ho Hp). reflexivity.
Qed.

Lemma ParseArgs_first_error_witness :
  ParseArgs no_args ("vmmap" :: ["4242"; "-w"] ++ "-allSplitLibs" :: ["-bogus"])
  = inl (logic_error (invalid_argument
           "[invalid usage]: unrecognized option '-allSplitLibs'"))
  /\ ParseArgs no_args ("vmmap" :: [] ++ "" :: [])
     = inl (logic_error (invalid_argument "stoi"))
  /\ ParseArgs no_args ("vmmap" :: [] ++ "2147483648" :: [])
     = inl (logic_error (out_of_range "stoi"))
  /\ ParseArgs no_args ("vmmap" :: [] ++ "init" :: [])
     = inl (runtime_error "[invalid usage]: Only PID is supported at the moment.").
Proof.
  split; [| split; [| split]].
  - apply (ParseArgs_first_error no_args "vmmap" ["4242"; "-w"] "-allSplitLibs" ["-bogus"]).
    + constructor; [right; reflexivity |]. constructor; [left; reflexivity |]. constructor.
    + reflexivity.
    + reflexivity.
  - apply (ParseArgs_first_error no_args "vmmap" [] "" []); [constructor | reflexivity ..].
  - apply (ParseArgs_first_error no_args "vmmap" [] "2147483648" []);
      [constructor | reflexivity ..].
  - apply (ParseArgs_first_error no_args "vmmap" [] "init" []); [constructor | reflexivity ..].
Defined.

(** A command line with -forkCorpse that [ParseArgs] accepts is refused by
    [Print], before it looks at the process or at the entries. *)
Theorem forkCorpse_is_refused
    (round_percent : Z -> Z -> option Z)
    (PrintOverview : list VmmapEntry -> VmmapArgs -> result unit)
    (GetProcessName : Z -> result string)
    (init : VmmapArgs) (argv : list string) (a : VmmapArgs) (entries : list VmmapEntry) :
  ParseArgs init argv = inr a ->
  given ["-forkCorpse"] argv = true ->
  Print round_percent PrintOverview GetProcessName entries a
  = ThrowsPointer (invalid_argument "vmmap: -forkCorpse not implemented").
Proof.
  intros H Hg. pose proof (ParseArgs_flags' _ _ _ H) as Hf. unfold flags_from in Hf.
  destruct Hf as (_ & _ & _ & _ & _ & _ & _ & _ & _ & Hfc).
  rewrite Hg, orb_true_r in Hfc. unfold Print. rewrite Hfc. reflexivity.
Qed.

Lemma forkCorpse_is_refused_witness :
  exists a,
    ParseArgs no_args ["vmmap"; "-forkCorpse"; "4242"] = inr a
    /\ Print exact_percent (fun _ _ => inr tt) (fun _ => inr "true") plain_entries a
       = ThrowsPointer (invalid_argument "vmmap: -forkCorpse not implemented").
Proof.
  destruct (ParseArgs no_args ["vmmap"; "-forkCorpse"; "4242"]) as [e | a] eqn:H;
    [exfalso; vm_compute in H; discriminate |].
  exists a. split; [reflexivity |].
  exact (forkCorpse_is_refused _ _ _ _ _ _ _ H eq_refl).
Defined.

(** ** The words of VmFlags *)

Lemma words_of_blanks sp s :
  str_forall isspace sp = true -> words_of false (sp +:+ s) = words_of false s.
Proof.
  induction sp as [| c sp IH]; intros H.
  - rewrite append_nil. reflexivity.
  - cbn [str_forall] in H. apply andb_true_iff in H. destruct H as [Hc H].
    rewrite append_cons. cbn [words_of]. rewrite Hc. exact (IH H).
Qed.

Lemma words_of_inword w s :
  str_forall not_space w = true -> stops not_space s ->
  words_of true (w +:+ s) = words_of false s.
Proof.
  induction w as [| c w IH]; intros H Hs.
  - rewrite append_nil. destruct s as [| d s]; [reflexivity |].
    cbn [stops] in Hs. unfold not_space in Hs. apply negb_false_iff in Hs.
    cbn [words_of]. rewrite Hs. reflexivity.
  - cbn [str_forall] in H. apply andb_true_iff in H. destruct H as [Hc H].
    unfold not_space in Hc. apply negb_true_iff in Hc.
    rewrite append_cons. cbn [words_of]. rewrite Hc. exact (IH H Hs).
Qed.

Lemma words_of_word c w s :
  isspace c = false -> str_forall not_space w = true -> stops not_space s ->
  words_of false (String c w +:+ s) = String c w :: words_of false s.
Proof.
  intros Hc Hw Hs. rewrite append_cons. cbn [words_of]. rewrite Hc.
  rewrite (span_app not_space w s Hw Hs). cbn [fst].
  rewrite (words_of_inword w s Hw Hs). reflexivity.
Qed.

Lemma ends_blank_app a b : b <> "" -> ends_blank (a +:+ b) = ends_blank b.
Proof.
  intros Hb. induction a as [| c a IH]; [rewrite append_nil; reflexivity |].
  rewrite append_cons. cbn [ends_blank].
  destruct (a +:+ b) eqn:Hab; [| exact IH].
  destruct a; [rewrite append_nil in Hab; congruence | rewrite append_cons in Hab; discriminate].
Qed.

Lemma ends_blank_blanks sp : str_forall isspace sp = true -> ends_blank sp = true.
Proof.
  induction sp as [| c sp IH]; intros H; [reflexivity |].
  cbn [str_forall] in H. apply andb_true_iff in H. destruct H as [Hc H].
  cbn [ends_blank]. destruct sp; [exact Hc | exact (IH H)].
Qed.

Lemma ends_blank_word c w :
  isspace c = false -> str_forall not_space w = true -> ends_blank (String c w) = false.
Proof.
  revert c. induction w as [| d w IH]; intros c Hc H; cbn [ends_blank is_empty].
  - exact Hc.
  - cbn [str_forall] in H. apply andb_true_iff in H. destruct H as [Hd H].
    unfold not_space in Hd. apply negb_true_iff in Hd. exact (IH d Hd H).
Qed.

Ltac set_taut :=
  apply set_eq; intros ?; rewrite ?elem_of_union, ?elem_of_empty; tauto.

Lemma MakeTagSet_loop_words : forall fuel s tags,
  (String.length s < fuel)%nat ->
  MakeTagSet_loop fuel (mkStream s false false) tags
  = (if ends_blank s then {[ "" ]} else ∅) ∪ list_to_set (words_of false s) ∪ tags.
Proof.
  induction fuel as [| fuel IH]; intros s tags Hlen; [lia |].
  cbn [MakeTagSet_loop eofbit]. unfold extract_word, good. cbn [eofbit failbit buf negb andb].
  destruct (span isspace s) as [sp s1] eqn:Hsp.
  destruct (span_split _ _ _ _ Hsp) as [-> Hblank].
  pose proof (span_stops _ _ _ _ Hsp) as Hstop.
  destruct s1 as [| c s1]; cbn [is_empty].
  - rewrite append_empty_r. rewrite (ends_blank_blanks sp Hblank).
    pose proof (words_of_blanks sp "" Hblank) as Hw. rewrite append_empty_r in Hw.
    rewrite Hw. cbn [words_of list_to_set].
    destruct fuel; cbn [MakeTagSet_loop eofbit]; set_taut.
  - cbn [stops] in Hstop.
    destruct (span (fun c0 => negb (isspace c0)) (String c s1)) as [w s2] eqn:Hw.
    pose proof (span_stops _ _ _ _ Hw) as Hstop2.
    destruct (span_split _ _ _ _ Hw) as [Heq Hword].
    cbn [span] in Hw. rewrite Hstop in Hw. cbn [negb] in Hw.
    destruct (span (fun c0 => negb (isspace c0)) s1) as [w' s2'] eqn:Hw'.
    injection Hw as <- <-. rewrite Heq.
    cbn [str_forall] in Hword. rewrite Hstop in Hword. cbn [negb andb] in Hword.
    rewrite (words_of_blanks sp _ Hblank).
    rewrite (words_of_word c w' s2' Hstop Hword Hstop2).
    rewrite ends_blank_app by (rewrite append_cons; discriminate).
    destruct s2' as [| d s2']; cbn [is_empty].
    + rewrite append_empty_r, (ends_blank_word c w' Hstop Hword).
      cbn [words_of list_to_set].
      destruct fuel; cbn [MakeTagSet_loop eofbit]; set_taut.
    + rewrite IH.
      * rewrite (ends_blank_app (String c w') (String d s2')) by discriminate.
        cbn [list_to_set]. set_taut.
      * apply span_length in Hsp. apply span_length in Hw'.
        rewrite Hsp in Hlen. cbn [String.length] in *. lia.
Qed.

Lemma MakeTagSet_words' str :
  MakeTagSet str
  = (if ends_blank str then {[ "" ]} else ∅) ∪ list_to_set (words_of false str).
Proof.
  unfold MakeTagSet, stringstream. rewrite MakeTagSet_loop_words by lia. set_taut.
Qed.

Lemma words_of_not_empty s : forall b, "" ∉ words_of b s.
Proof.
  induction s as [| c s IH]; intros b; cbn [words_of]; [apply not_elem_of_nil |].
  destruct (isspace c); [apply IH |]. destruct b; [apply IH |].
  apply not_elem_of_cons. split; [discriminate | apply IH].
Qed.

Lemma words_of_no_blank s : forall b w,
  w ∈ words_of b s -> w <> "" /\ str_forall not_space w = true.
Proof.
  induction s as [| c s IH]; intros b w H; cbn [words_of] in H.
  - apply elem_of_nil in H. destruct H.
  - destruct (isspace c) eqn:Hc; [exact (IH _ _ H) |].
    destruct b; [exact (IH _ _ H) |].
    apply elem_of_cons in H. destruct H as [-> | H]; [| exact (IH _ _ H)].
    split; [discriminate |]. cbn [str_forall]. unfold not_space at 1. rewrite Hc.
    cbn [negb andb]. destruct (span not_space s) as [a r] eqn:Hs.
    exact (proj2 (span_split _ _ _ _ Hs)).
Qed.

(** [MakeTagSet] returns the words of the text, and the empty string with
    them exactly when the text is empty or ends in white space: the
    extraction that meets the end of the text there fails and its empty
    target is inserted all the same.  No other element is empty or has
    white space in it. *)
Theorem MakeTagSet_words (str : string) :
  (forall w, w ∈ MakeTagSet str <->
             w ∈ words_of false str \/ (w = "" /\ ends_blank str = true))
  /\ ("" ∈ MakeTagSet str <-> ends_blank str = true)
  /\ (forall w, w ∈ MakeTagSet str -> w <> "" ->
                str_forall not_space w = true /\ w ∈ words_of false str).
Proof.
  rewrite MakeTagSet_words'.
  assert (Hmem : forall w,
    w ∈ (if ends_blank str then {[ "" ]} else ∅) ∪ list_to_set (C := gset string) (words_of false str)
    <-> w ∈ words_of false str \/ (w = "" /\ ends_blank str = true)).
  { intros w. rewrite elem_of_union, elem_of_list_to_set.
    destruct (ends_blank str); [rewrite elem_of_singleton | rewrite elem_of_empty];
      intuition congruence. }
  split; [exact Hmem |]. split.
  - rewrite Hmem. split.
    + intros [H | [_ H]]; [exfalso; exact (words_of_not_empty _ _ H) | exact H].
    + intros H. right. split; [reflexivity | exact H].
  - intros w H Hne. apply Hmem in H. destruct H as [H | [H _]]; [| congruence].
    split; [exact (proj2 (words_of_no_blank _ _ _ H)) | exact H].
Qed.

Lemma has_flag_may name c flags :
  name <> "" -> has_flag (MakeTagSet flags) name c = may name c flags.
Proof.
  intros Hne. unfold has_flag, may. apply (f_equal (fun b : bool => if b then c else "-"%char)).
  apply bool_decide_ext. rewrite MakeTagSet_words'.
  rewrite elem_of_union, elem_of_list_to_set.
  destruct (ends_blank flags); [rewrite elem_of_singleton | rewrite elem_of_empty];
    intuition congruence.
Qed.

Lemma LinuxToVmmap_protection' hps entry e :
  LinuxToVmmap hps entry = inr e ->
  VmmapEntry.prt e
  = (if String.eqb (LinuxEntry.permissions entry) "" then "???"
     else take_str 3 (LinuxEntry.permissions entry))
  /\ VmmapEntry.max e
     = match LinuxEntry.tags entry !! "VmFlags" with
       | Some flags =>
           String (may "mr" "r" flags)
             (String (may "mw" "w" flags) (String (may "me" "x" flags) EmptyString))
       | None => "???"
       end.
Proof.
  unfold LinuxToVmmap. cbv zeta. intros H.
  apply bind_inr in H. destruct H as (pageSize & _ & H).
  apply bind_inr in H. destruct H as (vsize & _ & H).
  apply bind_inr in H. destruct H as (rss & _ & H).
  apply bind_inr in H. destruct H as (dirty0 & _ & H).
  apply bind_inr in H. destruct H as (dirty & _ & H).
  apply bind_inr in H. destruct H as (swap & _ & H).
  assert (Hmax :
    match LinuxEntry.tags entry !! "VmFlags" with
    | Some v =>
        String (has_flag (MakeTagSet v) "mr" "r")
          (String (has_flag (MakeTagSet v) "mw" "w")
             (String (has_flag (MakeTagSet v) "me" "x") EmptyString))
    | None => "???"
    end
    = match LinuxEntry.tags entry !! "VmFlags" with
      | Some flags =>
          String (may "mr" "r" flags)
            (String (may "mw" "w" flags) (String (may "me" "x" flags) EmptyString))
      | None => "???"
      end).
  { destruct (LinuxEntry.tags entry !! "VmFlags") as [v |]; [| reflexivity].
    rewrite !has_flag_may by discriminate. reflexivity. }
  rewrite <- Hmax.
  destruct (contains_char "/" (LinuxEntry.description entry));
    [injection H as <-; split; reflexivity |].
  destruct (String.eqb (LinuxEntry.description entry) "HEAP");
    [injection H as <-; split; reflexivity |].
  destruct (String.eqb (LinuxEntry.description entry) "[stack]");
    [injection H as <-; split; reflexivity |].
  destruct (String.eqb (take_str 7 (LinuxEntry.description entry)) "[stack:").
  - apply bind_inr in H. destruct H as (id & _ & H). injection H as <-. split; reflexivity.
  - injection H as <-. split; reflexivity.
Qed.

(** The first stage takes the current protection from the first three
    characters of the permission field, or the unknown marker when the
    field is empty.  The maximal protection is the unknown marker without
    a VmFlags attribute; with one, its letters are r, w and x exactly
    where mr, mw and me are words of the attribute, and dashes elsewhere. *)
Theorem LinuxToVmmap_protection (hps : Z) (entry : LinuxEntry) (e : VmmapEntry) :
  LinuxToVmmap hps entry = inr e ->
  VmmapEntry.prt e
  = (if String.eqb (LinuxEntry.permissions entry) "" then "???"
     else take_str 3 (LinuxEntry.permissions entry))
  /\ VmmapEntry.max e
     = match LinuxEntry.tags entry !! "VmFlags" with
       | Some flags =>
           String (may "mr" "r" flags)
             (String (may "mw" "w" flags) (String (may "me" "x" flags) EmptyString))
       | None => "???"
       end.
Proof. exact (LinuxToVmmap_protection' hps entry e). Qed.

Lemma LinuxToVmmap_protection_witness :
  exists e,
    LinuxToVmmap 4096
      (LinuxEntry.mk 4194304 4198400 "r-xp" 0 "08:01" "12345" "/bin/true"
         {[ "VmFlags" := "rd ex mr me " ]}) = inr e
    /\ VmmapEntry.prt e = "r-x" /\ VmmapEntry.max e = "r-x".
Proof.
  destruct (LinuxToVmmap 4096
      (LinuxEntry.mk 4194304 4198400 "r-xp" 0 "08:01" "12345" "/bin/true"
         {[ "VmFlags" := "rd ex mr me " ]})) as [ex | e] eqn:H;
    [exfalso; vm_compute in H; discriminate |].
  exists e. split; [reflexivity |].
  destruct (LinuxToVmmap_protection _ _ _ H) as [Hp Hm].
  rewrite Hp, Hm. split; vm_compute; reflexivity.
Defined.

Lemma regex_match_perm line r :
  regex_match line = Some r -> str_forall cls_perm (m3 r) = true.
Proof.
  intros H. apply regex_match_groups in H. destruct H as (s1 & s2 & s3 & s4 & s5 & H).
  apply regex_run_sound in H. unfold regex in H. cbn [regex_build] in H.
  repeat match type of H with
         | context [str_forall ?c ?g] =>
             let E := fresh "E" in destruct (str_forall c g) eqn:E; [| discriminate]
         end.
  reflexivity.
Qed.

Lemma str_forall_take p : forall n s, str_forall p s = true -> str_forall p (take_str n s) = true.
Proof.
  induction n as [| n IH]; intros s H; destruct s as [| c s]; try reflexivity.
  cbn [str_forall] in H. apply andb_true_iff in H. destruct H as [Hc H].
  cbn [take_str str_forall]. rewrite Hc. exact (IH s H).
Qed.

Lemma length_take_str_min : forall n s,
  String.length (take_str n s) = Nat.min n (String.length s).
Proof.
  induction n as [| n IH]; intros s; destruct s as [| c s]; try reflexivity.
  cbn [take_str String.length]. rewrite IH. reflexivity.
Qed.

Lemma prt_shape_of_permissions perms :
  str_forall cls_perm perms = true ->
  prt_shape (if String.eqb perms "" then "???" else take_str 3 perms).
Proof.
  intros H. destruct (String.eqb_spec perms "") as [| Hne]; [left; reflexivity |].
  right. split; [| apply str_forall_take; exact H].
  rewrite length_take_str_min.
  destruct perms as [| c perms]; [congruence |]. cbn [String.length]. lia.
Qed.

Lemma Map_loop_protections hps lines st st' :
  str_forall cls_perm (LinuxEntry.permissions (currentLinuxEntry st)) = true ->
  (forall e, e ∈ entries st -> prt_shape (VmmapEntry.prt e) /\ max_shape (VmmapEntry.max e)) ->
  Map_loop hps st lines = inr st' ->
  forall e, e ∈ entries st' -> prt_shape (VmmapEntry.prt e) /\ max_shape (VmmapEntry.max e).
Proof.
  intros Hperm He Hloop.
  apply (Map_loop_invariant hps
           (fun s => str_forall cls_perm (LinuxEntry.permissions (currentLinuxEntry s)) = true
                     /\ forall e, e ∈ entries s ->
                          prt_shape (VmmapEntry.prt e) /\ max_shape (VmmapEntry.max e))
           lines) with (st := st); [| split; assumption | exact Hloop].
  clear st st' Hperm He Hloop. intros st line st' _ [Hperm He] Hline.
  apply Map_line_inr in Hline.
  destruct Hline as [(results & a & b & off & Hm & _ & _ & _ & _ & Hcur & Hes)
                    | (_ & _ & Hes & Hcur)].
  - split; [rewrite Hcur; exact (regex_match_perm _ _ Hm) |].
    destruct Hes as [[_ ->] | (_ & e & Hce & ->)]; [exact He |].
    intros e' He'. apply elem_of_app in He'. destruct He' as [He' | He'];
      [exact (He _ He') |].
    apply list_elem_of_singleton in He'. subst e'.
    destruct (LinuxToVmmap_protection' _ _ _ Hce) as [-> ->].
    split; [exact (prt_shape_of_permissions _ Hperm) |].
    destruct (LinuxEntry.tags (currentLinuxEntry st) !! "VmFlags") as [flags |];
      [right; exists flags; reflexivity | left; reflexivity].
  - rewrite Hes. split; [| exact He].
    destruct Hcur as [[_ ->] | (i & j & _ & _ & ->)]; exact Hperm.
Qed.

(** Every entry [Map] returns has as current protection the unknown
    marker or one to three permission letters, and as maximal protection
    the unknown marker or the three letters read off a VmFlags text, each
    its letter or a dash. *)
Theorem Map_protections (hps : Z) (text : string) (es : list VmmapEntry) :
  Map_text hps text = inr es ->
  forall e, e ∈ es ->
    prt_shape (VmmapEntry.prt e)
    /\ max_shape (VmmapEntry.max e)
    /\ String.length (VmmapEntry.max e) = 3%nat.
Proof.
  intros H e' He'. apply Map_text_entries in H. destruct H as (st' & Hloop & ->).
  apply classify_files_frame in He'.
  destruct He' as (e & label & detail & He & -> & _).
  cbn [VmmapEntry.prt VmmapEntry.max VmmapEntry.with_regionType VmmapEntry.with_regionDetail].
  destruct (Map_loop_protections hps (getlines text) loop_init st' eq_refl
              ltac:(intros e0 He0; apply elem_of_nil in He0; contradiction) Hloop e He)
    as [Hp Hm].
  split; [exact Hp |]. split; [exact Hm |].
  destruct Hm as [-> | [flags ->]]; reflexivity.
Qed.

Lemma Map_protections_witness :
  exists es e,
    Map_text 4096 flags_text = inr es
    /\ es !! 1%nat = Some e
    /\ VmmapEntry.max e = "rwx"
    /\ prt_shape (VmmapEntry.prt e).
Proof.
  destruct (Map_text 4096 flags_text) as [ex | es] eqn:H;
    [exfalso; vm_compute in H; discriminate |].
  destruct (es !! 1%nat) as [e |] eqn:He.
  - exists es, e. split; [reflexivity |]. split; [exact He |].
    split; [| exact (proj1 (Map_protections 4096 flags_text es H e
                              (list_elem_of_lookup_2 _ _ _ He)))].
    revert He. assert (Hes : Map_text 4096 flags_text = inr es) by exact H.
    revert Hes. clear H.
    assert (Hv : exists l, Map_text 4096 flags_text = inr l
                           /\ (VmmapEntry.max <$> l !! 1%nat) = Some "rwx")
      by (vm_compute; eexists; split; reflexivity).
    destruct Hv as (l & Hl & Hmax). intros Hes He. rewrite Hl in Hes.
    injection Hes as <-. rewrite He in Hmax. injection Hmax as ->. reflexivity.
  - exfalso.
    assert (Hv : exists l, Map_text 4096 flags_text = inr l /\ is_Some (l !! 1%nat))
      by (vm_compute; eexists; split; [reflexivity | eexists; reflexivity]).
    destruct Hv as (l & Hl & [x Hx]). rewrite Hl in H. injection H as <-. congruence.
Defined.
